(** * The streaming execution client of the Computer Agents SDK

    A shallow embedding of [ApiClient.request] (src/cloud/ApiClient.ts),
    [ThreadsResource.sendMessage] (src/cloud/resources/ThreadsResource.ts) and
    [ComputerAgentsClient.run] (src/ComputerAgentsClient.ts), with the platform
    primitives they rest on: JavaScript values and strings, the streaming
    UTF-8 [TextDecoder], [String.prototype.split/startsWith/slice/trim]. *)

From Stdlib Require Import List NArith ZArith Bool Lia.
From Stdlib Require Import Strings.String Strings.Ascii Strings.Byte.
From Stdlib Require Import DecimalString.
Import ListNotations.

Set Implicit Arguments.
Set Warnings "-register-all".
Local Open Scope N_scope.

(* ===================================================================== *)
(** ** JavaScript strings and values *)
(* ===================================================================== *)

Module JS.

(** A JavaScript string is a sequence of UTF-16 code units. *)
Definition jsstring : Type := list N.

(** A string literal of the source, all of whose characters are ASCII. *)
Definition lit (s : string) : jsstring :=
  List.map Byte.to_N (list_byte_of_string s).

Definition jsstring_eqb (a b : jsstring) : bool :=
  if list_eq_dec N.eq_dec a b then true else false.

(** A number is kept as the decimal [mant * 10 ^ exp10] it was written as
    (the literal that [JSON.parse] read, or a whole number of the code); the
    number it stands for is the double nearest to that decimal. *)
Record JSNumber : Type := { mant : Z; exp10 : Z }.

(** Double-precision numbers, as far as the code needs them: which double a
    decimal denotes, and the shortest decimal that denotes a given double. *)
Module Double.
Local Open Scope Z_scope.

(** A positive real is handled as a fraction [p / q] of positive integers.
    [2 ^ e <= p / q]: *)
Definition ge_pow2 (p q e : Z) : bool :=
  if 0 <=? e then q * 2 ^ e <=? p else q <=? p * 2 ^ (- e).

(** [10 ^ n <= p / q]. *)
Definition ge_pow10 (p q n : Z) : bool :=
  if 0 <=? n then q * 10 ^ n <=? p else q <=? p * 10 ^ (- n).

(** The largest [e] with [2 ^ e <= p / q]. *)
Definition floor_log2 (p q : Z) : Z :=
  let e := Z.log2 p - Z.log2 q in
  if ge_pow2 p q e then e else e - 1.

(** The integer nearest to [n / d]; of two that are as near, the even one. *)
Definition round_half_even (n d : Z) : Z :=
  let q := n / d in
  let r := n mod d in
  if 2 * r <? d then q
  else if d <? 2 * r then q + 1
  else if Z.even q then q else q + 1.

(** A double that is not negative: zero, [m * 2 ^ u] with [0 < m <= 2 ^ 53]
    and [-1074 <= u], or infinity. *)
Inductive double : Type :=
| Zero
| Finite (m u : Z)
| Infinity.

(** [p / q] rounded to the nearest double, ties to even (IEEE 754): the unit
    in the last place is [2 ^ (e - 52)] for a number in [2 ^ e, 2 ^ (e + 1)),
    and [2 ^ -1074] for the subnormal ones. *)
Definition nearest (p q : Z) : double :=
  let e := floor_log2 p q in
  let u := Z.max (e - 52) (-1074) in
  let m := if 0 <=? u then round_half_even p (q * 2 ^ u)
           else round_half_even (p * 2 ^ (- u)) q in
  if m =? 0 then Zero
  else if (0 <=? u) && (2 ^ 1024 <=? m * 2 ^ u) then Infinity
  else Finite m u.

(** The decimal [m * 10 ^ e], [m > 0], as a fraction. *)
Definition fraction (m e : Z) : Z * Z :=
  if 0 <=? e then (m * 10 ^ e, 1) else (m, 10 ^ (- e)).

(** The double that the decimal [m * 10 ^ e], [m > 0], denotes. The two
    tests on the size come first so that the powers stay small: a number
    below [2 ^ -1075] is nearest to zero, one from [2 ^ 1024] on is
    infinite. *)
Definition of_decimal (m e : Z) : double :=
  if (e <? 0) && (Z.log2 m + 1 + 3 * e <=? -1075) then Zero
  else if (0 <? e) && (1024 <=? Z.log2 m + 3 * e) then Infinity
  else let (p, q) := fraction m e in nearest p q.

Definition same (a b : double) : bool :=
  match a, b with
  | Zero, Zero | Infinity, Infinity => true
  | Finite m u, Finite m' u' =>
      m * 2 ^ (u - Z.min u u') =? m' * 2 ^ (u' - Z.min u u')
  | _, _ => false
  end.

(** The largest [n] with [10 ^ n <= p / q]: a few steps up from an estimate
    that is not above it. *)
Fixpoint climb (fuel : nat) (p q n : Z) : Z :=
  match fuel with
  | O => n
  | S fuel' => if ge_pow10 p q (n + 1) then climb fuel' p q (n + 1) else n
  end.

Definition floor_log10 (p q : Z) : Z :=
  climb 4 p q (floor_log2 p q * 30103 / 100000 - 1).

(** The decimals [s * 10 ^ (n - k)] with [k] digits next to [p / q], [s]
    being the integer just below or just above [p / q / 10 ^ (n - k)]: the
    one that denotes the double [d], the nearer one (the even one in a tie)
    when both do. A carry to [10 ^ k] is written with one digit more in
    front. *)
Definition candidate (d : double) (p q n k : Z) : option (Z * Z) :=
  let x := n - k in
  let (a, b) := if 0 <=? x then (p, q * 10 ^ x) else (p * 10 ^ (- x), q) in
  let lo := a / b in
  let hi := lo + 1 in
  let r := a mod b in
  let denotes s := if s =? 0 then false else same (of_decimal s x) d in
  let pick s := if s =? 10 ^ k then (10 ^ (k - 1), n + 1) else (s, n) in
  match denotes lo, denotes hi with
  | true, true =>
      if 2 * r <? b then Some (pick lo)
      else if b <? 2 * r then Some (pick hi)
      else if Z.even lo then Some (pick lo) else Some (pick hi)
  | true, false => Some (pick lo)
  | false, true => Some (pick hi)
  | false, false => None
  end.

(** The digits [s] and the exponent [n] of Number::toString: as few digits
    as denote the double at all; seventeen always do. *)
Fixpoint shortest (fuel : nat) (d : double) (p q n k : Z) : Z * Z :=
  match fuel with
  | O => (0, 0)
  | S fuel' =>
      match candidate d p q n k with
      | Some sn => sn
      | None => shortest fuel' d p q n (k + 1)
      end
  end.

End Double.

(** The decimal digits of a natural number. *)
Definition digits_of (s : Z) : jsstring :=
  lit (NilZero.string_of_uint (N.to_uint (Z.to_N s))).

Definition zeros (n : Z) : jsstring := repeat 48 (Z.to_nat n).

(** The last steps of Number::toString (ECMAScript, radix 10) on the digits
    [s] and the exponent [n]: the value is [0.s * 10 ^ n]. *)
Definition format (s n : Z) : jsstring :=
  let ds := digits_of s in
  let k := Z.of_nat (List.length ds) in
  if ((k <=? n) && (n <=? 21))%Z then (ds ++ zeros (n - k))%list
  else if ((0 <? n) && (n <=? 21))%Z then
    (firstn (Z.to_nat n) ds ++ 46 :: skipn (Z.to_nat n) ds)%list
  else if ((-6 <? n) && (n <=? 0))%Z then
    (lit "0." ++ zeros (- n) ++ ds)%list
  else
    let e := (n - 1)%Z in
    let ex := ((if (0 <=? e)%Z then lit "e+" else lit "e-")
               ++ digits_of (Z.abs e))%list in
    match ds with
    | [] => []
    | [d] => d :: ex
    | d :: r => (d :: 46 :: r ++ ex)%list
    end.

(** [String(x)] for the number that [x] denotes. *)
Definition Number_toString (x : JSNumber) : jsstring :=
  if (mant x =? 0)%Z then lit "0"
  else
    match Double.of_decimal (Z.abs (mant x)) (exp10 x) with
    | Double.Zero => lit "0"
    | Double.Infinity =>
        if (mant x <? 0)%Z then lit "-Infinity" else lit "Infinity"
    | Double.Finite m u =>
        let (p, q) := (if 0 <=? u then (m * 2 ^ u, 1)
                       else (m, 2 ^ (- u)))%Z in
        let n := (Double.floor_log10 p q + 1)%Z in
        let (s, n') := Double.shortest 17 (Double.Finite m u) p q n 1 in
        ((if (mant x <? 0)%Z then [45] else []) ++ format s n')%list
    end.

(** Whether the number is [+0] or [-0]. *)
Definition is_zero (x : JSNumber) : bool :=
  if (mant x =? 0)%Z then true
  else match Double.of_decimal (Z.abs (mant x)) (exp10 x) with
       | Double.Zero => true
       | _ => false
       end.

Inductive JSValue : Type :=
| JUndefined
| JNull
| JBool (b : bool)
| JNum (n : JSNumber)
| JStr (s : jsstring)
| JArr (items : list JSValue)
| JObj (fields : list (jsstring * JSValue)).

(** ToBoolean. *)
Definition truthy (v : JSValue) : bool :=
  match v with
  | JUndefined | JNull => false
  | JBool b => b
  | JNum n => negb (is_zero n)
  | JStr s => match s with [] => false | _ => true end
  | JArr _ | JObj _ => true
  end.

(** [a || b]. *)
Definition or_else (a b : JSValue) : JSValue := if truthy a then a else b.

(** [v === 'literal'] against a string. *)
Definition strict_eq_str (v : JSValue) (s : jsstring) : bool :=
  match v with JStr t => jsstring_eqb t s | _ => false end.

Fixpoint lookup (k : jsstring) (fs : list (jsstring * JSValue)) : JSValue :=
  match fs with
  | [] => JUndefined
  | (k', v) :: r => if jsstring_eqb k k' then v else lookup k r
  end.

(** Property read [v.k] for the keys the code reads ([type], [response],
    [content], [run], [message], [error], [code], [details]): reading from
    [null] or [undefined] raises a TypeError ([None]); a primitive or an
    array has none of these properties; an object yields the field, or
    [undefined] when absent. *)
Definition get (v : JSValue) (k : jsstring) : option JSValue :=
  match v with
  | JUndefined | JNull => None
  | JObj fs => Some (lookup k fs)
  | _ => Some JUndefined
  end.

(** Optional chaining [v?.k]. *)
Definition get_opt (v : JSValue) (k : jsstring) : JSValue :=
  match get v k with Some x => x | None => JUndefined end.

(** An own property of that name. *)
Definition has_key (k : jsstring) (fs : list (jsstring * JSValue)) : bool :=
  existsb (fun p => jsstring_eqb k (fst p)) fs.

(** ToString, on values built as [JSON.parse] builds them; [None] is the
    TypeError of a value that has no primitive. An array is joined with
    commas, [null] and [undefined] elements giving nothing. A plain object
    gives [[object Object]], unless it has an own property [toString]: that
    one, not being a function, is passed over, and [valueOf] then gives back
    the object or is no function either. *)
Fixpoint ToString (v : JSValue) : option jsstring :=
  match v with
  | JUndefined => Some (lit "undefined")
  | JNull => Some (lit "null")
  | JBool true => Some (lit "true")
  | JBool false => Some (lit "false")
  | JNum n => Some (Number_toString n)
  | JStr s => Some s
  | JArr items =>
      (fix join (l : list JSValue) : option jsstring :=
         match l with
         | [] => Some []
         | x :: r =>
             match match x with
                   | JUndefined | JNull => Some []
                   | _ => ToString x
                   end, join r with
             | Some a, Some b =>
                 Some (match r with [] => a | _ => a ++ 44 :: b end)
             | _, _ => None
             end
         end) items
  | JObj fs =>
      if has_key (lit "toString") fs then None
      else Some (lit "[object Object]")
  end.

(** ** Line operations of [String.prototype] *)

Definition NL : N := 10.

(** [s.split('\n')]: never empty; ["a\nb\n"] gives [["a"; "b"; ""]]. *)
Fixpoint split_nl (s : jsstring) : list jsstring :=
  match s with
  | [] => [[]]
  | c :: r =>
      if N.eqb c NL then [] :: split_nl r
      else match split_nl r with
           | [] => [[c]]
           | l :: ls => (c :: l) :: ls
           end
  end.

(** [line.startsWith(p)]. *)
Fixpoint startsWith (p s : jsstring) : bool :=
  match p, s with
  | [], _ => true
  | _ :: _, [] => false
  | a :: p', b :: s' => N.eqb a b && startsWith p' s'
  end.

(** [s.slice(n)] for a non-negative [n]. *)
Definition slice (n : nat) (s : jsstring) : jsstring := skipn n s.

(** WhiteSpace and LineTerminator code units, as [trim] strips them. *)
Definition is_js_space (c : N) : bool :=
  (c =? 9) || (c =? 10) || (c =? 11) || (c =? 12) || (c =? 13) || (c =? 32)
  || (c =? 160) || (c =? 5760) || ((8192 <=? c) && (c <=? 8202))
  || (c =? 8232) || (c =? 8233) || (c =? 8239) || (c =? 8287)
  || (c =? 12288) || (c =? 65279).

Fixpoint trimStart (s : jsstring) : jsstring :=
  match s with
  | c :: r => if is_js_space c then trimStart r else s
  | [] => []
  end.

Definition trim (s : jsstring) : jsstring :=
  rev (trimStart (rev (trimStart s))).

(** Truthiness of a string: non-empty. *)
Definition nonempty (s : jsstring) : bool :=
  match s with [] => false | _ => true end.

End JS.

(* ===================================================================== *)
(** ** [new TextDecoder()] used with [{ stream: true }] *)
(* ===================================================================== *)

Module TextDecoder.
Import JS.

(** The state of the UTF-8 decoder of the Encoding standard, and the
    BOM-seen flag of the [TextDecoder] object around it. *)
Record state : Type := {
  code_point : N;
  bytes_seen : N;
  bytes_needed : N;
  lower : N;
  upper : N;
  bom_seen : bool
}.

Definition init : state :=
  {| code_point := 0; bytes_seen := 0; bytes_needed := 0;
     lower := 128; upper := 191; bom_seen := false |}.

Definition reset (st : state) : state :=
  {| code_point := 0; bytes_seen := 0; bytes_needed := 0;
     lower := 128; upper := 191; bom_seen := bom_seen st |}.

Definition REPLACEMENT : N := 65533.

(** A byte met while no sequence is open. *)
Definition lead (st : state) (b : N) : state * list N :=
  if b <=? 127 then (st, [b])
  else if (194 <=? b) && (b <=? 223) then
    ({| code_point := N.land b 31; bytes_seen := 0; bytes_needed := 1;
        lower := 128; upper := 191; bom_seen := bom_seen st |}, [])
  else if (224 <=? b) && (b <=? 239) then
    ({| code_point := N.land b 15; bytes_seen := 0; bytes_needed := 2;
        lower := if b =? 224 then 160 else 128;
        upper := if b =? 237 then 159 else 191;
        bom_seen := bom_seen st |}, [])
  else if (240 <=? b) && (b <=? 244) then
    ({| code_point := N.land b 7; bytes_seen := 0; bytes_needed := 3;
        lower := if b =? 240 then 144 else 128;
        upper := if b =? 244 then 143 else 191;
        bom_seen := bom_seen st |}, [])
  else (st, [REPLACEMENT]).

(** The decoder's handler on one byte, in replacement error mode: the code
    points it emits. A byte that breaks an open sequence is put back and read
    again with no sequence open. *)
Definition handler (st : state) (b : N) : state * list N :=
  if bytes_needed st =? 0 then lead st b
  else if negb ((lower st <=? b) && (b <=? upper st)) then
    let (st', out) := lead (reset st) b in (st', REPLACEMENT :: out)
  else
    let cp := N.lor (N.shiftl (code_point st) 6) (N.land b 63) in
    let seen := bytes_seen st + 1 in
    if seen =? bytes_needed st then (reset st, [cp])
    else ({| code_point := cp; bytes_seen := seen;
             bytes_needed := bytes_needed st;
             lower := 128; upper := 191; bom_seen := bom_seen st |}, []).

(** A code point as UTF-16 code units. *)
Definition utf16 (cp : N) : jsstring :=
  if cp <=? 65535 then [cp]
  else let c := cp - 65536 in
       [55296 + N.shiftr c 10; 56320 + N.land c 1023].

(** Serialising the emitted code points: the first one of the whole stream is
    dropped when it is the byte order mark ([ignoreBOM] is false). *)
Fixpoint serialize (seen : bool) (cps : list N) : bool * jsstring :=
  match cps with
  | [] => (seen, [])
  | cp :: r =>
      let (seen', out) := serialize true r in
      (seen', if negb seen && (cp =? 65279) then out else utf16 cp ++ out)
  end.

Definition step (st : state) (b : byte) : state * jsstring :=
  let (st', cps) := handler st (Byte.to_N b) in
  let (seen, out) := serialize (bom_seen st') cps in
  ({| code_point := code_point st'; bytes_seen := bytes_seen st';
      bytes_needed := bytes_needed st'; lower := lower st';
      upper := upper st'; bom_seen := seen |}, out).

(** [decoder.decode(value, { stream: true })]: the bytes of the chunk go
    through the decoder one at a time, an unfinished sequence stays in the
    state for the next call, and nothing is flushed. *)
Fixpoint decode (st : state) (chunk : list byte) : state * jsstring :=
  match chunk with
  | [] => (st, [])
  | b :: r =>
      let (st1, o1) := step st b in
      let (st2, o2) := decode st1 r in
      (st2, o1 ++ o2)
  end.

End TextDecoder.

(* ===================================================================== *)
(** ** Exceptions and the ways an [await] can end *)
(* ===================================================================== *)

Module Effects.
Import JS.

(** What a [throw] carries. *)
Inductive JSError : Type :=
| ApiClientError (message : JSValue) (status : Z) (code : JSValue)
                 (details : JSValue)
    (** [message] is the property of that name, a string: the constructor
        has converted its argument *)
| JsError (name : jsstring) (message : JSValue)
    (** any other instance of [Error], with its [name] and its [message] *)
| Thrown (v : JSValue).
    (** a thrown value that is not an [Error] *)

(** An awaited operation returns, throws, or never settles. *)
Inductive Outcome (A : Type) : Type :=
| Returns (a : A)
| Throws (e : JSError)
| Pending.
Arguments Throws {A} e.
Arguments Pending {A}.

(** A synchronous call returns or throws. *)
Inductive Completion : Type :=
| Normal
| Abrupt (e : JSError).

(** [String(n)] for a whole number [n], as in [`${n}`]. *)
Definition number_to_string (n : Z) : jsstring :=
  Number_toString {| mant := n; exp10 := 0 |}.

(** What ToString throws on a value without a primitive. *)
Definition cannot_convert : JSError :=
  JsError (lit "TypeError")
    (JStr (lit "Cannot convert object to primitive value")).

(** The [message] that the constructor of [Error] leaves on the error it
    builds from the argument [v]: with [undefined] no property is set and
    the empty string of the prototype shows through; any other argument is
    converted to a string, which can throw ([None]). *)
Definition message_from (v : JSValue) : option jsstring :=
  match v with
  | JUndefined => Some []
  | _ => ToString v
  end.

(** [new Error(v)], or what is thrown in its place. *)
Definition new_Error (v : JSValue) : JSError :=
  match message_from v with
  | Some s => JsError (lit "Error") (JStr s)
  | None => cannot_convert
  end.

(** [new ApiClientError(message, status, code, details)], whose constructor
    starts with [super(message)]: the error built, or ([inr]) what the
    constructor throws. *)
Definition new_ApiClientError (message : JSValue) (status : Z)
    (code details : JSValue) : JSError + JSError :=
  match message_from message with
  | Some s => inl (ApiClientError (JStr s) status code details)
  | None => inr cannot_convert
  end.

(** The uniform error surface: an [ApiClientError], whose [status] is a
    number and whose [code] can be read. *)
Definition uniform (e : JSError) : bool :=
  match e with ApiClientError _ _ _ _ => true | _ => false end.

Definition status_of (e : JSError) : option Z :=
  match e with ApiClientError _ s _ _ => Some s | _ => None end.

Definition code_of (e : JSError) : option JSValue :=
  match e with ApiClientError _ _ c _ => Some c | _ => None end.

Definition message_of (e : JSError) : option JSValue :=
  match e with
  | ApiClientError m _ _ _ | JsError _ m => Some m
  | Thrown _ => None
  end.

End Effects.

(* ===================================================================== *)
(** ** [ApiClient.request] *)
(* ===================================================================== *)

Module ApiClient.
Import JS Effects.
Local Open Scope Z_scope.

(** The body of a streamed response as its reader sees it: the chunks that
    [read()] hands out, and what [read()] does after the last of them. *)
Inductive BodyEnd : Type :=
| Closed                 (** [{ done: true }] *)
| Errored (e : JSError)  (** [read()] rejects *)
| Stalled.               (** [read()] never settles *)

Record Body : Type := { chunks : list (list byte); ending : BodyEnd }.

(** [status] is a whole number; [json] is what [await response.json()]
    comes to: the value parsed, the error it rejects with, or [None] when it
    never settles. *)
Record Response : Type := {
  status : Z;
  statusText : jsstring;
  json : option (JSValue + JSError);
  body : option Body          (** [response.body] *)
}.

(** [response.ok]. *)
Definition ok (r : Response) : bool := (200 <=? status r) && (status r <=? 299).

(** [new URL(path, this.baseUrl)]: the URL of the request is built, or the
    constructor throws the TypeError of a base or a path that does not
    parse. Where a request to that URL goes is part of how the network
    behaves. *)
Inductive URL : Type :=
| Built
| Invalid.

Definition invalid_url : JSError :=
  JsError (lit "TypeError") (JStr (lit "Invalid URL")).

(** What the call [fetch(url, init)] does when left alone, on a clock of
    milliseconds that starts when the request is issued. *)
Inductive Fetch : Type :=
| Resolves (at_ms : Z) (r : Response)
| Rejects (at_ms : Z) (e : JSError)
| Never.

(** [controller.abort()] makes a [fetch] still in flight reject with this. *)
Definition abort_error : JSError :=
  JsError (lit "AbortError") (JStr (lit "This operation was aborted")).

(** A property read on [null] or [undefined]. *)
Definition type_error : JSError :=
  JsError (lit "TypeError") (JStr (lit "Cannot read properties")).

(** The delay that [setTimeout(f, d)] works with, for a whole number [d] of
    milliseconds (Node.js): one below 1 or above [2 ^ 31 - 1] is taken as
    1. *)
Definition TIMEOUT_MAX : Z := 2147483647.

Definition timer_delay (d : Z) : Z :=
  if (d <? 1) || (TIMEOUT_MAX <? d) then 1 else d.

(** The [await fetch(...)] of [request] under the timer armed just before
    it with [setTimeout(..., delay)]: the fetch settles on its own when it
    does so before the timer fires, and is aborted by the timer otherwise. *)
Definition await_fetch (delay : Z) (f : Fetch) : Response + JSError :=
  match f with
  | Resolves t r => if t <? timer_delay delay then inl r else inr abort_error
  | Rejects t e => if t <? timer_delay delay then inr e else inr abort_error
  | Never => inr abort_error
  end.

(** [parseError]: the error it returns, what it throws, or [Pending] when
    the body is never read to its end (the timer is cleared by then). *)
Definition parseError (r : Response) : Outcome JSError :=
  match json r with
  | None => Pending
  | Some j =>
      let errorData :=
        match j with
        | inl v => v
        | inr _ => JObj [(lit "error", JStr (statusText r));
                         (lit "message",
                          JStr (lit "HTTP " ++ number_to_string (status r)))]
        end in
      match get errorData (lit "message"), get errorData (lit "error"),
            get errorData (lit "code"), get errorData (lit "details") with
      | Some m, Some e, Some c, Some d =>
          match new_ApiClientError (or_else m e) (status r) c d with
          | inl err => Returns err
          | inr thrown => Throws thrown
          end
      | _, _, _, _ => Throws type_error
      end
  end.

Inductive Reply : Type :=
| StreamReply (r : Response)   (** [stream: true]: the response itself *)
| DataReply (v : JSValue).     (** the parsed JSON, [undefined] for 204 *)

(** [const error = await this.parseError(response); throw error;] *)
Definition throw_parseError (r : Response) : Outcome Reply :=
  match parseError r with
  | Returns e | Throws e => Throws e
  | Pending => Pending
  end.

(** The [try] block of [request] after [fetch] resolved and the timer was
    cleared. *)
Definition on_response (stream : bool) (r : Response) : Outcome Reply :=
  if stream then
    if negb (ok r) then throw_parseError r
    else Returns (StreamReply r)
  else if negb (ok r) then throw_parseError r
  else if status r =? 204 then Returns (DataReply JUndefined)
  else match json r with
       | Some (inl v) => Returns (DataReply v)
       | Some (inr e) => Throws e
       | None => Pending
       end.

(** What [throw new ApiClientError(...)] throws. *)
Definition throw_ApiClientError (message : JSValue) (status : Z)
    (code : JSValue) : JSError :=
  match new_ApiClientError message status code JUndefined with
  | inl e | inr e => e
  end.

(** The [catch] block of [request]: what it throws. *)
Definition on_catch (delay : Z) (e : JSError) : JSError :=
  match e with
  | ApiClientError _ _ _ _ => e
  | JsError name m =>
      if jsstring_eqb name (lit "AbortError") then
        throw_ApiClientError
          (JStr (lit "Request timeout after " ++ number_to_string delay
                 ++ lit "ms"))
          408 (JStr (lit "TIMEOUT"))
      else throw_ApiClientError m 500 (JStr (lit "NETWORK_ERROR"))
  | Thrown _ =>
      throw_ApiClientError (JStr (lit "Unknown error")) 500
        (JStr (lit "NETWORK_ERROR"))
  end.

(** [this.timeout = config.timeout ?? 60000]. *)
Definition config_timeout (cfg : option Z) : Z :=
  match cfg with Some t => t | None => 60000 end.

(** [request(method, path, { timeout, stream })], given what
    [new URL(path, this.baseUrl)] comes to and how the network behaves.
    [this_timeout] is the client's configured timeout. The URL is built
    before the [try] block is entered. *)
Definition request (url : URL) (this_timeout : Z) (timeout : option Z)
    (stream : bool) (f : Fetch) : Outcome Reply :=
  match url with
  | Invalid => Throws invalid_url
  | Built =>
      let delay := match timeout with Some t => t | None => this_timeout end in
      match await_fetch delay f with
      | inl r =>
          match on_response stream r with
          | Returns reply => Returns reply
          | Throws e => Throws (on_catch delay e)
          | Pending => Pending
          end
      | inr e => Throws (on_catch delay e)
      end
  end.

End ApiClient.

(* ===================================================================== *)
(** ** [ThreadsResource.sendMessage] *)
(* ===================================================================== *)

Module ThreadsResource.
Import JS Effects ApiClient.

Record SendMessageResult : Type := {
  content : JSValue;
  run : JSValue;
  events : list JSValue
}.

(** The path of the streaming POST: [`/threads/${threadId}/messages`]. *)
Definition messages_path (threadId : jsstring) : jsstring :=
  lit "/threads/" ++ threadId ++ lit "/messages".

(** *** Objects that the observer shares with the loop

    [onEvent(data)] is handed the very object that was pushed on [events]
    and that the classification reads afterwards, and it can have kept the
    objects of earlier calls; the captured content and run are parts of such
    objects when they are objects themselves. A value is therefore taken as
    what the object holds at the moment, and a call of the observer comes
    with what it did to the objects within its reach: to the logged event at
    each index, to the captured content, to the captured run. *)
Record Touch : Type := {
  on_logged : nat -> JSValue -> JSValue;
  on_content : JSValue -> JSValue;
  on_run : JSValue -> JSValue
}.

(** The call that changes nothing. *)
Definition untouched : Touch :=
  {| on_logged := fun _ v => v; on_content := fun v => v;
     on_run := fun v => v |}.

Definition is_primitive (v : JSValue) : bool :=
  match v with JArr _ | JObj _ => false | _ => true end.

(** A primitive cannot be changed, and an object stays an object. *)
Definition mutate (g : JSValue -> JSValue) (v : JSValue) : JSValue :=
  if is_primitive v then v
  else if is_primitive (g v) then v
  else g v.

(** The log, each object changed as its index says, counting from [i]. *)
Fixpoint mutate_from (i : nat) (g : nat -> JSValue -> JSValue)
    (l : list JSValue) : list JSValue :=
  match l with
  | [] => []
  | v :: r => mutate (g i) v :: mutate_from (S i) g r
  end.

Section SendMessage.

(** [JSON.parse] on a string: the value, or [None] for a SyntaxError. *)
Variable JSON_parse : jsstring -> option JSValue.

(** The observer is a closure over state of its own, of type [O]; a call is
    given the event as decoded, may change that state and the objects within
    its reach, and returns or throws. The loop waits for nothing that the
    observer starts: what it puts off until after the call (a timer, the
    rest of an [async] function) is no part of the call. *)
Variable O : Type.
Definition StreamEventCallback : Type := O -> JSValue -> O * Touch * Completion.

(** The locals of [sendMessage] that the loop updates, with the two effects
    visible from outside: the lines handed to [console.warn], and the
    arguments of the calls made to [onEvent] as they were when handed over,
    oldest first. *)
Record locals : Type := {
  l_events : list JSValue;
  finalContent : JSValue;
  runDetails : JSValue;
  warnings : list jsstring;
  observer : O;
  delivered : list JSValue
}.

Definition start (o : O) : locals :=
  {| l_events := []; finalContent := JStr []; runDetails := JUndefined;
     warnings := []; observer := o; delivered := [] |}.

Definition push_event (data : JSValue) (st : locals) : locals :=
  {| l_events := l_events st ++ [data]; finalContent := finalContent st;
     runDetails := runDetails st; warnings := warnings st;
     observer := observer st; delivered := delivered st |}.

(** A call of the observer that went from state [observer st] to [o'] and
    did [t] to the objects. *)
Definition observed (o' : O) (t : Touch) (data : JSValue) (st : locals)
    : locals :=
  {| l_events := mutate_from 0 (on_logged t) (l_events st);
     finalContent := mutate (on_content t) (finalContent st);
     runDetails := mutate (on_run t) (runDetails st);
     warnings := warnings st;
     observer := o'; delivered := delivered st ++ [data] |}.

(** [if (onEvent) { onEvent(data); }] *)
Definition call_onEvent (onEvent : option StreamEventCallback)
    (data : JSValue) (st : locals) : locals * Completion :=
  match onEvent with
  | None => (st, Normal)
  | Some f =>
      let '(o', t, c) := f (observer st) data in
      (observed o' t data st, c)
  end.

Definition set_finalContent (v : JSValue) (st : locals) : locals :=
  {| l_events := l_events st; finalContent := v;
     runDetails := runDetails st; warnings := warnings st;
     observer := observer st; delivered := delivered st |}.

Definition set_runDetails (v : JSValue) (st : locals) : locals :=
  {| l_events := l_events st; finalContent := finalContent st;
     runDetails := v; warnings := warnings st;
     observer := observer st; delivered := delivered st |}.

Definition warn (line : jsstring) (st : locals) : locals :=
  {| l_events := l_events st; finalContent := finalContent st;
     runDetails := runDetails st; warnings := warnings st ++ [line];
     observer := observer st; delivered := delivered st |}.

(** The [if / else if] chain on [data.type]. *)
Definition classify (data : JSValue) (st : locals) : locals * Completion :=
  match get data (lit "type") with
  | None => (st, Abrupt type_error)
  | Some ty =>
      if strict_eq_str ty (lit "response.completed") then
        (set_finalContent
           (or_else (get_opt (get_opt data (lit "response")) (lit "content"))
                    (JStr []))
           st, Normal)
      else if strict_eq_str ty (lit "stream.completed") then
        (set_runDetails (get_opt data (lit "run")) st, Normal)
      else if strict_eq_str ty (lit "stream.error") then
        (st, Abrupt (new_Error (or_else (get_opt data (lit "message"))
                                        (get_opt data (lit "error")))))
      else (st, Normal)
  end.

(** [data] as it is after the call of the observer: the last object of the
    log. *)
Definition current (data : JSValue) (st : locals) : JSValue :=
  last (l_events st) data.

(** The [try] block run on a line that starts with ["data: "]. The
    SyntaxError of [JSON.parse] is caught unread; it carries the payload
    here in place of the engine's message. *)
Definition try_block (onEvent : option StreamEventCallback)
    (line : jsstring) (st : locals) : locals * Completion :=
  match JSON_parse (slice 6 line) with
  | None => (st, Abrupt (JsError (lit "SyntaxError") (JStr (slice 6 line))))
  | Some data =>
      let st1 := push_event data st in
      match call_onEvent onEvent data st1 with
      | (st2, Abrupt e) => (st2, Abrupt e)
      | (st2, Normal) => classify (current data st2) st2
      end
  end.

(** The [catch (parseError)] block. *)
Definition catch_block (line : jsstring) (st : locals) : locals :=
  if nonempty (trim (slice 6 line)) then warn line st else st.

(** The body of [for (const line of lines)]. *)
Definition process_line (onEvent : option StreamEventCallback)
    (st : locals) (line : jsstring) : locals :=
  if startsWith (lit "data: ") line then
    match try_block onEvent line st with
    | (st', Normal) => st'
    | (st', Abrupt _) => catch_block line st'
    end
  else st.

Definition process_lines (onEvent : option StreamEventCallback)
    (st : locals) (lines : list jsstring) : locals :=
  fold_left (process_line onEvent) lines st.

(** The state of the [while (true)] loop between two reads. *)
Record loop : Type := {
  decoder : TextDecoder.state;
  buffer : jsstring;
  vars : locals
}.

Definition enter (o : O) : loop :=
  {| decoder := TextDecoder.init; buffer := []; vars := start o |}.

(** One iteration on a chunk [value] that [read()] delivered. [lines.pop()]
    takes the last element off; [|| ''] leaves a string as it is. *)
Definition on_chunk (onEvent : option StreamEventCallback)
    (lp : loop) (value : list byte) : loop :=
  let (d, text) := TextDecoder.decode (decoder lp) value in
  let lines := split_nl (buffer lp ++ text) in
  {| decoder := d;
     buffer := last lines [];
     vars := process_lines onEvent (vars lp) (removelast lines) |}.

Definition read_all (onEvent : option StreamEventCallback)
    (lp : loop) (cs : list (list byte)) : loop :=
  fold_left (on_chunk onEvent) cs lp.

(** What a call leaves behind: how it ended, whether [reader.releaseLock()]
    ran, and the locals as they were when it ended (the observer's state, the
    calls made to it, the warnings). *)
Record Run : Type := {
  outcome : Outcome SendMessageResult;
  released : bool;
  at_end : locals
}.

(** [sendMessage] from the point where [request] returned [response]. *)
Definition consume (onEvent : option StreamEventCallback) (o : O)
    (response : Response) : Run :=
  match body response with
  | None =>
      {| outcome := Throws (JsError (lit "Error")
                              (JStr (lit "No response body")));
         released := false; at_end := start o |}
  | Some b =>
      let st := vars (read_all onEvent (enter o) (chunks b)) in
      match ending b with
      | Closed =>
          {| outcome := Returns {| content := finalContent st;
                                   run := runDetails st;
                                   events := l_events st |};
             released := true; at_end := st |}
      | Errored e => {| outcome := Throws e; released := true; at_end := st |}
      | Stalled => {| outcome := Pending; released := false; at_end := st |}
      end
  end.

(** [const { onEvent, timeout = 600000, ...params } = options]. *)
Definition timeout_or_default (timeout : option Z) : Z :=
  match timeout with Some t => t | None => 600000%Z end.

(** [sendMessage(threadId, { onEvent, timeout, ...params })], given what
    [new URL] makes of the path and how the network behaves on the request.
    With [stream: true] the request returns the response itself, so the
    [DataReply] branch is never taken (it stands for calling
    [body.getReader] on parsed JSON). *)
Definition sendMessage (url : URL) (this_timeout : Z)
    (onEvent : option StreamEventCallback) (timeout : option Z)
    (o : O) (net : Fetch) : Run :=
  match request url this_timeout (Some (timeout_or_default timeout)) true
          net with
  | Returns (StreamReply response) => consume onEvent o response
  | Returns (DataReply _) =>
      {| outcome := Throws type_error; released := false; at_end := start o |}
  | Throws e => {| outcome := Throws e; released := false; at_end := start o |}
  | Pending => {| outcome := Pending; released := false; at_end := start o |}
  end.

End SendMessage.
End ThreadsResource.

(* ===================================================================== *)
(** ** [ComputerAgentsClient.run] *)
(* ===================================================================== *)

Module ComputerAgentsClient.
Import JS Effects ApiClient.

(** The fields of the resource layer's records that [run] reads or writes. *)
Record Environment : Type := {
  env_id : jsstring;
  env_name : jsstring;
  env_internetAccess : option bool;
  env_isDefault : option bool
}.

Record Thread : Type := { thread_id : jsstring; thread_environmentId : jsstring }.

Record CreateEnvironmentParams : Type := {
  name : jsstring;
  internetAccess : bool;
  isDefault : bool
}.

Record CreateThreadParams : Type := { environmentId : jsstring }.

(** The calls that [run] makes to the resource layer, as a journal keeps
    them. *)
Inductive Call : Type :=
| ListEnvironments
| CreateEnvironment (p : CreateEnvironmentParams)
| CreateThread (p : CreateThreadParams)
| PostMessage (threadId : jsstring) (content : jsstring) (agentConfig : JSValue).

Definition is_list (c : Call) : bool :=
  match c with ListEnvironments => true | _ => false end.

Definition is_create_thread (c : Call) : bool :=
  match c with CreateThread _ => true | _ => false end.

Definition is_environment_call (c : Call) : bool :=
  match c with ListEnvironments | CreateEnvironment _ => true | _ => false end.

(** An optional string argument is taken when it is truthy. *)
Definition given (x : option jsstring) : option jsstring :=
  match x with
  | Some s => if nonempty s then Some s else None
  | None => None
  end.

Section Client.

Variable JSON_parse : jsstring -> option JSValue.
Variable O : Type.

(** The remote service behind the resource layer: [environments.list()],
    [environments.create(params)], [threads.create(params)], and the network
    behaviour it shows to the streaming POST of [threads.sendMessage]. *)
Variable S : Type.
Variable environments_list : S -> S * Outcome (list Environment).
Variable environments_create :
  CreateEnvironmentParams -> S -> S * Outcome Environment.
Variable threads_create : CreateThreadParams -> S -> S * Outcome Thread.
Variable messages_post : jsstring -> jsstring -> JSValue -> S -> S * Fetch.

(** [new URL(path, this.baseUrl)] for the base URL of this client. *)
Variable new_URL : jsstring -> URL.

Record RunOptions : Type := {
  opt_environmentId : option jsstring;
  opt_threadId : option jsstring;
  opt_agentConfig : JSValue;
  opt_onEvent : option (ThreadsResource.StreamEventCallback O);
  opt_timeout : option Z
}.

Record RunResult : Type := {
  res_content : JSValue;
  res_threadId : jsstring;
  res_run : JSValue
}.

(** What a call of the client can touch: the service, the client's
    [_defaultEnvironmentId] ([None] is [null]), the state the observer closes
    over, and, as records of what happened, the journal of service calls,
    the events handed to the observer and the lines given to [console.warn]. *)
Record World : Type := {
  service : S;
  _defaultEnvironmentId : option jsstring;
  watcher : O;
  journal : list Call;
  seen : list JSValue;
  console : list jsstring
}.

(** A client just constructed. *)
Definition fresh (s : S) (o : O) : World :=
  {| service := s; _defaultEnvironmentId := None; watcher := o;
     journal := []; seen := []; console := [] |}.

(** Asynchronous code over the world. *)
Definition M (A : Type) : Type := World -> World * Outcome A.

Definition ret {A} (a : A) : M A := fun w => (w, Returns a).

Definition bind {A B} (m : M A) (k : A -> M B) : M B :=
  fun w =>
    match m w with
    | (w', Returns a) => k a w'
    | (w', Throws e) => (w', Throws e)
    | (w', Pending) => (w', Pending)
    end.

Notation "x <- m ;; k" := (bind m (fun x => k))
  (at level 61, m at next level, right associativity).

Definition call {A} (c : Call) (op : S -> S * Outcome A) : M A :=
  fun w =>
    let (s', r) := op (service w) in
    ({| service := s'; _defaultEnvironmentId := _defaultEnvironmentId w;
        watcher := watcher w; journal := journal w ++ [c];
        seen := seen w; console := console w |}, r).

Definition set_default (id : jsstring) : M unit :=
  fun w =>
    ({| service := service w; _defaultEnvironmentId := Some id;
        watcher := watcher w; journal := journal w;
        seen := seen w; console := console w |}, Returns tt).

(** [environments.find(e => e.isDefault)]. *)
Definition find_default (l : list Environment) : option Environment :=
  find (fun e => match env_isDefault e with Some b => b | None => false end) l.

Definition default_params : CreateEnvironmentParams :=
  {| name := lit "default"; internetAccess := true; isDefault := true |}.

(** The part of [_ensureDefaultEnvironment] after the cache test. *)
Definition resolve_default : M jsstring :=
  environments <- call ListEnvironments environments_list ;;
  environment <-
    match find_default environments with
    | Some e => ret e
    | None => call (CreateEnvironment default_params)
                   (environments_create default_params)
    end ;;
  _ <- set_default (env_id environment) ;;
  ret (env_id environment).

Definition _ensureDefaultEnvironment : M jsstring :=
  fun w =>
    match given (_defaultEnvironmentId w) with
    | Some id => ret id w
    | None => resolve_default w
    end.

(** [threads.sendMessage] as the client reaches it. The request goes out
    only when its URL could be built. *)
Definition threads_sendMessage (this_timeout : Z) (threadId : jsstring)
    (content : jsstring) (agentConfig : JSValue)
    (onEvent : option (ThreadsResource.StreamEventCallback O))
    (timeout : option Z) : M (ThreadsResource.SendMessageResult) :=
  fun w =>
    let url := new_URL (ThreadsResource.messages_path threadId) in
    let (s', net) :=
      match url with
      | Built => messages_post threadId content agentConfig (service w)
      | Invalid => (service w, Never)
      end in
    let r := ThreadsResource.sendMessage JSON_parse url this_timeout onEvent
               timeout (watcher w) net in
    ({| service := s'; _defaultEnvironmentId := _defaultEnvironmentId w;
        watcher := ThreadsResource.observer (ThreadsResource.at_end r);
        journal := journal w ++ [PostMessage threadId content agentConfig];
        seen := seen w ++ ThreadsResource.delivered (ThreadsResource.at_end r);
        console := console w
                   ++ ThreadsResource.warnings (ThreadsResource.at_end r) |},
     ThreadsResource.outcome r).

(** [options.environmentId || await this._ensureDefaultEnvironment()]. *)
Definition resolve_environmentId (options : RunOptions) : M jsstring :=
  match given (opt_environmentId options) with
  | Some e => ret e
  | None => _ensureDefaultEnvironment
  end.

(** [let threadId = options.threadId; if (!threadId) { ... }]. *)
Definition resolve_threadId (environmentId : jsstring) (options : RunOptions)
    : M jsstring :=
  match given (opt_threadId options) with
  | Some t => ret t
  | None =>
      thread <- call (CreateThread {| environmentId := environmentId |})
                     (threads_create {| environmentId := environmentId |}) ;;
      ret (thread_id thread)
  end.

(** [run(task, options)]. *)
Definition run (this_timeout : Z) (task : jsstring) (options : RunOptions)
    : M RunResult :=
  environmentId <- resolve_environmentId options ;;
  threadId <- resolve_threadId environmentId options ;;
  result <- threads_sendMessage this_timeout threadId task
              (opt_agentConfig options) (opt_onEvent options)
              (opt_timeout options) ;;
  ret {| res_content := ThreadsResource.content result;
         res_threadId := threadId;
         res_run := ThreadsResource.run result |}.

End Client.
End ComputerAgentsClient.

(* ===================================================================== *)
(** ** Streams as sequences of frames *)
(* ===================================================================== *)

(** The vocabulary in which the properties of a stream are stated: the text
    a byte stream decodes to, its complete lines, the frames on them. *)
Module Stream.
Import JS Effects.

(** The text of a whole byte stream. *)
Definition decoded_text (bytes : list byte) : jsstring :=
  snd (TextDecoder.decode TextDecoder.init bytes).

(** The lines that a line feed has closed; what follows the last line feed
    is not one of them. *)
Definition complete_lines (t : jsstring) : list jsstring :=
  removelast (split_nl t).

Definition payload (line : jsstring) : jsstring := slice 6 line.

Definition is_data_line (line : jsstring) : bool :=
  startsWith (lit "data: ") line.

Definition type_is (s : string) (ev : JSValue) : bool :=
  strict_eq_str (get_opt ev (lit "type")) (lit s).

(** [event.response.content] of a [response.completed] event. *)
Definition content_of (ev : JSValue) : JSValue :=
  get_opt (get_opt ev (lit "response")) (lit "content").

(** [event.run] of a [stream.completed] event. *)
Definition run_of (ev : JSValue) : JSValue := get_opt ev (lit "run").

(** The content of the last [response.completed] event, the empty string
    when there is none. *)
Definition last_content (evs : list JSValue) : JSValue :=
  match find (type_is "response.completed") (rev evs) with
  | Some ev => content_of ev
  | None => JStr []
  end.


Definition is_string (v : JSValue) : bool :=
  match v with JStr _ => true | _ => false end.

Definition is_object (v : JSValue) : bool :=
  match v with JObj _ => true | _ => false end.

(** An event shaped as the interfaces of [MessageStreamEvent] declare it: an
    object with a string [type]; [response.content] is a string on
    [response.completed], [run] an object on [stream.completed], [error] a
    string on [stream.error]. *)
Definition well_formed (ev : JSValue) : bool :=
  is_object ev && is_string (get_opt ev (lit "type"))
  && (if type_is "response.completed" ev
      then is_object (get_opt ev (lit "response")) && is_string (content_of ev)
      else true)
  && (if type_is "stream.completed" ev then is_object (run_of ev) else true)
  && (if type_is "stream.error" ev
      then is_string (get_opt ev (lit "error")) else true).

(** A discriminator that the classification knows nothing about. *)
Definition unrecognized (ev : JSValue) : bool :=
  negb (type_is "response.completed" ev)
  && negb (type_is "stream.completed" ev)
  && negb (type_is "stream.error" ev).

(** The events of a line: one or none. *)
Definition one (x : option JSValue) : list JSValue :=
  match x with Some ev => [ev] | None => [] end.

Section Frames.
Variable JSON_parse : jsstring -> option JSValue.

(** The event on a line, when the line is a [data: ] line whose payload
    parses. *)
Definition frame (line : jsstring) : option JSValue :=
  if is_data_line line then JSON_parse (payload line) else None.

Fixpoint frames (lines : list jsstring) : list JSValue :=
  match lines with
  | [] => []
  | l :: ls => match frame l with
               | Some ev => ev :: frames ls
               | None => frames ls
               end
  end.

(** The events of a stream of chunks, in wire order. *)
Definition stream_events (cs : list (list byte)) : list JSValue :=
  frames (complete_lines (decoded_text (List.concat cs))).

End Frames.

Section Observers.
Variable O : Type.

(** An observer that is absent, or never throws. *)
Definition never_throws
    (onEvent : option (ThreadsResource.StreamEventCallback O)) : Prop :=
  match onEvent with
  | None => True
  | Some f => forall o ev, snd (f o ev) = Normal
  end.




(** A call that left every object as it was. *)
Definition leaves_alone (t : ThreadsResource.Touch) : Prop :=
  (forall i v, ThreadsResource.mutate (ThreadsResource.on_logged t i) v = v)
  /\ (forall v, ThreadsResource.mutate (ThreadsResource.on_content t) v = v)
  /\ (forall v, ThreadsResource.mutate (ThreadsResource.on_run t) v = v).

(** An observer that is absent, or only reads the events it is handed. *)
Definition reads_only
    (onEvent : option (ThreadsResource.StreamEventCallback O)) : Prop :=
  match onEvent with
  | None => True
  | Some f => forall o ev, leaves_alone (snd (fst (f o ev)))
  end.

End Observers.
End Stream.

(* ===================================================================== *)
(** ** A reference [JSON.parse] *)
(* ===================================================================== *)

(** The statements below hold for whatever function stands for [JSON.parse];
    the concrete runs use this parser of the JSON grammar (ECMA-404). *)
Module JSON.
Import JS.

Definition is_ws (c : N) : bool :=
  (c =? 32) || (c =? 9) || (c =? 10) || (c =? 13).

Fixpoint skip_ws (s : jsstring) : jsstring :=
  match s with
  | c :: r => if is_ws c then skip_ws r else s
  | [] => []
  end.

Definition is_digit (c : N) : bool := (48 <=? c) && (c <=? 57).

(** The longest run of digits at the front, and what follows it. *)
Fixpoint digits (s : jsstring) : list N * jsstring :=
  match s with
  | c :: r => if is_digit c then let (ds, r') := digits r in (c :: ds, r')
              else ([], s)
  | [] => ([], [])
  end.

Definition digits_value (ds : list N) : Z :=
  fold_left (fun a d => (10 * a + Z.of_N (d - 48))%Z) ds 0%Z.

Definition hex_value (c : N) : option N :=
  if is_digit c then Some (c - 48)
  else if (97 <=? c) && (c <=? 102) then Some (c - 87)
  else if (65 <=? c) && (c <=? 70) then Some (c - 55)
  else None.

Definition hex4 (a b c d : N) : option N :=
  match hex_value a, hex_value b, hex_value c, hex_value d with
  | Some x, Some y, Some z, Some w => Some (((x * 16 + y) * 16 + z) * 16 + w)
  | _, _, _, _ => None
  end.

Definition escape (c : N) : option N :=
  if c =? 34 then Some 34 else if c =? 92 then Some 92
  else if c =? 47 then Some 47 else if c =? 98 then Some 8
  else if c =? 102 then Some 12 else if c =? 110 then Some 10
  else if c =? 114 then Some 13 else if c =? 116 then Some 9
  else None.

(** The characters of a string after its opening quote, up to and including
    the closing one. *)
Fixpoint string_body (s : jsstring) : option (jsstring * jsstring) :=
  match s with
  | [] => None
  | c :: r =>
      if c =? 34 then Some ([], r)
      else if c =? 92 then
        match r with
        | e :: r1 =>
            if e =? 117 then
              match r1 with
              | h1 :: h2 :: h3 :: h4 :: r2 =>
                  match hex4 h1 h2 h3 h4, string_body r2 with
                  | Some u, Some (t, rest) => Some (u :: t, rest)
                  | _, _ => None
                  end
              | _ => None
              end
            else
              match escape e, string_body r1 with
              | Some u, Some (t, rest) => Some (u :: t, rest)
              | _, _ => None
              end
        | [] => None
        end
      else if c <? 32 then None
      else match string_body r with
           | Some (t, rest) => Some (c :: t, rest)
           | None => None
           end
  end.

(** [0] or a non-zero digit followed by digits. *)
Definition int_part (s : jsstring) : option (list N * jsstring) :=
  match s with
  | c :: r =>
      if c =? 48 then Some ([c], r)
      else if is_digit c then let (ds, r') := digits r in Some (c :: ds, r')
      else None
  | [] => None
  end.

Definition frac_part (s : jsstring) : option (list N * jsstring) :=
  match s with
  | c :: r =>
      if c =? 46 then
        match digits r with
        | ([], _) => None
        | (ds, r') => Some (ds, r')
        end
      else Some ([], s)
  | [] => Some ([], [])
  end.

Definition exp_digits (neg : bool) (s : jsstring) : option (Z * jsstring) :=
  match digits s with
  | ([], _) => None
  | (ds, r) => Some (if neg then (- digits_value ds)%Z else digits_value ds, r)
  end.

Definition exp_part (s : jsstring) : option (Z * jsstring) :=
  match s with
  | c :: r =>
      if (c =? 101) || (c =? 69) then
        match r with
        | sg :: r1 =>
            if sg =? 45 then exp_digits true r1
            else if sg =? 43 then exp_digits false r1
            else exp_digits false r
        | [] => None
        end
      else Some (0%Z, s)
  | [] => Some (0%Z, [])
  end.

Definition unsigned_number (s : jsstring) : option (JSNumber * jsstring) :=
  match int_part s with
  | None => None
  | Some (ip, r1) =>
      match frac_part r1 with
      | None => None
      | Some (fp, r2) =>
          match exp_part r2 with
          | None => None
          | Some (e, r3) =>
              Some ({| mant := digits_value (ip ++ fp)%list;
                       exp10 := (e - Z.of_nat (List.length fp))%Z |}, r3)
          end
      end
  end.

Definition number (s : jsstring) : option (JSNumber * jsstring) :=
  match s with
  | c :: r =>
      if c =? 45 then
        match unsigned_number r with
        | Some (n, r') =>
            Some ({| mant := (- mant n)%Z; exp10 := exp10 n |}, r')
        | None => None
        end
      else unsigned_number s
  | [] => None
  end.

(** Defining a property: a later duplicate key replaces the value. *)
Fixpoint set_field (k : jsstring) (v : JSValue)
    (fs : list (jsstring * JSValue)) : list (jsstring * JSValue) :=
  match fs with
  | [] => [(k, v)]
  | (k', v') :: r =>
      if jsstring_eqb k k' then (k', v) :: r else (k', v') :: set_field k v r
  end.

Fixpoint value (fuel : nat) (s : jsstring) : option (JSValue * jsstring) :=
  match fuel with
  | O => None
  | Datatypes.S fuel' =>
      match skip_ws s with
      | 110 :: 117 :: 108 :: 108 :: r => Some (JNull, r)
      | 116 :: 114 :: 117 :: 101 :: r => Some (JBool true, r)
      | 102 :: 97 :: 108 :: 115 :: 101 :: r => Some (JBool false, r)
      | 34 :: r =>
          match string_body r with
          | Some (t, rest) => Some (JStr t, rest)
          | None => None
          end
      | 91 :: r =>
          match skip_ws r with
          | 93 :: rest => Some (JArr [], rest)
          | _ => match elements fuel' r with
                 | Some (vs, rest) => Some (JArr vs, rest)
                 | None => None
                 end
          end
      | 123 :: r =>
          match skip_ws r with
          | 125 :: rest => Some (JObj [], rest)
          | _ => match members fuel' [] r with
                 | Some (fs, rest) => Some (JObj fs, rest)
                 | None => None
                 end
          end
      | t => match number t with
             | Some (n, rest) => Some (JNum n, rest)
             | None => None
             end
      end
  end
with elements (fuel : nat) (s : jsstring)
    : option (list JSValue * jsstring) :=
  match fuel with
  | O => None
  | Datatypes.S fuel' =>
      match value fuel' s with
      | None => None
      | Some (v, r) =>
          match skip_ws r with
          | 93 :: rest => Some ([v], rest)
          | 44 :: rest =>
              match elements fuel' rest with
              | Some (vs, rest') => Some (v :: vs, rest')
              | None => None
              end
          | _ => None
          end
      end
  end
with members (fuel : nat) (acc : list (jsstring * JSValue)) (s : jsstring)
    : option (list (jsstring * JSValue) * jsstring) :=
  match fuel with
  | O => None
  | Datatypes.S fuel' =>
      match skip_ws s with
      | 34 :: r =>
          match string_body r with
          | None => None
          | Some (k, r1) =>
              match skip_ws r1 with
              | 58 :: r2 =>
                  match value fuel' r2 with
                  | None => None
                  | Some (v, r3) =>
                      match skip_ws r3 with
                      | 125 :: rest => Some (set_field k v acc, rest)
                      | 44 :: rest => members fuel' (set_field k v acc) rest
                      | _ => None
                      end
                  end
              | _ => None
              end
          end
      | _ => None
      end
  end.

(** [JSON.parse(text)]: one value, white space around it, nothing else. Every
    call of the parser uses up a code unit, so the length bounds the depth. *)
Definition parse (text : jsstring) : option JSValue :=
  match value (Datatypes.S (List.length text)) text with
  | Some (v, rest) => match skip_ws rest with [] => Some v | _ => None end
  | None => None
  end.

End JSON.

(* ===================================================================== *)
(** ** Concrete streams and services *)
(* ===================================================================== *)

Module Samples.
Import JS Effects ApiClient.

(** Wire text is written with ['] for the double quote and [|] for the line
    feed. *)
Definition wire_byte (b : byte) : byte :=
  match b with
  | x27 => x22
  | x7c => x0a
  | _ => b
  end.

Definition wire (s : string) : list byte :=
  List.map wire_byte (list_byte_of_string s).

(** The same for text that is already decoded. *)
Definition text (s : string) : jsstring := List.map Byte.to_N (wire s).

(** A 200 response whose body delivers [cs] and then ends as [e]. *)
Definition streaming (cs : list (list byte)) (e : BodyEnd) : Response :=
  {| status := 200; statusText := lit "OK"; json := Some (inl JNull);
     body := Some {| chunks := cs; ending := e |} |}.

(** The end-to-end scenario: four frames, blank lines between them. *)
Definition hello : list byte :=
  wire ("data: {'type':'response.started'}||"
        ++ "data: {'type':'response.item.completed',"
        ++ "'item':{'type':'text','content':'Hi'}}||"
        ++ "data: {'type':'response.completed','response':{'content':'Hi'}}||"
        ++ "data: {'type':'stream.completed','run':{'id':'run_1',"
        ++ "'status':'completed','tokens':{'input':10,'output':2}}}||").

Definition ev_started : JSValue :=
  JObj [(lit "type", JStr (lit "response.started"))].

Definition ev_item : JSValue :=
  JObj [(lit "type", JStr (lit "response.item.completed"));
        (lit "item", JObj [(lit "type", JStr (lit "text"));
                           (lit "content", JStr (lit "Hi"))])].

Definition ev_response : JSValue :=
  JObj [(lit "type", JStr (lit "response.completed"));
        (lit "response", JObj [(lit "content", JStr (lit "Hi"))])].

Definition run_1 : JSValue :=
  JObj [(lit "id", JStr (lit "run_1"));
        (lit "status", JStr (lit "completed"));
        (lit "tokens", JObj [(lit "input", JNum {| mant := 10; exp10 := 0 |});
                             (lit "output", JNum {| mant := 2; exp10 := 0 |})])].

Definition ev_completed : JSValue :=
  JObj [(lit "type", JStr (lit "stream.completed")); (lit "run", run_1)].

(** One frame cut in the middle of a line. *)
Definition split_frame : list (list byte) :=
  [wire "data: {'ty"; wire "pe':'response.started'}||"].

(** A [stream.error] frame followed by a [response.completed] frame. *)
Definition error_then_more : list byte :=
  wire ("data: {'type':'response.started'}|"
        ++ "data: {'type':'stream.error','error':'E','message':'boom'}|"
        ++ "data: {'type':'response.completed','response':{'content':'late'}}|").

Definition ev_error : JSValue :=
  JObj [(lit "type", JStr (lit "stream.error"));
        (lit "error", JStr (lit "E")); (lit "message", JStr (lit "boom"))].

Definition ev_late : JSValue :=
  JObj [(lit "type", JStr (lit "response.completed"));
        (lit "response", JObj [(lit "content", JStr (lit "late"))])].

(** A 200 response without a body. *)
Definition bodiless : Response :=
  {| status := 200; statusText := lit "OK"; json := Some (inl JNull);
     body := None |}.

(** An observer that counts its calls, touches nothing and never throws. *)
Definition counting : ThreadsResource.StreamEventCallback nat :=
  fun n _ => (Datatypes.S n, ThreadsResource.untouched, Normal).

(** An observer that throws on every call. *)
Definition throwing : ThreadsResource.StreamEventCallback nat :=
  fun n _ =>
    (Datatypes.S n, ThreadsResource.untouched,
     Abrupt (JsError (lit "Error") (JStr (lit "observer")))).



(** One event of a kind that the classification does not know, shaped like
    a response. *)
Definition note : list byte :=
  wire "data: {'type':'note','response':{'content':'X'}}|".

Definition ev_note : JSValue :=
  JObj [(lit "type", JStr (lit "note"));
        (lit "response", JObj [(lit "content", JStr (lit "X"))])].

(** [event.type = 'response.completed']. *)
Definition promote (ev : JSValue) : JSValue :=
  match ev with
  | JObj fs =>
      JObj (JSON.set_field (lit "type") (JStr (lit "response.completed")) fs)
  | _ => ev
  end.

(** An observer that counts its calls and rewrites the discriminator of the
    event it is handed: [(event) => { event.type = 'response.completed'; }]. *)
Definition promoting : ThreadsResource.StreamEventCallback nat :=
  fun n _ =>
    (Datatypes.S n,
     {| ThreadsResource.on_logged :=
          fun i v => if Nat.eqb i n then promote v else v;
        ThreadsResource.on_content := fun v => v;
        ThreadsResource.on_run := fun v => v |},
     Normal).

(** A client whose base URL parses: the paths of the resource layer
    resolve against it. *)
Definition production (path : jsstring) : URL := Built.

(** A service that keeps the environments of the account and numbers what
    it creates; every message is answered with the end-to-end scenario. *)
Record Cloud : Type := {
  cloud_environments : list ComputerAgentsClient.Environment;
  cloud_next : nat
}.

Definition id_of (prefix : string) (n : nat) : jsstring :=
  (lit prefix ++ number_to_string (Z.of_nat n))%list.

Definition cloud_list (c : Cloud)
    : Cloud * Outcome (list ComputerAgentsClient.Environment) :=
  (c, Returns (cloud_environments c)).

Definition cloud_create (p : ComputerAgentsClient.CreateEnvironmentParams)
    (c : Cloud) : Cloud * Outcome ComputerAgentsClient.Environment :=
  let e := {| ComputerAgentsClient.env_id := id_of "env_" (cloud_next c);
              ComputerAgentsClient.env_name := ComputerAgentsClient.name p;
              ComputerAgentsClient.env_internetAccess :=
                Some (ComputerAgentsClient.internetAccess p);
              ComputerAgentsClient.env_isDefault :=
                Some (ComputerAgentsClient.isDefault p) |} in
  ({| cloud_environments := (cloud_environments c ++ [e])%list;
      cloud_next := Datatypes.S (cloud_next c) |}, Returns e).

Definition cloud_thread (p : ComputerAgentsClient.CreateThreadParams)
    (c : Cloud) : Cloud * Outcome ComputerAgentsClient.Thread :=
  ({| cloud_environments := cloud_environments c;
      cloud_next := Datatypes.S (cloud_next c) |},
   Returns {| ComputerAgentsClient.thread_id := id_of "thread_" (cloud_next c);
              ComputerAgentsClient.thread_environmentId :=
                ComputerAgentsClient.environmentId p |}).

Definition cloud_post (threadId content : jsstring) (agentConfig : JSValue)
    (c : Cloud) : Cloud * Fetch :=
  (c, Resolves 120 (streaming [hello] Closed)).

(** An account with nothing in it. *)
Definition empty_cloud : Cloud :=
  {| cloud_environments := []; cloud_next := 1 |}.

(** [run(task)] with no option set. *)
Definition no_options : ComputerAgentsClient.RunOptions nat :=
  {| ComputerAgentsClient.opt_environmentId := None;
     ComputerAgentsClient.opt_threadId := None;
     ComputerAgentsClient.opt_agentConfig := JUndefined;
     ComputerAgentsClient.opt_onEvent := None;
     ComputerAgentsClient.opt_timeout := None |}.

(** [run] of the client against the sample service. *)
Definition cloud_run (task : jsstring)
    (options : ComputerAgentsClient.RunOptions nat)
    : ComputerAgentsClient.M nat Cloud (ComputerAgentsClient.RunResult) :=
  ComputerAgentsClient.run JSON.parse cloud_list cloud_create cloud_thread
    cloud_post production 60000 task options.

End Samples.

(* ===================================================================== *)
(** ** [ApiClient]: construction and the shape of a request *)
(* ===================================================================== *)

Module ApiClientInit.
Import JS Effects ApiClient.

Record ApiClientConfig : Type := {
  cfg_apiKey : jsstring;
  cfg_baseUrl : option jsstring;
  cfg_timeout : option Z;
  cfg_debug : option bool
}.

(** The private fields of an [ApiClient]. *)
Record Fields : Type := {
  apiKey : jsstring;
  baseUrl : jsstring;
  timeout : Z;
  debug : bool
}.

(** [s.replace(/\/$/, '')]: one slash at the very end goes. *)
Definition strip_trailing_slash (s : jsstring) : jsstring :=
  match rev s with
  | 47 :: r => rev r
  | _ => s
  end.

Definition DEFAULT_BASE_URL : jsstring := lit "https://api.computer-agents.com".

Definition api_key_required : JSError :=
  JsError (lit "Error")
    (JStr (Samples.text
             ("API key is required. Provide it via:|"
              ++ "1. Constructor: new ApiClient({ apiKey: '...' })|"
              ++ "2. Environment variable: COMPUTER_AGENTS_API_KEY"))).

(** [new ApiClient(config)]; the [inr] is what the constructor throws. *)
Definition new_ApiClient (config : ApiClientConfig) : Fields + JSError :=
  if nonempty (cfg_apiKey config) then
    inl {| apiKey := cfg_apiKey config;
           baseUrl :=
             strip_trailing_slash
               (match ComputerAgentsClient.given (cfg_baseUrl config) with
                | Some u => u
                | None => DEFAULT_BASE_URL
                end);
           timeout := config_timeout (cfg_timeout config);
           debug := match cfg_debug config with Some b => b | None => false end
        |}
  else inr api_key_required.

(** *** Headers *)

(** A plain object with string values, as the list of its properties; it is
    read by key only. *)
Definition Headers : Type := list (jsstring * jsstring).

(** [h[k]]; [None] is [undefined]. *)
Fixpoint header (k : jsstring) (h : Headers) : option jsstring :=
  match h with
  | [] => None
  | (k', v) :: r => if jsstring_eqb k k' then Some v else header k r
  end.

(** [h[k] = v]. *)
Fixpoint set_header (k v : jsstring) (h : Headers) : Headers :=
  match h with
  | [] => [(k, v)]
  | (k', v') :: r =>
      if jsstring_eqb k k' then (k', v) :: r else (k', v') :: set_header k v r
  end.

(** [{ ...h, ...src }]: the properties of [src] are written over [h]. *)
Definition spread (src h : Headers) : Headers :=
  fold_left (fun acc kv => set_header (fst kv) (snd kv) acc) src h.

(** A value of a query object: [string | number | boolean | undefined]. *)
Inductive QueryValue : Type :=
| QString (s : jsstring)
| QNumber (n : JSNumber)   (** the number that the decimal denotes *)
| QNaN
| QBoolean (b : bool)
| QUndefined.

(** [String(value)]. *)
Definition String_of (v : QueryValue) : jsstring :=
  match v with
  | QString s => s
  | QNumber n => Number_toString n
  | QNaN => lit "NaN"
  | QBoolean true => lit "true"
  | QBoolean false => lit "false"
  | QUndefined => lit "undefined"
  end.

Record RequestOptions : Type := {
  req_body : JSValue;                                  (** [undefined] when absent *)
  req_query : option (list (jsstring * QueryValue));   (** its entries *)
  req_headers : option Headers;
  req_timeout : option Z;
  req_stream : bool
}.

(** [options.headers], nothing when absent. *)
Definition theirs (options : RequestOptions) : Headers :=
  match req_headers options with Some h => h | None => [] end.

(** The keys of an object are distinct. *)
Definition unique_keys (h : option Headers) : Prop :=
  match h with Some l => NoDup (List.map fst l) | None => True end.

(** The headers [request] hands to [fetch]. *)
Definition request_headers (this_apiKey : jsstring) (options : RequestOptions)
    : Headers :=
  let h0 := spread (theirs options)
              [(lit "Authorization", lit "Bearer " ++ this_apiKey)] in
  let h1 :=
    if truthy (req_body options)
       && negb (match ComputerAgentsClient.given
                        (header (lit "Content-Type") (theirs options)) with
                | Some _ => true
                | None => false
                end)
    then set_header (lit "Content-Type") (lit "application/json") h0
    else h0 in
  if req_stream options
  then set_header (lit "Accept") (lit "text/event-stream") h1
  else h1.

(** Whether [fetch] is given a body: [options.body ? JSON.stringify(...) :
    undefined]. *)
Definition sends_body (options : RequestOptions) : bool :=
  truthy (req_body options).

(** *** Query parameters *)

(** The list of name-value pairs behind [url.searchParams]. *)
Definition URLSearchParams : Type := list (jsstring * jsstring).

(** [searchParams.get(name)]: the value of the first pair of that name. *)
Fixpoint searchParams_get (name : jsstring) (l : URLSearchParams)
    : option jsstring :=
  match l with
  | [] => None
  | (n, v) :: r => if jsstring_eqb name n then Some v else searchParams_get name r
  end.

Definition without (name : jsstring) (l : URLSearchParams) : URLSearchParams :=
  filter (fun p => negb (jsstring_eqb name (fst p))) l.

(** The pairs of a given name, in order ([searchParams.getAll(name)] with
    the names kept). *)
Definition named (name : jsstring) (l : URLSearchParams) : URLSearchParams :=
  filter (fun p => jsstring_eqb name (fst p)) l.

(** [searchParams.set(name, value)]: the first pair of that name takes the
    value and the others go; without such a pair, one is appended. *)
Fixpoint searchParams_set (name value : jsstring) (l : URLSearchParams)
    : URLSearchParams :=
  match l with
  | [] => [(name, value)]
  | (n, v) :: r =>
      if jsstring_eqb name n then (n, value) :: without name r
      else (n, v) :: searchParams_set name value r
  end.

(** The loop over [Object.entries(options.query)]. *)
Definition add_query (entries : list (jsstring * QueryValue))
    (l : URLSearchParams) : URLSearchParams :=
  fold_left
    (fun acc kv =>
       match snd kv with
       | QUndefined => acc
       | v => searchParams_set (fst kv) (String_of v) acc
       end)
    entries l.

(** The search parameters of the request's URL, from those that [path]
    brought along. *)
Definition request_searchParams (options : RequestOptions)
    (of_path : URLSearchParams) : URLSearchParams :=
  match req_query options with
  | Some entries => add_query entries of_path
  | None => of_path
  end.

(** *** The convenience methods, as the options they pass on *)

Definition get_options (query : option (list (jsstring * QueryValue)))
    : RequestOptions :=
  {| req_body := JUndefined; req_query := query; req_headers := None;
     req_timeout := None; req_stream := false |}.

(** [post(path, body, options)] with [options] holding at most [stream]. *)
Definition post_options (body : JSValue) (stream : bool) : RequestOptions :=
  {| req_body := body; req_query := None; req_headers := None;
     req_timeout := None; req_stream := stream |}.

(** What [sendMessage] passes: [{ body: params, stream: true, timeout }]. *)
Definition sendMessage_options (params : JSValue) (timeout : Z)
    : RequestOptions :=
  {| req_body := params; req_query := None; req_headers := None;
     req_timeout := Some timeout; req_stream := true |}.

End ApiClientInit.

(* ===================================================================== *)
(** ** The resource wrappers over a buffered request *)
(* ===================================================================== *)

Module Resources.
Import JS Effects ApiClient.

(** [const response = await this.client.post(...); return response.k;] and
    its likes: the property [k] of what [request] returned. Reading it off
    [undefined] or [null] throws a TypeError. *)
Definition property (k : jsstring) (r : Outcome Reply) : Outcome JSValue :=
  match r with
  | Returns (DataReply v) =>
      match get v k with
      | Some x => Returns x
      | None => Throws type_error
      end
  | Returns (StreamReply _) => Returns JUndefined
  | Throws e => Throws e
  | Pending => Pending
  end.

(** A call of a convenience method: no timeout of its own, not streamed. *)
Definition buffered (url : URL) (this_timeout : Z) (net : Fetch)
    : Outcome Reply :=
  request url this_timeout None false net.

(** [threads.create], [threads.get], [threads.update], [threads.copy],
    [threads.resume]: [response.thread]. *)
Definition threads_thread (url : URL) (this_timeout : Z) (net : Fetch)
    : Outcome JSValue :=
  property (lit "thread") (buffered url this_timeout net).

(** [environments.create], [environments.get], [environments.update]:
    [response.environment]. *)
Definition environments_environment (url : URL) (this_timeout : Z) (net : Fetch)
    : Outcome JSValue :=
  property (lit "environment") (buffered url this_timeout net).

(** [environments.list]: [response.data]. *)
Definition environments_list (url : URL) (this_timeout : Z) (net : Fetch)
    : Outcome JSValue :=
  property (lit "data") (buffered url this_timeout net).

(** [projects.get]: [response.project]. *)
Definition projects_get (url : URL) (this_timeout : Z) (net : Fetch)
    : Outcome JSValue :=
  property (lit "project") (buffered url this_timeout net).

(** [threads.getLogs]: [response.logs]. *)
Definition threads_getLogs (url : URL) (this_timeout : Z) (net : Fetch)
    : Outcome JSValue :=
  property (lit "logs") (buffered url this_timeout net).

(** [threads.list] and [threads.getMessages]: the page under other names. *)
Definition threads_page (url : URL) (this_timeout : Z) (net : Fetch)
    : Outcome JSValue :=
  match buffered url this_timeout net with
  | Returns (DataReply v) =>
      match get v (lit "data"), get v (lit "has_more"),
            get v (lit "total_count") with
      | Some d, Some h, Some t =>
          Returns (JObj [(lit "data", d); (lit "hasMore", h);
                         (lit "total", t)])
      | _, _, _ => Throws type_error
      end
  | Returns (StreamReply _) =>
      Returns (JObj [(lit "data", JUndefined); (lit "hasMore", JUndefined);
                     (lit "total", JUndefined)])
  | Throws e => Throws e
  | Pending => Pending
  end.

(** [threads.delete], [threads.cancel], [threads.deleteResearch]: the reply
    is awaited and dropped. *)
Definition threads_void (url : URL) (this_timeout : Z) (net : Fetch)
    : Outcome unit :=
  match buffered url this_timeout net with
  | Returns _ => Returns tt
  | Throws e => Throws e
  | Pending => Pending
  end.

End Resources.

(* ===================================================================== *)
(** ** [ComputerAgentsClient]: construction and [quickSetup] *)
(* ===================================================================== *)

Module ClientSetup.
Import JS Effects ApiClient ComputerAgentsClient.

Record ComputerAgentsClientConfig : Type := {
  cc_apiKey : option jsstring;
  cc_baseUrl : option jsstring;
  cc_debug : option bool;
  cc_timeout : option Z
}.

(** The two variables of [process.env] that the constructor reads. *)
Record ProcessEnv : Type := {
  COMPUTER_AGENTS_API_KEY : option jsstring;
  TESTBASE_API_KEY : option jsstring
}.

(** [config.apiKey || process.env.COMPUTER_AGENTS_API_KEY
     || process.env.TESTBASE_API_KEY], [None] when all are falsy. *)
Definition resolve_apiKey (config : ComputerAgentsClientConfig)
    (env : ProcessEnv) : option jsstring :=
  match given (cc_apiKey config) with
  | Some k => Some k
  | None =>
      match given (COMPUTER_AGENTS_API_KEY env) with
      | Some k => Some k
      | None => given (TESTBASE_API_KEY env)
      end
  end.

Definition client_key_required : JSError :=
  JsError (lit "Error")
    (JStr (Samples.text
             ("ComputerAgentsClient requires an API key. Provide it via:|"
              ++ "1. Constructor: new ComputerAgentsClient({ apiKey: '...' })|"
              ++ "2. Environment variable: COMPUTER_AGENTS_API_KEY"))).

(** [new ComputerAgentsClient(config)], as the [ApiClient] it builds; the
    resources share that client, and [_defaultEnvironmentId] starts [null]. *)
Definition new_ComputerAgentsClient (config : ComputerAgentsClientConfig)
    (env : ProcessEnv) : ApiClientInit.Fields + JSError :=
  match resolve_apiKey config env with
  | None => inr client_key_required
  | Some k =>
      ApiClientInit.new_ApiClient
        {| ApiClientInit.cfg_apiKey := k;
           ApiClientInit.cfg_baseUrl := cc_baseUrl config;
           ApiClientInit.cfg_timeout := cc_timeout config;
           ApiClientInit.cfg_debug := cc_debug config |}
  end.

Record QuickSetupOptions : Type := {
  qs_internetAccess : option bool;
  qs_environmentName : option jsstring
}.

(** The parameters [quickSetup] creates an environment with. *)
Definition quickSetup_params (options : QuickSetupOptions)
    : CreateEnvironmentParams :=
  {| name := match given (qs_environmentName options) with
             | Some n => n
             | None => lit "default"
             end;
     internetAccess := match qs_internetAccess options with
                       | Some b => b
                       | None => true
                       end;
     isDefault := true |}.

Section QuickSetup.

Variable O : Type.
Variable S : Type.
(** The project record is handed back as it came. *)
Variable Project : Type.
Variable projects_get : S -> S * Outcome Project.
Variable environments_list : S -> S * Outcome (list Environment).
Variable environments_create :
  CreateEnvironmentParams -> S -> S * Outcome Environment.

Notation "x <- m ;; k" := (bind m (fun x => k))
  (at level 61, m at next level, right associativity).

(** A call of the service that the journal does not keep (the journal is
    about environments, threads and messages). *)
Definition perform {A} (op : S -> S * Outcome A) : M O S A :=
  fun w =>
    let (s', r) := op (service w) in
    ({| service := s'; _defaultEnvironmentId := _defaultEnvironmentId w;
        watcher := watcher w; journal := journal w;
        seen := seen w; console := console w |}, r).

(** [quickSetup(options)]. *)
Definition quickSetup (options : QuickSetupOptions)
    : M O S (Project * Environment) :=
  project <- perform projects_get ;;
  environments <- call ListEnvironments environments_list ;;
  environment <-
    match find_default environments with
    | Some e => ret e
    | None => call (CreateEnvironment (quickSetup_params options))
                   (environments_create (quickSetup_params options))
    end ;;
  ret (project, environment).

End QuickSetup.
End ClientSetup.

(* ===================================================================== *)
(** ** More vocabulary for streams and networks *)
(* ===================================================================== *)

Module StreamMore.
Import JS Effects ApiClient Stream.

(** Lines put back on the wire, each followed by its line feed. *)
Fixpoint closed_lines (lines : list jsstring) : jsstring :=
  match lines with
  | [] => []
  | l :: ls => l ++ NL :: closed_lines ls
  end.


Section Observers.
Variable O : Type.

(** An observer that throws on every call. *)
Definition always_throws (f : ThreadsResource.StreamEventCallback O) : Prop :=
  forall o ev, exists o' t e, f o ev = (o', t, Abrupt e).

(** The observer, if any, returns normally on this event in this state. *)
Definition returns_on
    (onEvent : option (ThreadsResource.StreamEventCallback O))
    (o : O) (ev : JSValue) : Prop :=
  match onEvent with
  | None => True
  | Some f => snd (f o ev) = Normal
  end.

(** ... and leaves every object as it was. *)
Definition only_reads_on
    (onEvent : option (ThreadsResource.StreamEventCallback O))
    (o : O) (ev : JSValue) : Prop :=
  match onEvent with
  | None => True
  | Some f => leaves_alone (snd (fst (f o ev)))
  end.

End Observers.

(** What the platform rejects with is never of the SDK's own error class,
    and an error of the platform has a string for its message. *)
Definition platform_error (e : JSError) : bool :=
  match e with
  | ApiClientError _ _ _ _ => false
  | JsError _ m => is_string m
  | Thrown _ => true
  end.

(** A behaviour of the network whose failures are the platform's. *)
Definition platform_net (net : Fetch) : bool :=
  match net with
  | Resolves _ r =>
      match json r with
      | Some (inr e) => platform_error e
      | _ => true
      end
  | Rejects _ e => platform_error e
  | Never => true
  end.

(** The delay of the timer of a call, as [setTimeout] takes it. *)
Definition delay_of (this_timeout : Z) (timeout : option Z) : Z :=
  timer_delay (match timeout with Some t => t | None => this_timeout end).

End StreamMore.

(* ===================================================================== *)
(** ** More concrete streams and responses *)
(* ===================================================================== *)

Module MoreSamples.
Import JS Effects ApiClient Samples.




(** Two frames with what else a server may send around them: a comment, an
    event name, an id, a [data:] line without the space, blank lines. *)
Definition noisy : list byte :=
  wire (": keep-alive|event: message|"
        ++ "data: {'type':'response.completed','response':{'content':'Hi'}}|"
        ++ "|id: 7|data:{'type':'response.completed'}|"
        ++ "data: {'type':'stream.completed','run':{'id':'a'}}||").

(** The same two frames and nothing else. *)
Definition quiet : list byte :=
  wire ("data: {'type':'response.completed','response':{'content':'Hi'}}|"
        ++ "data: {'type':'stream.completed','run':{'id':'a'}}|").

(** A frame, and a second one that its line feed never follows. *)
Definition cut_short : list byte :=
  wire ("data: {'type':'response.started'}|"
        ++ "data: {'type':'stream.completed','run':{'id':'a'}}").

Definition first_frame_only : list byte :=
  wire "data: {'type':'response.started'}|".

(** A 404 with a structured error body. *)
Definition not_found : Response :=
  {| status := 404; statusText := lit "Not Found";
     json := Some (inl (JObj [(lit "error", JStr (lit "not_found"));
                              (lit "message", JStr (lit "No such thread"));
                              (lit "code", JStr (lit "THREAD_NOT_FOUND"))]));
     body := Some {| chunks := [hello]; ending := Closed |} |}.

(** A 502 whose body is not JSON. *)
Definition bad_gateway : Response :=
  {| status := 502; statusText := lit "Bad Gateway";
     json := Some (inr (JsError (lit "SyntaxError")
                          (JStr (lit "Unexpected token <"))));
     body := None |}.

(** A 200 with a JSON body. *)
Definition answering (v : JSValue) : Response :=
  {| status := 200; statusText := lit "OK"; json := Some (inl v);
     body := None |}.

(** A 204. *)
Definition no_content : Response :=
  {| status := 204; statusText := lit "No Content";
     json := Some (inr (JsError (lit "SyntaxError")
                          (JStr (lit "Unexpected end of JSON input"))));
     body := None |}.

End MoreSamples.

Module RequestSamples.
Import JS Effects ApiClient ApiClientInit.

(** A streamed POST whose caller brings headers of its own. *)
Definition with_own_headers : RequestOptions :=
  {| req_body := JObj [(lit "content", JStr (lit "hi"))];
     req_query := None;
     req_headers := Some [(lit "Authorization", lit "Token t0");
                          (lit "Accept", lit "application/json");
                          (lit "content-type", lit "text/plain")];
     req_timeout := None;
     req_stream := true |}.

(** [threads.list({ limit: 10, status: undefined, ... })] on a path that
    already carries a query. *)
Definition list_query : list (jsstring * QueryValue) :=
  [(lit "limit", QNumber {| mant := 10; exp10 := 0 |});
   (lit "offset", QUndefined);
   (lit "environmentId", QString (lit "env_1"));
   (lit "status", QUndefined); (lit "active", QBoolean true)].

Definition path_query : URLSearchParams :=
  [(lit "limit", lit "5"); (lit "cursor", lit "abc"); (lit "limit", lit "7")].

End RequestSamples.

Module ClientSamples.
Import JS Effects ApiClient ComputerAgentsClient Samples.

(** [run(task, { threadId: 'thread_9' })]. *)
Definition continuing : RunOptions nat :=
  {| opt_environmentId := None;
     opt_threadId := Some (lit "thread_9");
     opt_agentConfig := JUndefined;
     opt_onEvent := Some counting;
     opt_timeout := None |}.

(** A service like [Samples.Cloud] that cannot create threads. *)
Definition no_threads (p : CreateThreadParams) (c : Cloud)
    : Cloud * Outcome Thread :=
  (c, Throws (ApiClientError (JStr (lit "Thread quota exceeded")) 429
                (JStr (lit "QUOTA")) JUndefined)).







(** The project of the sample account. *)
Definition cloud_project (c : Cloud) : Cloud * Outcome jsstring :=
  (c, Returns (lit "project_1")).

(** [quickSetup({ internetAccess: false, environmentName: '' })]. *)
Definition offline : ClientSetup.QuickSetupOptions :=
  {| ClientSetup.qs_internetAccess := Some false;
     ClientSetup.qs_environmentName := Some [] |}.

End ClientSamples.

(* ===================================================================== *)
(** * Properties *)
(* ===================================================================== *)

(** ** Lines and chunks *)

Module LineFacts.
Import JS.

Lemma jsstring_eqb_eq a b : jsstring_eqb a b = true <-> a = b.
Proof.
  unfold jsstring_eqb. destruct (list_eq_dec N.eq_dec a b); split; congruence.
Qed.

Lemma jsstring_eqb_refl a : jsstring_eqb a a = true.
Proof. now apply jsstring_eqb_eq. Qed.

Lemma split_nl_nonempty s : split_nl s <> [].
Proof.
  destruct s as [|c r]; simpl; [discriminate|].
  destruct (N.eqb c NL); [discriminate|].
  destruct (split_nl r); discriminate.
Qed.

(** Splitting after more text has arrived: the lines already complete stay,
    and the split goes on from the pending last piece. *)
Lemma split_nl_app a b :
  split_nl (a ++ b)
  = removelast (split_nl a) ++ split_nl (last (split_nl a) [] ++ b).
Proof.
  induction a as [|c a IH]; [reflexivity|].
  cbn [app split_nl].
  destruct (N.eqb c NL) eqn:E.
  - rewrite IH. pose proof (split_nl_nonempty a) as Hne.
    destruct (split_nl a) as [|l ls]; [contradiction|]. reflexivity.
  - rewrite IH. pose proof (split_nl_nonempty a) as Hne.
    destruct (split_nl a) as [|l ls]; [contradiction|].
    destruct ls as [|l' ls'].
    + cbn [removelast last app split_nl]. now rewrite E.
    + reflexivity.
Qed.

(** No piece of a split holds a line feed. *)
Lemma split_nl_pieces s : Forall (fun l => ~ In NL l) (split_nl s).
Proof.
  induction s as [|c r IH]; cbn [split_nl].
  - constructor; [intros []|constructor].
  - destruct (N.eqb c NL) eqn:E.
    + constructor; [intros []|exact IH].
    + destruct (split_nl r) as [|l ls]; [repeat constructor; intros [H|[]]|].
      * apply N.eqb_neq in E. congruence.
      * inversion IH as [|? ? Hl Hls]; subst. constructor; [|exact Hls].
        intros [H|H]; [|now apply Hl]. apply N.eqb_neq in E. congruence.
Qed.

Lemma split_nl_single s : ~ In NL s -> split_nl s = [s].
Proof.
  induction s as [|c r IH]; intros H; [reflexivity|].
  cbn [split_nl]. destruct (N.eqb c NL) eqn:E.
  - apply N.eqb_eq in E. exfalso. apply H. left. congruence.
  - rewrite IH; [reflexivity|]. intros Hin. apply H. now right.
Qed.

Lemma last_split_nl_single s :
  split_nl (last (split_nl s) []) = [last (split_nl s) []].
Proof.
  apply split_nl_single.
  pose proof (split_nl_pieces s) as HF.
  pose proof (split_nl_nonempty s) as Hne.
  rewrite Forall_forall in HF. apply HF.
  destruct (split_nl s) as [|l ls]; [contradiction|].
  destruct (exists_last (l := l :: ls)) as (l0 & x & Hx); [discriminate|].
  rewrite Hx, last_last. apply in_or_app. right. now left.
Qed.

End LineFacts.

Module DecoderFacts.
Import JS TextDecoder.

(** Decoding goes byte by byte, so cutting the input anywhere and decoding
    the two parts in turn gives the same text and the same final state. *)
Lemma decode_app st a b :
  decode st (a ++ b)
  = let (st1, o1) := decode st a in
    let (st2, o2) := decode st1 b in (st2, o1 ++ o2).
Proof.
  revert st. induction a as [|x a IH]; intros st; cbn [app decode].
  - destruct (decode st b); reflexivity.
  - destruct (step st x) as [st1 o1]. rewrite IH.
    destruct (decode st1 a) as [st2 o2].
    destruct (decode st2 b) as [st3 o3].
    now rewrite app_assoc.
Qed.

End DecoderFacts.

(** ** The read loop *)

Module LoopFacts.
Import JS Effects ApiClient ThreadsResource Stream LineFacts DecoderFacts.

Lemma last_app_nonempty (A : Type) (l l' : list A) (d : A) :
  l' <> [] -> last (l ++ l') d = last l' d.
Proof.
  intros Hne. induction l as [|x l IH]; [reflexivity|].
  cbn [app]. destruct (l ++ l') eqn:E.
  - apply app_eq_nil in E. destruct E. contradiction.
  - rewrite <- E in *. cbn [last]. rewrite E. rewrite <- E. exact IH.
Qed.

Section Loop.
Variable JSON_parse : jsstring -> option JSValue.
Variable O : Type.
Variable onEvent : option (StreamEventCallback O).

Local Abbreviation process_lines := (process_lines JSON_parse onEvent).
Local Abbreviation read_all := (read_all JSON_parse onEvent).
Local Abbreviation on_chunk := (on_chunk JSON_parse onEvent).

Lemma process_lines_app st l1 l2 :
  process_lines st (l1 ++ l2) = process_lines (process_lines st l1) l2.
Proof. unfold ThreadsResource.process_lines. apply fold_left_app. Qed.

(** However the bytes were cut into chunks, the loop ends up where a single
    read of all of them would: the decoder has seen every byte, the buffer
    holds what follows the last line feed, and each line that a line feed
    closed went through [process_line] once, in order. *)
Lemma read_all_spec cs : forall lp,
  split_nl (buffer lp) = [buffer lp] ->
  read_all lp cs =
    let (d, text) := TextDecoder.decode (decoder lp) (List.concat cs) in
    let lines := split_nl (buffer lp ++ text) in
    {| decoder := d; buffer := last lines [];
       vars := process_lines (vars lp) (removelast lines) |}.
Proof.
  induction cs as [|c cs IH]; intros lp Hbuf.
  - cbn [List.concat TextDecoder.decode]. rewrite app_nil_r, Hbuf.
    destruct lp; reflexivity.
  - cbn [ThreadsResource.read_all fold_left List.concat].
    fold (read_all (on_chunk lp c) cs).
    rewrite decode_app. unfold ThreadsResource.on_chunk at 1.
    destruct (TextDecoder.decode (decoder lp) c) as [d1 t1] eqn:E1.
    rewrite IH by (cbn [buffer]; apply last_split_nl_single).
    cbn [decoder buffer vars].
    destruct (TextDecoder.decode d1 (List.concat cs)) as [d2 t2].
    cbv zeta. rewrite (app_assoc (buffer lp) t1 t2).
    rewrite (split_nl_app (buffer lp ++ t1) t2).
    set (A := removelast (split_nl (buffer lp ++ t1))).
    set (B := split_nl (last (split_nl (buffer lp ++ t1)) [] ++ t2)).
    assert (HB : B <> []) by apply split_nl_nonempty.
    rewrite last_app_nonempty by exact HB.
    rewrite removelast_app by exact HB.
    now rewrite process_lines_app.
Qed.

Lemma read_all_enter o cs :
  vars (read_all (enter o) cs)
  = process_lines (start o) (complete_lines (decoded_text (List.concat cs))).
Proof.
  rewrite read_all_spec by reflexivity.
  unfold decoded_text, complete_lines. cbn [enter decoder buffer vars].
  destruct (TextDecoder.decode TextDecoder.init (List.concat cs)) as [d t].
  reflexivity.
Qed.

End Loop.
End LoopFacts.

(** ** One line at a time *)

Module LineStepFacts.
Import JS Effects ApiClient ThreadsResource Stream StreamMore.
Import LineFacts LoopFacts.

(** *** What a call of the observer can change *)

Lemma mutate_primitive g v : is_primitive v = true -> mutate g v = v.
Proof. unfold mutate. now intros ->. Qed.

Lemma mutate_from_length i g l :
  List.length (mutate_from i g l) = List.length l.
Proof.
  revert i. induction l as [|v l IH]; intros i; [reflexivity|].
  cbn. now rewrite IH.
Qed.

Lemma mutate_from_app i g l1 l2 :
  mutate_from i g (l1 ++ l2)
  = mutate_from i g l1 ++ mutate_from (i + List.length l1) g l2.
Proof.
  revert i. induction l1 as [|v l1 IH]; intros i.
  - cbn. now rewrite Nat.add_0_r.
  - cbn [app mutate_from List.length]. rewrite IH.
    now rewrite Nat.add_succ_r.
Qed.

Lemma mutate_from_alone i g l :
  (forall j v, mutate (g j) v = v) -> mutate_from i g l = l.
Proof.
  intros H. revert i. induction l as [|v l IH]; intros i; [reflexivity|].
  cbn. now rewrite H, IH.
Qed.

Lemma last_mutate_from i g l v d :
  last (mutate_from i g (l ++ [v])) d = mutate (g (i + List.length l)%nat) v.
Proof.
  rewrite mutate_from_app. cbn [mutate_from].
  now rewrite last_app_nonempty by discriminate.
Qed.

(** Taking [process_line] apart along the branches of the source. *)
Ltac branches :=
  unfold process_line, try_block, call_onEvent, classify, catch_block,
    frame, is_data_line, payload in *;
  repeat match goal with
    | |- context [match ?x with _ => _ end] =>
        lazymatch x with
        | context [match _ with _ => _ end] => fail
        | _ => destruct x eqn:?
        end
    end.

Section Step.
Variable JSON_parse : jsstring -> option JSValue.
Variable O : Type.
Variable onEvent : option (StreamEventCallback O).

Local Abbreviation process_line := (process_line JSON_parse onEvent).
Local Abbreviation process_lines := (process_lines JSON_parse onEvent).
Local Abbreviation frame := (frame JSON_parse).
Local Abbreviation frames := (frames JSON_parse).

Lemma frames_app l1 l2 : frames (l1 ++ l2) = frames l1 ++ frames l2.
Proof.
  induction l1 as [|l l1 IH]; [reflexivity|].
  cbn [app Stream.frames]. rewrite IH. now destruct (frame l).
Qed.

Lemma frames_last ls l : frames (ls ++ [l]) = frames ls ++ one (frame l).
Proof. rewrite frames_app. cbn. now destruct (frame l). Qed.

(** The call of the observer, field by field. *)
Lemma call_onEvent_delivered ev (st : locals O) :
  delivered (fst (call_onEvent onEvent ev st))
  = delivered st ++ match onEvent with Some _ => [ev] | None => [] end.
Proof.
  unfold call_onEvent. destruct onEvent as [f|]; [|now rewrite app_nil_r].
  now destruct (f (observer st) ev) as [[o' t] c].
Qed.

Lemma call_onEvent_warnings ev (st : locals O) :
  warnings (fst (call_onEvent onEvent ev st)) = warnings st.
Proof.
  unfold call_onEvent. destruct onEvent as [f|]; [|reflexivity].
  now destruct (f (observer st) ev) as [[o' t] c].
Qed.

Lemma call_onEvent_observer ev (st : locals O) :
  observer (fst (call_onEvent onEvent ev st))
  = match onEvent with
    | Some f => fst (fst (f (observer st) ev))
    | None => observer st
    end.
Proof.
  unfold call_onEvent. destruct onEvent as [f|]; [|reflexivity].
  now destruct (f (observer st) ev) as [[o' t] c].
Qed.

Lemma call_onEvent_completion ev (st : locals O) :
  snd (call_onEvent onEvent ev st)
  = match onEvent with
    | Some f => snd (f (observer st) ev)
    | None => Normal
    end.
Proof.
  unfold call_onEvent. destruct onEvent as [f|]; [|reflexivity].
  now destruct (f (observer st) ev) as [[o' t] c].
Qed.

Lemma call_onEvent_length ev (st : locals O) :
  List.length (l_events (fst (call_onEvent onEvent ev st)))
  = List.length (l_events st).
Proof.
  unfold call_onEvent. destruct onEvent as [f|]; [|reflexivity].
  destruct (f (observer st) ev) as [[o' t] c]. cbn.
  apply mutate_from_length.
Qed.

(** A call that only reads leaves the log and the captures as they were. *)
Lemma call_onEvent_alone ev (st : locals O) :
  only_reads_on onEvent (observer st) ev ->
  l_events (fst (call_onEvent onEvent ev st)) = l_events st
  /\ finalContent (fst (call_onEvent onEvent ev st)) = finalContent st
  /\ runDetails (fst (call_onEvent onEvent ev st)) = runDetails st.
Proof.
  unfold only_reads_on, call_onEvent. destruct onEvent as [f|];
    [|now repeat split].
  destruct (f (observer st) ev) as [[o' t] c]. cbn.
  intros (Hl & Hc & Hr). now rewrite mutate_from_alone, Hc, Hr.
Qed.

(** Primitives are out of the observer's reach. *)
Lemma call_onEvent_content_primitive ev (st : locals O) :
  is_primitive (finalContent st) = true ->
  finalContent (fst (call_onEvent onEvent ev (push_event ev st)))
  = finalContent st.
Proof.
  unfold call_onEvent. destruct onEvent as [f|]; [|reflexivity].
  cbn [observer push_event].
  destruct (f (observer st) ev) as [[o' t] c]. cbn.
  apply mutate_primitive.
Qed.

Lemma call_onEvent_run_primitive ev (st : locals O) :
  is_primitive (runDetails st) = true ->
  runDetails (fst (call_onEvent onEvent ev (push_event ev st)))
  = runDetails st.
Proof.
  unfold call_onEvent. destruct onEvent as [f|]; [|reflexivity].
  cbn [observer push_event].
  destruct (f (observer st) ev) as [[o' t] c]. cbn.
  apply mutate_primitive.
Qed.

(** The event as the classification finds it. *)
Lemma current_after_call ev (st : locals O) :
  current ev (fst (call_onEvent onEvent ev (push_event ev st)))
  = match onEvent with
    | Some f =>
        mutate (on_logged (snd (fst (f (observer st) ev)))
                  (List.length (l_events st))) ev
    | None => ev
    end.
Proof.
  unfold current, call_onEvent. destruct onEvent as [f|].
  - cbn [observer push_event].
    destruct (f (observer st) ev) as [[o' t] c].
    cbn [fst snd observed l_events push_event].
    now rewrite last_mutate_from.
  - cbn. now rewrite last_app_nonempty by discriminate.
Qed.

(** Two different literals cannot both equal the discriminator. *)
Lemma type_is_exclusive ev a b :
  type_is a ev = true -> type_is b ev = true -> lit a = lit b.
Proof.
  unfold type_is, strict_eq_str. destruct (get_opt ev (lit "type")); try discriminate.
  intros Ha Hb. apply jsstring_eqb_eq in Ha, Hb. congruence.
Qed.

Lemma get_type_is ev ty :
  get ev (lit "type") = Some ty ->
  forall s, type_is s ev = strict_eq_str ty (lit s).
Proof. unfold type_is, get_opt. now intros ->. Qed.

Lemma get_type_none ev :
  get ev (lit "type") = None -> forall s, type_is s ev = false.
Proof. unfold type_is, get_opt. now intros ->. Qed.

Lemma or_else_string v : is_string v = true -> or_else v (JStr []) = v.
Proof. destruct v; try discriminate. now destruct s. Qed.

Lemma well_formed_content ev :
  well_formed ev = true -> type_is "response.completed" ev = true ->
  is_string (content_of ev) = true.
Proof.
  unfold well_formed. intros H E. rewrite E in H.
  repeat (apply andb_prop in H; destruct H as [H ?]).
  match goal with
  | H' : is_object _ && is_string (content_of ev) = true |- _ =>
      apply andb_prop in H'; tauto
  end.
Qed.

(** A line without an event: not a [data: ] line, or one whose payload does
    not parse; only the second reaches the [catch] block. *)
Lemma process_line_no_frame st line :
  frame line = None ->
  process_line st line
  = if is_data_line line then catch_block line st else st.
Proof.
  unfold Stream.frame, is_data_line, payload, ThreadsResource.process_line,
    try_block.
  destruct (startsWith (lit "data: ") line); [|reflexivity].
  now intros ->.
Qed.

(** The [if / else if] chain, read off the event. *)
Lemma classify_cases ev (st : locals O) :
  classify ev st
  = if type_is "response.completed" ev then
      (set_finalContent (or_else (content_of ev) (JStr [])) st, Normal)
    else if type_is "stream.completed" ev then
      (set_runDetails (run_of ev) st, Normal)
    else if type_is "stream.error" ev then
      (st, Abrupt (new_Error (or_else (get_opt ev (lit "message"))
                                      (get_opt ev (lit "error")))))
    else match get ev (lit "type") with
         | Some _ => (st, Normal)
         | None => (st, Abrupt type_error)
         end.
Proof.
  unfold classify. destruct (get ev (lit "type")) as [ty|] eqn:E.
  - rewrite !(get_type_is _ E). reflexivity.
  - rewrite !(get_type_none _ E). reflexivity.
Qed.

(** A line with an event [ev]: the event is logged, the observer called,
    and only then is the event classified, as it is by then. *)
Lemma process_line_frame st line ev :
  frame line = Some ev ->
  process_line st line
  = match call_onEvent onEvent ev (push_event ev st) with
    | (st2, Abrupt _) => catch_block line st2
    | (st2, Normal) =>
        match classify (current ev st2) st2 with
        | (st3, Normal) => st3
        | (st3, Abrupt _) => catch_block line st3
        end
    end.
Proof.
  unfold Stream.frame, is_data_line, payload, ThreadsResource.process_line,
    try_block.
  destruct (startsWith (lit "data: ") line); [|discriminate].
  intros ->.
  destruct (call_onEvent onEvent ev (push_event ev st)) as [st2 [|e]];
    [|reflexivity].
  now destruct (classify (current ev st2) st2) as [st3 [|e]].
Qed.

(** The [catch] block touches nothing but the console. *)
Lemma catch_block_content line (st : locals O) :
  finalContent (catch_block line st) = finalContent st.
Proof. unfold catch_block. now destruct (nonempty _). Qed.

Lemma catch_block_run line (st : locals O) :
  runDetails (catch_block line st) = runDetails st.
Proof. unfold catch_block. now destruct (nonempty _). Qed.

Lemma catch_block_rest line (st : locals O) :
  l_events (catch_block line st) = l_events st
  /\ observer (catch_block line st) = observer st
  /\ delivered (catch_block line st) = delivered st.
Proof. unfold catch_block. now destruct (nonempty _). Qed.

(** The classification touches nothing but the two captures. *)
Lemma classify_rest ev (st : locals O) :
  l_events (fst (classify ev st)) = l_events st
  /\ observer (fst (classify ev st)) = observer st
  /\ delivered (fst (classify ev st)) = delivered st
  /\ warnings (fst (classify ev st)) = warnings st.
Proof.
  rewrite classify_cases.
  destruct (type_is "response.completed" ev); [now repeat split|].
  destruct (type_is "stream.completed" ev); [now repeat split|].
  destruct (type_is "stream.error" ev); [now repeat split|].
  now destruct (get ev (lit "type")).
Qed.

(** After a line with an event, the log, the observer and the record of its
    calls are as the call of the observer left them. *)
Lemma process_line_after_call st line ev :
  frame line = Some ev ->
  l_events (process_line st line)
  = l_events (fst (call_onEvent onEvent ev (push_event ev st)))
  /\ observer (process_line st line)
     = observer (fst (call_onEvent onEvent ev (push_event ev st)))
  /\ delivered (process_line st line)
     = delivered (fst (call_onEvent onEvent ev (push_event ev st))).
Proof.
  intros F. rewrite (process_line_frame st _ F).
  destruct (call_onEvent onEvent ev (push_event ev st)) as [st2 [|e]];
    cbn [fst]; [|apply catch_block_rest].
  pose proof (classify_rest (current ev st2) st2) as (Hl & Ho & Hd & _).
  destruct (classify (current ev st2) st2) as [st3 [|e]]; cbn [fst] in *.
  - now repeat split.
  - destruct (catch_block_rest line st3) as (Hl' & Ho' & Hd').
    rewrite Hl', Ho', Hd'. now repeat split.
Qed.

(** With an observer, the record of its calls grows by the event of the
    line, as decoded; without one, no call is made. *)
Lemma process_line_delivered st line :
  delivered (process_line st line)
  = delivered st ++ match onEvent with
                    | Some _ => one (frame line)
                    | None => []
                    end.
Proof.
  destruct (frame line) as [ev|] eqn:F.
  - destruct (process_line_after_call st _ F) as (_ & _ & ->).
    rewrite call_onEvent_delivered. reflexivity.
  - rewrite (process_line_no_frame st _ F).
    destruct (is_data_line line);
      [destruct (catch_block_rest line st) as (_ & _ & ->)|];
      destruct onEvent; now rewrite app_nil_r.
Qed.

(** The log grows by exactly one object on a line with an event. *)
Lemma process_line_length st line :
  List.length (l_events (process_line st line))
  = List.length (l_events st ++ one (frame line)).
Proof.
  destruct (frame line) as [ev|] eqn:F.
  - destruct (process_line_after_call st _ F) as (-> & _ & _).
    rewrite call_onEvent_length. reflexivity.
  - rewrite (process_line_no_frame st _ F), app_nil_r.
    destruct (is_data_line line); [|reflexivity].
    now destruct (catch_block_rest line st) as (-> & _ & _).
Qed.

(** ... by the event itself when the observer only reads. *)
Lemma process_line_events st line :
  reads_only onEvent ->
  l_events (process_line st line) = l_events st ++ one (frame line).
Proof.
  intros Hr. destruct (frame line) as [ev|] eqn:F.
  - destruct (process_line_after_call st _ F) as (-> & _ & _).
    apply call_onEvent_alone. unfold only_reads_on, reads_only in *.
    destruct onEvent; [apply Hr|exact I].
  - rewrite (process_line_no_frame st _ F), app_nil_r.
    destruct (is_data_line line); [|reflexivity].
    now destruct (catch_block_rest line st) as (-> & _ & _).
Qed.

Lemma process_lines_events st lines :
  reads_only onEvent ->
  l_events (process_lines st lines) = l_events st ++ frames lines.
Proof.
  intros Hr. revert st. induction lines as [|l ls IH]; intros st.
  - cbn. now rewrite app_nil_r.
  - cbn [ThreadsResource.process_lines fold_left].
    fold (process_lines (process_line st l) ls).
    rewrite IH, process_line_events, <- app_assoc by exact Hr. f_equal.
    cbn [Stream.frames]. now destruct (frame l).
Qed.

Lemma process_lines_length st lines :
  List.length (l_events (process_lines st lines))
  = List.length (l_events st ++ frames lines).
Proof.
  revert st. induction lines as [|l ls IH]; intros st.
  - cbn. now rewrite app_nil_r.
  - cbn [ThreadsResource.process_lines fold_left].
    fold (process_lines (process_line st l) ls).
    rewrite IH, !length_app, process_line_length, length_app.
    cbn [Stream.frames]. destruct (frame l); cbn; lia.
Qed.

Lemma process_lines_delivered st lines :
  delivered (process_lines st lines)
  = delivered st ++ match onEvent with
                    | Some _ => frames lines
                    | None => []
                    end.
Proof.
  revert st. induction lines as [|l ls IH]; intros st.
  - cbn. destruct onEvent; now rewrite app_nil_r.
  - cbn [ThreadsResource.process_lines fold_left].
    fold (process_lines (process_line st l) ls).
    rewrite IH, process_line_delivered, <- app_assoc. f_equal.
    cbn [Stream.frames]. destruct onEvent; [|reflexivity].
    now destruct (frame l).
Qed.

(** What a line with an event does to the two captures: the call of the
    observer first, then the classification of the event as it is by then,
    unless the call threw. *)
Lemma process_line_captures st line ev :
  frame line = Some ev ->
  finalContent (process_line st line)
  = (let st2 := fst (call_onEvent onEvent ev (push_event ev st)) in
     match snd (call_onEvent onEvent ev (push_event ev st)) with
     | Normal =>
         if type_is "response.completed" (current ev st2)
         then or_else (content_of (current ev st2)) (JStr [])
         else finalContent st2
     | Abrupt _ => finalContent st2
     end)
  /\ runDetails (process_line st line)
     = (let st2 := fst (call_onEvent onEvent ev (push_event ev st)) in
        match snd (call_onEvent onEvent ev (push_event ev st)) with
        | Normal =>
            if type_is "stream.completed" (current ev st2)
            then run_of (current ev st2)
            else runDetails st2
        | Abrupt _ => runDetails st2
        end).
Proof.
  intros F. rewrite (process_line_frame st _ F).
  destruct (call_onEvent onEvent ev (push_event ev st)) as [st2 [|e]];
    cbn [fst snd]; cbv zeta;
    [|now rewrite catch_block_content, catch_block_run].
  rewrite classify_cases.
  destruct (type_is "response.completed" (current ev st2)) eqn:Erc.
  - destruct (type_is "stream.completed" (current ev st2)) eqn:Esc;
      [|now split].
    pose proof (type_is_exclusive _ _ _ Erc Esc) as H. discriminate H.
  - destruct (type_is "stream.completed" (current ev st2)); [now split|].
    destruct (type_is "stream.error" (current ev st2));
      [now rewrite catch_block_content, catch_block_run|].
    destruct (get (current ev st2) (lit "type")); [now split|].
    now rewrite catch_block_content, catch_block_run.
Qed.

(** A line without an event leaves everything but the console. *)
Lemma process_line_skips st line :
  frame line = None ->
  l_events (process_line st line) = l_events st
  /\ observer (process_line st line) = observer st
  /\ delivered (process_line st line) = delivered st
  /\ finalContent (process_line st line) = finalContent st
  /\ runDetails (process_line st line) = runDetails st.
Proof.
  intros F. rewrite (process_line_no_frame st _ F).
  destruct (is_data_line line); [|now repeat split].
  destruct (catch_block_rest line st) as (-> & -> & ->).
  now rewrite catch_block_content, catch_block_run.
Qed.


Lemma never_throws_normal ev (st : locals O) :
  never_throws onEvent -> snd (call_onEvent onEvent ev st) = Normal.
Proof.
  intros Hq. rewrite call_onEvent_completion.
  unfold never_throws in Hq. destruct onEvent; [apply Hq|reflexivity].
Qed.

Lemma reads_only_on ev (o : O) :
  reads_only onEvent -> only_reads_on onEvent o ev.
Proof.
  unfold reads_only, only_reads_on. destruct onEvent; [|trivial].
  intros H. apply H.
Qed.

Lemma current_alone ev (st : locals O) :
  only_reads_on onEvent (observer st) ev ->
  current ev (fst (call_onEvent onEvent ev (push_event ev st))) = ev.
Proof.
  rewrite current_after_call. unfold only_reads_on.
  destruct onEvent as [f|]; [|reflexivity].
  intros (H & _ & _). apply H.
Qed.

(** What the classification captures from one line when the observer
    returns and has only read. *)
Lemma process_line_content st line :
  never_throws onEvent -> reads_only onEvent ->
  finalContent (process_line st line)
  = match frame line with
    | Some ev => if type_is "response.completed" ev
                 then or_else (content_of ev) (JStr [])
                 else finalContent st
    | None => finalContent st
    end.
Proof.
  intros Hq Hr. destruct (frame line) as [ev|] eqn:F.
  - destruct (process_line_captures st _ F) as [-> _]. cbv zeta.
    rewrite never_throws_normal by exact Hq.
    rewrite current_alone by now apply reads_only_on.
    destruct (call_onEvent_alone ev (push_event ev st)) as (_ & -> & _);
      [now apply reads_only_on|reflexivity].
  - now apply process_line_skips.
Qed.


(** *** The events as the classification reads them *)









End Step.
End LineStepFacts.

(** ** Whole streams *)

Module StreamFacts.
Import JS Effects ApiClient ThreadsResource Stream StreamMore.
Import LineFacts LoopFacts LineStepFacts.

(** The sample observers that only read. *)
Lemma untouched_alone : leaves_alone untouched.
Proof.
  unfold leaves_alone, untouched, mutate. cbn.
  repeat split; intros; now destruct (is_primitive v).
Qed.

Lemma counting_reads_only : reads_only (Some Samples.counting).
Proof. intros n ev. apply untouched_alone. Qed.

Lemma throwing_reads_only : reads_only (Some Samples.throwing).
Proof. intros n ev. apply untouched_alone. Qed.

Section Whole.
Variable JSON_parse : jsstring -> option JSValue.
Variable O : Type.
Variable onEvent : option (StreamEventCallback O).

Local Abbreviation process_line := (process_line JSON_parse onEvent).
Local Abbreviation process_lines := (process_lines JSON_parse onEvent).
Local Abbreviation frame := (frame JSON_parse).
Local Abbreviation frames := (frames JSON_parse).
Local Abbreviation consume := (consume JSON_parse onEvent).
Local Abbreviation stream_events := (stream_events JSON_parse).

Lemma process_lines_last st ls l :
  process_lines st (ls ++ [l]) = process_line (process_lines st ls) l.
Proof. now rewrite process_lines_app. Qed.

Lemma last_content_snoc evs ev :
  last_content (evs ++ [ev])
  = if type_is "response.completed" ev then content_of ev
    else last_content evs.
Proof.
  unfold last_content. rewrite rev_app_distr. cbn [rev app find].
  now destruct (type_is "response.completed" ev).
Qed.


(** With an observer that returns and only reads, the captured content is
    that of the last [response.completed] of the lines read so far. *)
Lemma content_of_lines o lines :
  never_throws onEvent -> reads_only onEvent ->
  forallb well_formed (frames lines) = true ->
  finalContent (process_lines (start o) lines) = last_content (frames lines).
Proof.
  intros Hq Hr. induction lines as [|l ls IH] using rev_ind; intros Hwf.
  - reflexivity.
  - rewrite process_lines_last, process_line_content by assumption.
    rewrite frames_last in *. rewrite forallb_app in Hwf.
    apply andb_prop in Hwf. destruct Hwf as [Hls Hl].
    destruct (frame l) as [ev|]; cbn [one] in *.
    + rewrite last_content_snoc.
      destruct (type_is "response.completed" ev) eqn:E; [|now apply IH].
      apply or_else_string, well_formed_content; [|exact E].
      cbn in Hl. now rewrite andb_true_r in Hl.
    + rewrite app_nil_r. now apply IH.
Qed.


(** Where [consume] stands when the reads stop. *)
Lemma consume_at_end o r b :
  body r = Some b ->
  at_end (consume o r)
  = process_lines (start o)
      (complete_lines (decoded_text (List.concat (chunks b)))).
Proof.
  intros Hb. unfold ThreadsResource.consume. rewrite Hb.
  rewrite read_all_enter. now destruct (ending b).
Qed.

(** A body that closes makes [consume] return: nothing that happens inside
    the loop can make it throw. *)
Lemma consume_closed o r b :
  body r = Some b -> ending b = Closed ->
  consume o r
  = let st := process_lines (start o)
                (complete_lines (decoded_text (List.concat (chunks b)))) in
    {| outcome := Returns {| content := finalContent st;
                             run := runDetails st;
                             events := l_events st |};
       released := true; at_end := st |}.
Proof.
  intros Hb He. unfold ThreadsResource.consume. rewrite Hb, He.
  now rewrite read_all_enter.
Qed.

Lemma consume_events o r b :
  body r = Some b -> reads_only onEvent ->
  l_events (at_end (consume o r)) = stream_events (chunks b).
Proof.
  intros Hb Hr. rewrite (consume_at_end o _ Hb), process_lines_events.
  - reflexivity.
  - exact Hr.
Qed.

Lemma consume_length o r b :
  body r = Some b ->
  List.length (l_events (at_end (consume o r)))
  = List.length (stream_events (chunks b)).
Proof.
  intros Hb. rewrite (consume_at_end o _ Hb), process_lines_length.
  reflexivity.
Qed.

Lemma consume_delivered o r b :
  body r = Some b ->
  delivered (at_end (consume o r))
  = match onEvent with Some _ => stream_events (chunks b) | None => [] end.
Proof.
  intros Hb. rewrite (consume_at_end o _ Hb), process_lines_delivered.
  now destruct onEvent.
Qed.

End Whole.

(** *** Claim C4 *)

(** C4. The events do not depend on where the chunk boundaries fall: two
    bodies that carry the same bytes and end the same way give the same run
    of [sendMessage] on the response, whatever the cut into chunks. After
    any number of chunks the lines that a line feed has closed have gone
    through [process_line] once each, in order, and the text after the last
    line feed waits in the buffer, unparsed. The events handed to the
    observer are the frames of the closed lines, and so are the objects of
    the log, one for one: they are those frames as decoded unless the
    observer has written to them. *)
Theorem chunk_boundaries_are_invisible
    (JSON_parse : jsstring -> option JSValue) (O : Type)
    (onEvent : option (StreamEventCallback O)) (o : O)
    (r1 r2 : Response) (b1 b2 : Body) :
  body r1 = Some b1 -> body r2 = Some b2 ->
  ending b1 = ending b2 ->
  List.concat (chunks b1) = List.concat (chunks b2) ->
  consume JSON_parse onEvent o r1 = consume JSON_parse onEvent o r2
  /\ (forall cs,
        vars (read_all JSON_parse onEvent (enter o) cs)
        = process_lines JSON_parse onEvent (start o)
            (complete_lines (decoded_text (List.concat cs)))
        /\ buffer (read_all JSON_parse onEvent (enter o) cs)
           = last (split_nl (decoded_text (List.concat cs))) [])
  /\ delivered (at_end (consume JSON_parse onEvent o r1))
     = match onEvent with
       | Some _ =>
           frames JSON_parse
             (complete_lines (decoded_text (List.concat (chunks b1))))
       | None => []
       end
  /\ List.length (l_events (at_end (consume JSON_parse onEvent o r1)))
     = List.length
         (frames JSON_parse
            (complete_lines (decoded_text (List.concat (chunks b1)))))
  /\ (reads_only onEvent ->
      l_events (at_end (consume JSON_parse onEvent o r1))
      = frames JSON_parse
          (complete_lines (decoded_text (List.concat (chunks b1))))).
Proof.
  intros H1 H2 He Hc. split; [|split; [|split; [|split]]].
  - unfold consume. rewrite H1, H2, <- He.
    rewrite !read_all_enter, Hc. reflexivity.
  - intros cs. split; [apply read_all_enter|].
    rewrite read_all_spec by reflexivity. unfold decoded_text.
    cbn [enter decoder buffer app].
    now destruct (TextDecoder.decode TextDecoder.init (List.concat cs)).
  - now apply consume_delivered.
  - now apply consume_length.
  - intros Hr. now apply consume_events.
Qed.

(** The frame of the specification, cut in the middle of its line, against
    the same bytes in one chunk. *)
Lemma chunk_boundaries_are_invisible_witness :
  List.concat Samples.split_frame
  = List.concat [List.concat Samples.split_frame]
  /\ consume JSON.parse (Some Samples.counting) 0%nat
       (Samples.streaming Samples.split_frame Closed)
     = consume JSON.parse (Some Samples.counting) 0%nat
         (Samples.streaming [List.concat Samples.split_frame] Closed)
  /\ l_events (at_end (consume JSON.parse (Some Samples.counting) 0%nat
                         (Samples.streaming Samples.split_frame Closed)))
     = [Samples.ev_started].
Proof.
  split; [reflexivity|].
  destruct (@chunk_boundaries_are_invisible JSON.parse nat
              (Some Samples.counting) 0%nat
              (Samples.streaming Samples.split_frame Closed)
              (Samples.streaming [List.concat Samples.split_frame] Closed)
              {| chunks := Samples.split_frame; ending := Closed |}
              {| chunks := [List.concat Samples.split_frame];
                 ending := Closed |}
              eq_refl eq_refl eq_refl eq_refl) as (H & _ & _ & _ & Hev).
  split; [exact H|]. rewrite (Hev counting_reads_only).
  vm_compute. reflexivity.
Defined.

End StreamFacts.

(** ** The aggregator *)

Module AggregatorFacts.
Import JS Effects ApiClient ThreadsResource Stream StreamMore.
Import LineFacts LoopFacts LineStepFacts StreamFacts.


(** *** Claim C3 *)




(** *** Claim C9 *)

(** C9 fails with an observer that rewrites the discriminator of the event
    it is handed, here [(event) => { event.type = 'response.completed'; }]
    on a stream of one event whose discriminator, [note], is none of the
    classified ones. The event is logged, and delivered as decoded; the
    classification then reads [data.type] on the same object and captures
    the content of the event. *)
Lemma rewritten_discriminator_is_classified :
  stream_events JSON.parse [Samples.note] = [Samples.ev_note]
  /\ unrecognized Samples.ev_note = true
  /\ never_throws (Some Samples.promoting)
  /\ delivered (at_end (consume JSON.parse (Some Samples.promoting) 0%nat
                          (Samples.streaming [Samples.note] Closed)))
     = [Samples.ev_note]
  /\ finalContent (start 0%nat) = JStr []
  /\ outcome (consume JSON.parse (Some Samples.promoting) 0%nat
                (Samples.streaming [Samples.note] Closed))
     = Returns {| content := JStr (lit "X");
                  run := JUndefined;
                  events := [Samples.promote Samples.ev_note] |}.
Proof.
  split; [vm_compute; reflexivity|].
  split; [vm_compute; reflexivity|].
  split; [intros n ev; reflexivity|].
  split; [vm_compute; reflexivity|].
  split; vm_compute; reflexivity.
Qed.

(** C9, amended. Every decoded event is appended to the log and, when an
    observer was supplied, handed to it once, as decoded and in wire order,
    before the next line is looked at: after any prefix of the lines the
    record of
    the observer's calls is exactly the events of that prefix, the log has
    one object for each of them (the events themselves when the observer
    only reads), and so it is at the end of the stream. On a line with an
    event the log is the old one with the event pushed, as the call of the
    observer left its objects. An event whose discriminator, when the
    classification reads it after the call, is not one of the three
    classified ones is logged and delivered like any other and nothing is
    captured from it: the captured content and run stay as the call left
    them, which is as they were when the call only read. *)
Theorem events_logged_and_delivered_in_order
    (JSON_parse : jsstring -> option JSValue) (O : Type)
    (onEvent : option (StreamEventCallback O)) (o : O)
    (r : Response) (b : Body) :
  body r = Some b ->
  (delivered (at_end (consume JSON_parse onEvent o r))
   = match onEvent with
     | Some _ => stream_events JSON_parse (chunks b)
     | None => []
     end
   /\ List.length (l_events (at_end (consume JSON_parse onEvent o r)))
      = List.length (stream_events JSON_parse (chunks b))
   /\ (reads_only onEvent ->
       l_events (at_end (consume JSON_parse onEvent o r))
       = stream_events JSON_parse (chunks b))
   /\ (ending b = Closed ->
       exists c rn,
         outcome (consume JSON_parse onEvent o r)
         = Returns {| content := c; run := rn;
                      events := l_events
                                  (at_end (consume JSON_parse onEvent o r)) |}))
  /\ (forall st l1 l2,
        process_lines JSON_parse onEvent st (l1 ++ l2)
        = process_lines JSON_parse onEvent
            (process_lines JSON_parse onEvent st l1) l2
        /\ delivered (process_lines JSON_parse onEvent st l1)
           = delivered st ++ match onEvent with
                             | Some _ => frames JSON_parse l1
                             | None => []
                             end
        /\ List.length (l_events (process_lines JSON_parse onEvent st l1))
           = List.length (l_events st ++ frames JSON_parse l1)
        /\ (reads_only onEvent ->
            l_events (process_lines JSON_parse onEvent st l1)
            = l_events st ++ frames JSON_parse l1))
  /\ (forall st line ev,
        frame JSON_parse line = Some ev ->
        l_events (process_line JSON_parse onEvent st line)
        = match onEvent with
          | Some f =>
              mutate_from 0 (on_logged (snd (fst (f (observer st) ev))))
                (l_events st ++ [ev])
          | None => l_events st ++ [ev]
          end
        /\ delivered (process_line JSON_parse onEvent st line)
           = delivered st ++ match onEvent with
                             | Some _ => [ev]
                             | None => []
                             end
        /\ observer (process_line JSON_parse onEvent st line)
           = match onEvent with
             | Some f => fst (fst (f (observer st) ev))
             | None => observer st
             end
        /\ (unrecognized
              (current ev (fst (call_onEvent onEvent ev (push_event ev st))))
            = true ->
            finalContent (process_line JSON_parse onEvent st line)
            = finalContent (fst (call_onEvent onEvent ev (push_event ev st)))
            /\ runDetails (process_line JSON_parse onEvent st line)
               = runDetails (fst (call_onEvent onEvent ev (push_event ev st))))
        /\ (only_reads_on onEvent (observer st) ev ->
            l_events (process_line JSON_parse onEvent st line)
            = l_events st ++ [ev]
            /\ (unrecognized ev = true ->
                finalContent (process_line JSON_parse onEvent st line)
                = finalContent st
                /\ runDetails (process_line JSON_parse onEvent st line)
                   = runDetails st))).
Proof.
  intros Hb. split; [|split].
  - split; [now apply consume_delivered|].
    split; [now apply consume_length|].
    split; [intros Hr; now apply consume_events|].
    intros He. rewrite (consume_closed JSON_parse onEvent o _ Hb He).
    cbv zeta. cbn [outcome at_end]. do 2 eexists. reflexivity.
  - intros st l1 l2. split; [apply process_lines_app|].
    split; [apply process_lines_delivered|].
    split; [apply process_lines_length|apply process_lines_events].
  - intros st line ev F.
    destruct (process_line_after_call JSON_parse onEvent st _ F)
      as (Hl & Ho & Hd).
    destruct (process_line_captures JSON_parse onEvent st _ F) as [Hc Hr].
    cbv zeta in Hc, Hr.
    assert (Hun : unrecognized
                    (current ev
                       (fst (call_onEvent onEvent ev (push_event ev st))))
                  = true ->
                  finalContent (process_line JSON_parse onEvent st line)
                  = finalContent
                      (fst (call_onEvent onEvent ev (push_event ev st)))
                  /\ runDetails (process_line JSON_parse onEvent st line)
                     = runDetails
                         (fst (call_onEvent onEvent ev (push_event ev st)))).
    { unfold unrecognized. intros U.
      apply andb_prop in U. destruct U as [U _].
      apply andb_prop in U. destruct U as [Urc Usc].
      apply negb_true_iff in Urc, Usc. rewrite Urc in Hc. rewrite Usc in Hr.
      destruct (snd (call_onEvent onEvent ev (push_event ev st)));
        now split. }
    split.
    { rewrite Hl. unfold call_onEvent. destruct onEvent as [f|];
        [|reflexivity].
      cbn [observer push_event].
      now destruct (f (observer st) ev) as [[o' t] c]. }
    split; [now rewrite process_line_delivered, F|].
    split; [rewrite Ho, call_onEvent_observer; reflexivity|].
    split; [exact Hun|].
    intros Halone.
    destruct (call_onEvent_alone onEvent ev (push_event ev st) Halone)
      as (Hl2 & Hc2 & Hr2).
    cbn [push_event finalContent runDetails l_events] in Hl2, Hc2, Hr2.
    split; [now rewrite Hl, Hl2|].
    intros U. rewrite <- Hc2, <- Hr2. apply Hun.
    now rewrite current_alone.
Qed.

Lemma events_logged_and_delivered_in_order_witness :
  l_events (at_end (consume JSON.parse (Some Samples.counting) 0%nat
                      (Samples.streaming [Samples.hello] Closed)))
  = [Samples.ev_started; Samples.ev_item; Samples.ev_response;
     Samples.ev_completed]
  /\ delivered (at_end (consume JSON.parse (Some Samples.counting) 0%nat
                          (Samples.streaming [Samples.hello] Closed)))
     = [Samples.ev_started; Samples.ev_item; Samples.ev_response;
        Samples.ev_completed].
Proof.
  destruct (@events_logged_and_delivered_in_order JSON.parse nat
              (Some Samples.counting) 0%nat
              (Samples.streaming [Samples.hello] Closed)
              {| chunks := [Samples.hello]; ending := Closed |} eq_refl)
    as ((Hdel & _ & Hlog & _) & _).
  split; [rewrite (Hlog counting_reads_only)|rewrite Hdel];
    vm_compute; reflexivity.
Defined.

(** *** Claim C10 *)

(** C10. When the observer throws on an event, the exception lands in the
    [catch] block that also takes the JSON parse failures: the event stays in
    the log, the classification of that event is skipped so nothing is
    captured from it, at most one warning (the line) is written, the loop
    goes on with the next line, and a stream read to its close returns
    whatever the observer did. The log and the captures are then as the call
    left them before it threw: as they were, with the event pushed, when the
    call had only read. *)
Theorem throwing_observer_is_swallowed
    (JSON_parse : jsstring -> option JSValue) (O : Type)
    (f : StreamEventCallback O) (st : locals O) (line : jsstring)
    (ev : JSValue) (o' : O) (t : Touch) (e : JSError) :
  frame JSON_parse line = Some ev ->
  f (observer st) ev = (o', t, Abrupt e) ->
  process_line JSON_parse (Some f) st line
  = catch_block line (observed o' t ev (push_event ev st))
  /\ (forall st0 line0,
        is_data_line line0 = true -> JSON_parse (payload line0) = None ->
        process_line JSON_parse (Some f) st0 line0 = catch_block line0 st0)
  /\ l_events (process_line JSON_parse (Some f) st line)
     = mutate_from 0 (on_logged t) (l_events st ++ [ev])
  /\ finalContent (process_line JSON_parse (Some f) st line)
     = mutate (on_content t) (finalContent st)
  /\ runDetails (process_line JSON_parse (Some f) st line)
     = mutate (on_run t) (runDetails st)
  /\ delivered (process_line JSON_parse (Some f) st line)
     = delivered st ++ [ev]
  /\ (leaves_alone t ->
      l_events (process_line JSON_parse (Some f) st line) = l_events st ++ [ev]
      /\ finalContent (process_line JSON_parse (Some f) st line)
         = finalContent st
      /\ runDetails (process_line JSON_parse (Some f) st line)
         = runDetails st)
  /\ (warnings (process_line JSON_parse (Some f) st line) = warnings st
      \/ warnings (process_line JSON_parse (Some f) st line)
         = warnings st ++ [line])
  /\ (forall rest,
        process_lines JSON_parse (Some f) st (line :: rest)
        = process_lines JSON_parse (Some f)
            (process_line JSON_parse (Some f) st line) rest)
  /\ (forall o r b,
        body r = Some b -> ending b = Closed ->
        exists res,
          outcome (consume JSON_parse (Some f) o r) = Returns res
          /\ List.length (events res)
             = List.length (stream_events JSON_parse (chunks b))
          /\ (reads_only (Some f) ->
              events res = stream_events JSON_parse (chunks b))).
Proof.
  intros F Hf.
  assert (Hstep : process_line JSON_parse (Some f) st line
                  = catch_block line (observed o' t ev (push_event ev st))).
  { rewrite (process_line_frame _ _ st _ F). unfold call_onEvent.
    cbn [observer push_event]. rewrite Hf. reflexivity. }
  split; [exact Hstep|].
  split.
  { intros st0 line0 Hd Hp. rewrite process_line_no_frame.
    - now rewrite Hd.
    - unfold frame. now rewrite Hd. }
  rewrite Hstep.
  destruct (catch_block_rest line (observed o' t ev (push_event ev st)))
    as (-> & _ & ->).
  rewrite catch_block_content, catch_block_run.
  cbn [observed push_event l_events finalContent runDetails delivered].
  split; [reflexivity|]. split; [reflexivity|]. split; [reflexivity|].
  split; [reflexivity|].
  split.
  { intros (Hl & Hc & Hr). now rewrite mutate_from_alone, Hc, Hr. }
  split; [unfold catch_block; destruct (nonempty _); [right|left]; reflexivity|].
  split; [intros rest; rewrite <- Hstep; reflexivity|].
  intros o r b Hb He. rewrite (consume_closed JSON_parse (Some f) o _ Hb He).
  cbv zeta. cbn [outcome]. eexists. split; [reflexivity|].
  cbn [events]. split.
  - rewrite process_lines_length. reflexivity.
  - intros Hr. now apply process_lines_events.
Qed.

(** An observer that throws on every event, against the first frame of the
    end-to-end scenario and then against the whole of it. *)
Lemma throwing_observer_is_swallowed_witness :
  frame JSON.parse (Samples.text "data: {'type':'response.started'}")
  = Some Samples.ev_started
  /\ l_events (process_line JSON.parse (Some Samples.throwing) (start 0%nat)
                 (Samples.text "data: {'type':'response.started'}"))
     = [Samples.ev_started]
  /\ exists res,
       outcome (consume JSON.parse (Some Samples.throwing) 0%nat
                  (Samples.streaming [Samples.hello] Closed)) = Returns res
       /\ events res = stream_events JSON.parse [Samples.hello].
Proof.
  split; [vm_compute; reflexivity|].
  destruct (@throwing_observer_is_swallowed JSON.parse nat Samples.throwing
              (start 0%nat)
              (Samples.text "data: {'type':'response.started'}")
              Samples.ev_started 1%nat untouched
              (JsError (lit "Error") (JStr (lit "observer"))))
    as (_ & _ & _ & _ & _ & _ & Halone & _ & _ & Hend).
  - vm_compute. reflexivity.
  - reflexivity.
  - split; [exact (proj1 (Halone untouched_alone))|].
    destruct (Hend 0%nat (Samples.streaming [Samples.hello] Closed)
                {| chunks := [Samples.hello]; ending := Closed |}
                eq_refl eq_refl) as (res & Hres & _ & Hevs).
    exists res. split; [exact Hres|]. exact (Hevs throwing_reads_only).
Defined.

(** *** Claim C5 *)

(** A payload of one space is not empty and does not parse, yet nothing is
    reported: the [catch] block looks at the payload after [trim]. *)
Lemma blank_payload_gets_no_diagnostic :
  is_data_line (lit "data:  ") = true
  /\ payload (lit "data:  ") = [32%N]
  /\ payload (lit "data:  ") <> []
  /\ JSON.parse (payload (lit "data:  ")) = None
  /\ warnings (process_line JSON.parse (@None (StreamEventCallback unit))
                 (start tt) (lit "data:  ")) = []
  /\ process_line JSON.parse (@None (StreamEventCallback unit))
       (start tt) (lit "data:  ") = start tt.
Proof. repeat split; try (vm_compute; reflexivity). discriminate. Qed.

(** C5, amended. A [data: ] line whose payload does not parse is dropped:
    the log, the observer, the captured content and run are untouched, the
    loop goes on with the next line, and a stream read to its close returns.
    The line is reported exactly when the payload holds something other than
    white space; an empty or blank payload is dropped in silence. *)
Theorem malformed_payload_is_dropped
    (JSON_parse : jsstring -> option JSValue) (O : Type)
    (onEvent : option (StreamEventCallback O)) (st : locals O)
    (line : jsstring) :
  is_data_line line = true ->
  JSON_parse (payload line) = None ->
  l_events (process_line JSON_parse onEvent st line) = l_events st
  /\ delivered (process_line JSON_parse onEvent st line) = delivered st
  /\ observer (process_line JSON_parse onEvent st line) = observer st
  /\ finalContent (process_line JSON_parse onEvent st line) = finalContent st
  /\ runDetails (process_line JSON_parse onEvent st line) = runDetails st
  /\ warnings (process_line JSON_parse onEvent st line)
     = (if nonempty (trim (payload line)) then warnings st ++ [line]
        else warnings st)
  /\ (payload line = [] -> process_line JSON_parse onEvent st line = st)
  /\ (forall rest,
        process_lines JSON_parse onEvent st (line :: rest)
        = process_lines JSON_parse onEvent
            (process_line JSON_parse onEvent st line) rest)
  /\ (forall o r b,
        body r = Some b -> ending b = Closed ->
        exists res, outcome (consume JSON_parse onEvent o r) = Returns res).
Proof.
  intros Hd Hp.
  assert (Hstep : process_line JSON_parse onEvent st line
                  = catch_block line st).
  { rewrite process_line_no_frame; [now rewrite Hd|].
    unfold frame. now rewrite Hd. }
  assert (Hnext : forall rest,
            process_lines JSON_parse onEvent st (line :: rest)
            = process_lines JSON_parse onEvent
                (process_line JSON_parse onEvent st line) rest)
    by reflexivity.
  revert Hnext. rewrite Hstep. intros Hnext. unfold catch_block, payload in *.
  repeat split; try (destruct (nonempty (trim (slice 6 line))); reflexivity).
  - intros ->. reflexivity.
  - exact Hnext.
  - intros o r b Hb He. rewrite (consume_closed JSON_parse onEvent o _ Hb He).
    cbv zeta. cbn [outcome]. eexists. reflexivity.
Qed.

Lemma malformed_payload_is_dropped_witness :
  is_data_line (lit "data: {oops") = true
  /\ JSON.parse (payload (lit "data: {oops")) = None
  /\ warnings (process_line JSON.parse (Some Samples.counting) (start 0%nat)
                 (lit "data: {oops")) = [lit "data: {oops"]
  /\ l_events (process_line JSON.parse (Some Samples.counting) (start 0%nat)
                 (lit "data: {oops")) = [].
Proof.
  split; [reflexivity|]. split; [vm_compute; reflexivity|].
  destruct (@malformed_payload_is_dropped JSON.parse nat
              (Some Samples.counting) (start 0%nat) (lit "data: {oops"))
    as (Hlog & _ & _ & _ & _ & Hwarn & _).
  - reflexivity.
  - vm_compute. reflexivity.
  - split; [rewrite Hwarn; vm_compute; reflexivity|exact Hlog].
Defined.

(** *** Claim C1 *)

(** C1 fails on the code. The [throw] for a [stream.error] event sits inside
    the [try] whose [catch] takes the parse failures, so it never leaves the
    loop: on a stream with a [stream.error] frame followed by a
    [response.completed] frame, [sendMessage] returns, the later frame has
    been processed (it set the content), and the error line went to
    [console.warn]. *)
Theorem stream_error_does_not_raise :
  outcome (sendMessage JSON.parse Built 60000
             (@None (StreamEventCallback unit)) None tt
             (Resolves 120 (Samples.streaming [Samples.error_then_more] Closed)))
  = Returns {| content := JStr (lit "late");
               run := JUndefined;
               events := [Samples.ev_started; Samples.ev_error;
                          Samples.ev_late] |}
  /\ warnings (at_end (sendMessage JSON.parse Built 60000
                         (@None (StreamEventCallback unit)) None tt
                         (Resolves 120
                            (Samples.streaming [Samples.error_then_more]
                               Closed))))
     = [Samples.text
          "data: {'type':'stream.error','error':'E','message':'boom'}"].
Proof. split; vm_compute; reflexivity. Qed.

End AggregatorFacts.

(** ** The transport *)

Module TransportFacts.
Import JS Effects ApiClient ThreadsResource Stream StreamMore.
Local Open Scope Z_scope.

(** The message of an error of the platform converts to itself. *)
Lemma message_from_string m :
  is_string m = true -> message_from m = Some (match m with
                                               | JStr s => s
                                               | _ => []
                                               end).
Proof. now destruct m. Qed.

(** An [ApiClientError] built from a string is that error. *)
Lemma throw_ApiClientError_string s status code :
  throw_ApiClientError (JStr s) status code
  = ApiClientError (JStr s) status code JUndefined.
Proof. reflexivity. Qed.

(** What [request] throws for a failure of the platform comes out of its
    [catch] block as an [ApiClientError]. *)
Lemma on_catch_uniform delay e :
  match e with
  | JsError _ m => is_string m = true
  | _ => True
  end ->
  uniform (on_catch delay e) = true.
Proof.
  destruct e as [m s c d|name m|v]; unfold on_catch; intros H;
    [reflexivity| |reflexivity].
  destruct (jsstring_eqb name (lit "AbortError")); [reflexivity|].
  unfold throw_ApiClientError, new_ApiClientError.
  now rewrite (message_from_string _ H).
Qed.

(** What [parseError] and the [try] block throw by themselves. *)
Lemma parseError_string r e :
  parseError r = Throws e ->
  e = type_error \/ e = cannot_convert.
Proof.
  unfold parseError. destruct (json r) as [j|]; [|discriminate].
  destruct (get _ (lit "message")); [|intros H; inversion H; now left].
  destruct (get _ (lit "error")); [|intros H; inversion H; now left].
  destruct (get _ (lit "code")); [|intros H; inversion H; now left].
  destruct (get _ (lit "details")); [|intros H; inversion H; now left].
  unfold new_ApiClientError. destruct (message_from _); [discriminate|].
  intros H; inversion H. now right.
Qed.

Lemma parseError_uniform r e : parseError r = Returns e -> uniform e = true.
Proof.
  unfold parseError. destruct (json r) as [j|]; [|discriminate].
  destruct (get _ (lit "message")); [|discriminate].
  destruct (get _ (lit "error")); [|discriminate].
  destruct (get _ (lit "code")); [|discriminate].
  destruct (get _ (lit "details")); [|discriminate].
  unfold new_ApiClientError. destruct (message_from _); [|discriminate].
  intros H; inversion H. reflexivity.
Qed.

(** Once its URL is built, whatever [request] throws for a network whose
    failures are the platform's is an [ApiClientError]. *)
Lemma request_throws_uniform this_timeout timeout stream net e :
  platform_net net = true ->
  request Built this_timeout timeout stream net = Throws e ->
  uniform e = true.
Proof.
  unfold request, await_fetch, platform_net. intros Hp.
  assert (Habort : forall d, uniform (on_catch d abort_error) = true)
    by reflexivity.
  assert (Hown : forall d r e0,
            throw_parseError r = Throws e0 -> uniform (on_catch d e0) = true).
  { intros d r e0. unfold throw_parseError.
    destruct (parseError r) as [e1|e1|] eqn:E; [| |discriminate];
      intros H; inversion H; subst e1.
    - pose proof (parseError_uniform _ E). now destruct e0.
    - destruct (parseError_string _ E) as [-> | ->]; reflexivity. }
  destruct net as [t r|t e0|].
  - destruct (t <? _); [|intros H; inversion H; apply Habort].
    unfold on_response.
    destruct stream.
    + destruct (negb (ok r)); [|discriminate].
      destruct (throw_parseError r) as [x|e1|] eqn:E; try discriminate.
      intros H; inversion H. now apply (Hown _ r).
    + destruct (negb (ok r)).
      * destruct (throw_parseError r) as [x|e1|] eqn:E; try discriminate.
        intros H; inversion H. now apply (Hown _ r).
      * destruct (status r =? 204); [discriminate|].
        destruct (json r) as [[v|e1]|]; try discriminate.
        intros H; inversion H. apply on_catch_uniform.
        unfold platform_error in Hp. now destruct e1.
  - destruct (t <? _); intros H; inversion H; [|apply Habort].
    apply on_catch_uniform. unfold platform_error in Hp. now destruct e0.
  - intros H; inversion H. apply Habort.
Qed.

(** A URL that cannot be built is a bare TypeError, and nothing else
    happens. *)
Lemma request_invalid_url this_timeout timeout stream net :
  request Invalid this_timeout timeout stream net = Throws invalid_url.
Proof. reflexivity. Qed.

(** With [stream: true] what [request] returns is the response itself, and
    its status is in the 2xx range. *)
Lemma request_stream_reply url this_timeout timeout net reply :
  request url this_timeout timeout true net = Returns reply ->
  exists r, reply = StreamReply r /\ ok r = true.
Proof.
  unfold request. destruct url; [|discriminate].
  destruct (await_fetch _ net) as [r|e0]; [|discriminate].
  unfold on_response. destruct (ok r) eqn:E; cbn [negb].
  - intros H. inversion H. now exists r.
  - unfold throw_parseError. destruct (parseError r); discriminate.
Qed.

(** A streamed [request] stays pending only on the body of an error
    response that is never read to its end. *)
Lemma request_stream_pending url this_timeout timeout net :
  request url this_timeout timeout true net = Pending ->
  exists t r, net = Resolves t r /\ ok r = false /\ json r = None.
Proof.
  unfold request. destruct url; [|discriminate].
  unfold await_fetch. destruct net as [t r|t e0|]; try discriminate;
    [|destruct (t <? _); discriminate].
  destruct (t <? _); [|discriminate].
  unfold on_response. destruct (ok r) eqn:E; cbn [negb]; [discriminate|].
  unfold throw_parseError, parseError.
  destruct (json r) as [j|] eqn:J;
    [|intros _; exists t, r; repeat split; assumption].
  destruct (get _ (lit "message")); [|discriminate].
  destruct (get _ (lit "error")); [|discriminate].
  destruct (get _ (lit "code")); [|discriminate].
  destruct (get _ (lit "details")); [|discriminate].
  destruct (new_ApiClientError _ _ _ _); discriminate.
Qed.

(** A fetch that has not settled when the timer fires is aborted, and the
    abort surfaces as the 408 [TIMEOUT] error that names the delay asked
    for. *)
Lemma request_times_out this_timeout d stream net :
  match net with
  | Resolves t _ | Rejects t _ => timer_delay d <= t
  | Never => True
  end ->
  request Built this_timeout (Some d) stream net
  = Throws (ApiClientError
              (JStr (lit "Request timeout after " ++ number_to_string d
                     ++ lit "ms"))
              408 (JStr (lit "TIMEOUT")) JUndefined).
Proof.
  unfold request, await_fetch. intros H.
  destruct net as [t r|t e|]; try (apply Z.ltb_ge in H; rewrite H);
    reflexivity.
Qed.

(** A fetch that rejects on its own before the timer fires, with an error
    that is neither an [ApiClientError] nor an abort, surfaces as 500
    [NETWORK_ERROR] with the message of that error. *)
Lemma request_network_error this_timeout d stream t name m :
  t < timer_delay d -> name <> lit "AbortError" ->
  request Built this_timeout (Some d) stream (Rejects t (JsError name (JStr m)))
  = Throws (ApiClientError (JStr m) 500 (JStr (lit "NETWORK_ERROR"))
              JUndefined).
Proof.
  unfold request, await_fetch, on_catch. intros H Hn.
  apply Z.ltb_lt in H. rewrite H.
  destruct (jsstring_eqb name (lit "AbortError")) eqn:E; [|reflexivity].
  apply LineFacts.jsstring_eqb_eq in E. contradiction.
Qed.

(** Once the headers are in, the timer is cleared: a body that stalls leaves
    [sendMessage] waiting, whatever the deadline was. *)
Lemma stalled_body_never_settles
    (JSON_parse : jsstring -> option JSValue) (O : Type)
    (onEvent : option (StreamEventCallback O)) (o : O)
    this_timeout d t cs :
  t < timer_delay d ->
  outcome (sendMessage JSON_parse Built this_timeout onEvent (Some d) o
             (Resolves t (Samples.streaming cs Stalled))) = Pending
  /\ released (sendMessage JSON_parse Built this_timeout onEvent (Some d) o
                 (Resolves t (Samples.streaming cs Stalled))) = false.
Proof.
  intros H. apply Z.ltb_lt in H.
  unfold sendMessage, request, await_fetch, timeout_or_default. rewrite H.
  split; reflexivity.
Qed.

(** *** Claim C2 *)

(** C2 fails on the code. With a deadline of 50 ms, a server that sends its
    headers after 1 ms and then never completes the body leaves [sendMessage]
    pending for ever: no error is raised and [reader.releaseLock()] does not
    run, because [request] clears its timer as soon as [fetch] resolves. The
    deadline does hold while the headers are awaited: when they never come,
    the 408 [TIMEOUT] error is raised. *)
Theorem deadline_stops_at_the_headers :
  sendMessage JSON.parse Built 60000 (@None (StreamEventCallback unit))
    (Some 50) tt (Resolves 1 (Samples.streaming [] Stalled))
  = {| outcome := Pending; released := false; at_end := start tt |}
  /\ sendMessage JSON.parse Built 60000 (@None (StreamEventCallback unit))
       (Some 50) tt (Resolves 1 (Samples.streaming [Samples.hello] Stalled))
     = {| outcome := Pending; released := false;
          at_end := {| l_events := [Samples.ev_started; Samples.ev_item;
                                    Samples.ev_response; Samples.ev_completed];
                       finalContent := JStr (lit "Hi");
                       runDetails := Samples.run_1;
                       warnings := []; observer := tt; delivered := [] |} |}
  /\ outcome (sendMessage JSON.parse Built 60000
                (@None (StreamEventCallback unit))
                (Some 50) tt Never)
     = Throws (ApiClientError (JStr (lit "Request timeout after 50ms")) 408
                 (JStr (lit "TIMEOUT")) JUndefined).
Proof. repeat split; vm_compute; reflexivity. Qed.

(** *** Claim C6 *)

(** C6 fails on the code. Two failures reach the caller of [sendMessage] as
    bare errors with neither [status] nor [code]: a streamed response
    without a body raises [new Error('No response body')], and a connection
    that breaks while the body is read raises whatever [read()] rejected
    with. What [request] raises from its [try] block is uniform: the
    deadline gives 408 [TIMEOUT] with the delay in the message, a failed
    fetch 500 [NETWORK_ERROR]. The URL is built before that block, and a
    base URL that does not parse is a third bare error. *)
Theorem bare_errors_reach_the_caller :
  outcome (sendMessage JSON.parse Built 60000
             (@None (StreamEventCallback unit))
             None tt (Resolves 1 Samples.bodiless))
  = Throws (JsError (lit "Error") (JStr (lit "No response body")))
  /\ uniform (JsError (lit "Error") (JStr (lit "No response body"))) = false
  /\ status_of (JsError (lit "Error") (JStr (lit "No response body"))) = None
  /\ code_of (JsError (lit "Error") (JStr (lit "No response body"))) = None
  /\ outcome (sendMessage JSON.parse Built 60000
                (@None (StreamEventCallback unit))
                None tt
                (Resolves 1
                   (Samples.streaming [Samples.hello]
                      (Errored (JsError (lit "TypeError")
                                  (JStr (lit "terminated")))))))
     = Throws (JsError (lit "TypeError") (JStr (lit "terminated")))
  /\ outcome (sendMessage JSON.parse Built 60000
                (@None (StreamEventCallback unit))
                None tt Never)
     = Throws (ApiClientError (JStr (lit "Request timeout after 600000ms"))
                 408 (JStr (lit "TIMEOUT")) JUndefined)
  /\ outcome (sendMessage JSON.parse Built 60000
                (@None (StreamEventCallback unit))
                None tt
                (Rejects 3 (JsError (lit "TypeError")
                              (JStr (lit "fetch failed")))))
     = Throws (ApiClientError (JStr (lit "fetch failed")) 500
                 (JStr (lit "NETWORK_ERROR")) JUndefined)
  /\ outcome (sendMessage JSON.parse Invalid 60000
                (@None (StreamEventCallback unit)) None tt Never)
     = Throws invalid_url
  /\ uniform invalid_url = false.
Proof. repeat split; vm_compute; reflexivity. Qed.

End TransportFacts.

(** ** The orchestrator *)

Module ClientFacts.
Import JS Effects ApiClient ComputerAgentsClient.

Lemma given_nonempty x s : given x = Some s -> x = Some s /\ s <> [].
Proof.
  unfold given. destruct x as [t|]; [|discriminate].
  destruct t; cbn; [discriminate|]. intros H. inversion H. now split.
Qed.

Section Orchestrator.
Variable JSON_parse : jsstring -> option JSValue.
Variable O : Type.
Variable S : Type.
Variable environments_list : S -> S * Outcome (list Environment).
Variable environments_create :
  CreateEnvironmentParams -> S -> S * Outcome Environment.
Variable threads_create : CreateThreadParams -> S -> S * Outcome Thread.
Variable messages_post : jsstring -> jsstring -> JSValue -> S -> S * Fetch.
Variable new_URL : jsstring -> URL.

Local Abbreviation resolve_environmentId :=
  (@resolve_environmentId O S environments_list environments_create).
Local Abbreviation resolve_threadId :=
  (@resolve_threadId O S threads_create).
Local Abbreviation threads_sendMessage :=
  (@threads_sendMessage JSON_parse O S messages_post new_URL).
Local Abbreviation run :=
  (@run JSON_parse O S environments_list environments_create threads_create
     messages_post new_URL).

Lemma bind_returns A B (m : M O S A) (k : A -> M O S B) w w' b :
  bind m k w = (w', Returns b) ->
  exists w1 a, m w = (w1, Returns a) /\ k a w1 = (w', Returns b).
Proof.
  unfold bind. destruct (m w) as [w1 [a|e|]]; try discriminate.
  intros H. now exists w1, a.
Qed.

(** The calls that resolving the environment adds to the journal: none, or
    one listing, or one listing and one creation; never a thread. *)
Lemma resolve_environmentId_journal options w :
  exists j,
    journal (fst (resolve_environmentId options w)) = journal w ++ j
    /\ (j = [] \/ j = [ListEnvironments]
        \/ j = [ListEnvironments; CreateEnvironment default_params]).
Proof.
  unfold ComputerAgentsClient.resolve_environmentId.
  destruct (given (opt_environmentId options)).
  { exists []. cbn. rewrite app_nil_r. auto. }
  unfold _ensureDefaultEnvironment.
  destruct (given (_defaultEnvironmentId w)).
  { exists []. cbn. rewrite app_nil_r. auto. }
  unfold resolve_default, bind, call, set_default, ret.
  destruct (environments_list (service w)) as [s1 [envs|e|]];
    [|exists [ListEnvironments]; cbn; auto..].
  destruct (find_default envs) as [env|].
  { exists [ListEnvironments]. cbn. auto. }
  cbn [service journal].
  destruct (environments_create default_params s1) as [s2 [env|e|]];
    exists [ListEnvironments; CreateEnvironment default_params];
    cbn; rewrite <- app_assoc; auto.
Qed.

Lemma resolve_threadId_journal environmentId options w :
  journal (fst (resolve_threadId environmentId options w))
  = journal w ++ match given (opt_threadId options) with
                 | Some _ => []
                 | None => [CreateThread {| environmentId := environmentId |}]
                 end.
Proof.
  unfold ComputerAgentsClient.resolve_threadId.
  destruct (given (opt_threadId options)).
  { cbn. now rewrite app_nil_r. }
  unfold bind, call, ret.
  now destruct (threads_create _ (service w)) as [s2 [th|e|]].
Qed.

Lemma threads_sendMessage_journal tt threadId task cfg onEvent timeout w :
  journal (fst (threads_sendMessage tt threadId task cfg onEvent timeout w))
  = journal w ++ [PostMessage threadId task cfg].
Proof.
  unfold ComputerAgentsClient.threads_sendMessage.
  destruct (new_URL _); [|reflexivity].
  now destruct (messages_post threadId task cfg (service w)).
Qed.

(** One [run] lists the environments at most once. *)
Lemma run_lists_at_most_once this_timeout task options w :
  exists j,
    journal (fst (run this_timeout task options w)) = journal w ++ j
    /\ (List.length (filter is_list j) <= 1)%nat.
Proof.
  unfold ComputerAgentsClient.run, bind.
  destruct (resolve_environmentId_journal options w) as (j1 & Hj1 & Hc1).
  assert (H1 : (List.length (filter is_list j1) <= 1)%nat)
    by (destruct Hc1 as [->|[->| ->]]; cbn; lia).
  destruct (resolve_environmentId options w) as [w1 [id|e|]];
    cbn [fst] in Hj1; try (exists j1; cbn [fst]; now split).
  pose proof (resolve_threadId_journal id options w1) as Hj2.
  set (j2 := match given (opt_threadId options) with
             | Some _ => []
             | None => [CreateThread {| environmentId := id |}]
             end) in *.
  assert (H2 : filter is_list j2 = [])
    by (unfold j2; now destruct (given (opt_threadId options))).
  destruct (resolve_threadId id options w1) as [w2 [tid|e|]];
    cbn [fst] in Hj2;
    try (exists (j1 ++ j2); cbn [fst];
         rewrite Hj2, Hj1, <- app_assoc, filter_app, H2, app_nil_r;
         now split).
  pose proof (threads_sendMessage_journal this_timeout tid task
                (opt_agentConfig options) (opt_onEvent options)
                (opt_timeout options) w2) as Hj3.
  destruct (threads_sendMessage this_timeout tid task
              (opt_agentConfig options) (opt_onEvent options)
              (opt_timeout options) w2) as [w3 [res|e|]];
    cbn [fst] in Hj3;
    exists (j1 ++ j2 ++ [PostMessage tid task (opt_agentConfig options)]);
    cbn [fst ret];
    rewrite Hj3, Hj2, Hj1, <- !app_assoc, !filter_app, H2;
    cbn; rewrite app_nil_r; now split.
Qed.

Lemma find_default_flagged envs :
  match find_default envs with
  | Some env => In env envs /\ env_isDefault env = Some true
  | None => forall e, In e envs -> env_isDefault e <> Some true
  end.
Proof.
  unfold find_default.
  destruct (find _ envs) as [env|] eqn:E.
  - apply find_some in E. destruct E as [Hin Hd]. split; [exact Hin|].
    destruct (env_isDefault env) as [[|]|]; congruence.
  - intros e Hin Hd. pose proof (find_none _ _ E _ Hin) as H. cbn in H.
    rewrite Hd in H. discriminate.
Qed.

(** *** Claim C7 *)

(** C7. The environment of a [run]: an [environmentId] given in the options
    is used as it is and nothing is resolved; otherwise a cached default is
    used and no call is made; otherwise the environments are listed and the
    first one flagged default is taken, or, when none is flagged, one is
    created with the name [default], internet access on and the default
    flag; the id found is in the cache when the resolution hands it over,
    and it is the id under which the thread is then created. An id counts as
    given, and a cache as set, when it is a non-empty string. *)
Theorem environment_resolution_order
    (this_timeout : Z) (task : jsstring) (options : RunOptions O)
    (w : World O S) :
  (forall e, given (opt_environmentId options) = Some e ->
     resolve_environmentId options w = (w, Returns e))
  /\ (given (opt_environmentId options) = None ->
      forall c, given (_defaultEnvironmentId w) = Some c ->
        resolve_environmentId options w = (w, Returns c))
  /\ (given (opt_environmentId options) = None ->
      given (_defaultEnvironmentId w) = None ->
      forall s1 envs,
        environments_list (service w) = (s1, Returns envs) ->
        (forall env, find_default envs = Some env ->
           In env envs /\ env_isDefault env = Some true
           /\ resolve_environmentId options w
              = ({| service := s1;
                    _defaultEnvironmentId := Some (env_id env);
                    watcher := watcher w;
                    journal := journal w ++ [ListEnvironments];
                    seen := seen w; console := console w |},
                 Returns (env_id env)))
        /\ (find_default envs = None ->
            (forall e, In e envs -> env_isDefault e <> Some true)
            /\ forall s2 env,
                 environments_create default_params s1 = (s2, Returns env) ->
                 resolve_environmentId options w
                 = ({| service := s2;
                       _defaultEnvironmentId := Some (env_id env);
                       watcher := watcher w;
                       journal := journal w
                                  ++ [ListEnvironments;
                                      CreateEnvironment default_params];
                       seen := seen w; console := console w |},
                    Returns (env_id env))))
  /\ (forall w1 id,
        resolve_environmentId options w = (w1, Returns id) ->
        given (opt_threadId options) = None ->
        exists tail,
          journal (fst (run this_timeout task options w))
          = journal w1 ++ CreateThread {| environmentId := id |} :: tail).
Proof.
  split; [|split; [|split]].
  - intros e He. unfold ComputerAgentsClient.resolve_environmentId.
    now rewrite He.
  - intros He c Hc.
    unfold ComputerAgentsClient.resolve_environmentId,
      _ensureDefaultEnvironment.
    now rewrite He, Hc.
  - intros He Hc s1 envs Hl.
    unfold ComputerAgentsClient.resolve_environmentId,
      _ensureDefaultEnvironment, resolve_default, bind, call, set_default, ret.
    rewrite He, Hc, Hl.
    pose proof (find_default_flagged envs) as Hf. split.
    + intros env Hfind. rewrite Hfind in *. destruct Hf as [Hin Hd].
      repeat split; assumption.
    + intros Hfind. rewrite Hfind in *. split; [exact Hf|].
      intros s2 env Hcr. cbn [service journal]. rewrite Hcr. cbn.
      now rewrite <- app_assoc.
  - intros w1 id Hres Ht.
    unfold ComputerAgentsClient.run, bind. rewrite Hres.
    pose proof (resolve_threadId_journal id options w1) as Hj2.
    rewrite Ht in Hj2.
    destruct (resolve_threadId id options w1) as [w2 [tid|e|]];
      cbn [fst] in Hj2; try (exists []; cbn [fst]; exact Hj2).
    pose proof (threads_sendMessage_journal this_timeout tid task
                  (opt_agentConfig options) (opt_onEvent options)
                  (opt_timeout options) w2) as Hj3.
    destruct (threads_sendMessage this_timeout tid task
                (opt_agentConfig options) (opt_onEvent options)
                (opt_timeout options) w2) as [w3 [res|e|]];
      cbn [fst] in Hj3;
      exists [PostMessage tid task (opt_agentConfig options)];
      cbn [fst ret]; rewrite Hj3, Hj2, <- app_assoc; reflexivity.
Qed.

(** *** Claim C8 *)

(** C8. Against a service whose threads have non-empty ids, a [run] that
    returns gives back a non-empty [threadId]: the one supplied in the
    options, with no thread created, or else the id of the one thread it
    created, in the environment that was resolved. Two runs in a row on a
    fresh client list the environments at most twice. An id counts as
    supplied when it is a non-empty string. *)
Theorem run_returns_thread_id (this_timeout : Z) :
  (forall p s s' t, threads_create p s = (s', Returns t) -> thread_id t <> []) ->
  (forall task options w w' res,
     run this_timeout task options w = (w', Returns res) ->
     res_threadId res <> []
     /\ (forall t, given (opt_threadId options) = Some t ->
           res_threadId res = t
           /\ filter is_create_thread (journal w')
              = filter is_create_thread (journal w))
     /\ (given (opt_threadId options) = None ->
         exists w1 id s2 th,
           resolve_environmentId options w = (w1, Returns id)
           /\ threads_create {| environmentId := id |} (service w1)
              = (s2, Returns th)
           /\ res_threadId res = thread_id th
           /\ filter is_create_thread (journal w')
              = filter is_create_thread (journal w)
                ++ [CreateThread {| environmentId := id |}]))
  /\ (forall task1 task2 options1 options2 s o,
        (List.length
           (filter is_list
              (journal
                 (fst (run this_timeout task2 options2
                         (fst (run this_timeout task1 options1
                                 (fresh s o))))))) <= 2)%nat).
Proof.
  intros Hids. split.
  - intros task options w w' res Hrun.
    unfold ComputerAgentsClient.run in Hrun.
    apply bind_returns in Hrun. destruct Hrun as (w1 & id & Hres & Hrun).
    apply bind_returns in Hrun. destruct Hrun as (w2 & tid & Hthr & Hrun).
    apply bind_returns in Hrun. destruct Hrun as (w3 & result & Hsend & Hret).
    unfold ret in Hret. inversion Hret; subst w' res; clear Hret.
    cbn [res_threadId].
    pose proof (f_equal (fun x => journal (fst x)) Hsend) as Hj3.
    cbn beta in Hj3. rewrite threads_sendMessage_journal in Hj3.
    cbn [fst] in Hj3.
    destruct (resolve_environmentId_journal options w) as (j1 & Hj1 & Hc1).
    rewrite Hres in Hj1. cbn [fst] in Hj1.
    assert (Hf1 : filter is_create_thread j1 = [])
      by (destruct Hc1 as [->|[->| ->]]; reflexivity).
    unfold ComputerAgentsClient.resolve_threadId in Hthr.
    destruct (given (opt_threadId options)) as [t|] eqn:Ht.
    + unfold ret in Hthr. inversion Hthr; subst w2 tid; clear Hthr.
      apply given_nonempty in Ht. destruct Ht as [_ Hne].
      split; [exact Hne|]. split; [|discriminate].
      intros t' Ht'. inversion Ht'; subst t'. split; [reflexivity|].
      rewrite <- Hj3, Hj1, !filter_app, Hf1. cbn. now rewrite !app_nil_r.
    + apply bind_returns in Hthr. destruct Hthr as (w2' & th & Hcall & Hret).
      unfold ret in Hret. inversion Hret; subst w2' tid; clear Hret.
      unfold call in Hcall.
      destruct (threads_create {| environmentId := id |} (service w1))
        as [s2 r] eqn:Hcr.
      inversion Hcall; subst w2 r; clear Hcall.
      split; [now apply (Hids _ _ _ _ Hcr)|]. split; [discriminate|].
      intros _. exists w1, id, s2, th.
      repeat split; try assumption; try reflexivity.
      rewrite <- Hj3. cbn [journal]. rewrite Hj1, !filter_app, Hf1.
      cbn. now rewrite !app_nil_r.
  - intros task1 task2 options1 options2 s o.
    destruct (run_lists_at_most_once this_timeout task1 options1 (fresh s o))
      as (j1 & Hj1 & H1).
    destruct (run_lists_at_most_once this_timeout task2 options2
                (fst (run this_timeout task1 options1 (fresh s o))))
      as (j2 & Hj2 & H2).
    rewrite Hj2, Hj1. cbn [fresh journal app].
    rewrite filter_app, length_app. lia.
Qed.

End Orchestrator.

(** The sample service numbers its threads, so their ids are not empty. *)
Lemma cloud_thread_ids p s s' t :
  Samples.cloud_thread p s = (s', Returns t) -> thread_id t <> [].
Proof.
  unfold Samples.cloud_thread. intros H. inversion H. cbn [thread_id].
  unfold Samples.id_of. discriminate.
Qed.

(** A first [run(task)] on a fresh client against an empty account. *)
Lemma environment_resolution_order_witness :
  given (opt_environmentId Samples.no_options) = None
  /\ given (_defaultEnvironmentId (fresh Samples.empty_cloud 0%nat)) = None
  /\ Samples.cloud_list Samples.empty_cloud
     = (Samples.empty_cloud, Returns [])
  /\ find_default [] = None
  /\ resolve_environmentId Samples.cloud_list Samples.cloud_create
       Samples.no_options (fresh Samples.empty_cloud 0%nat)
     = ({| service := {| Samples.cloud_environments :=
                           [{| env_id := Samples.id_of "env_" 1;
                               env_name := lit "default";
                               env_internetAccess := Some true;
                               env_isDefault := Some true |}];
                         Samples.cloud_next := 2 |};
           _defaultEnvironmentId := Some (Samples.id_of "env_" 1);
           watcher := 0%nat;
           journal := [ListEnvironments; CreateEnvironment default_params];
           seen := []; console := [] |},
        Returns (Samples.id_of "env_" 1)).
Proof.
  repeat (split; [reflexivity|]).
  destruct (@environment_resolution_order JSON.parse nat Samples.Cloud
              Samples.cloud_list Samples.cloud_create Samples.cloud_thread
              Samples.cloud_post Samples.production 60000%Z (lit "hi") Samples.no_options
              (fresh Samples.empty_cloud 0%nat)) as (_ & _ & H & _).
  destruct (H eq_refl eq_refl Samples.empty_cloud [] eq_refl) as [_ Hnone].
  destruct (Hnone eq_refl) as [_ Hcreate].
  exact (Hcreate _ _ eq_refl).
Defined.

(** The same run returns the id of the thread it created. *)
Lemma run_returns_thread_id_witness :
  (forall p s s' t,
     Samples.cloud_thread p s = (s', Returns t) -> thread_id t <> [])
  /\ snd (Samples.cloud_run (lit "hi") Samples.no_options
            (fresh Samples.empty_cloud 0%nat))
     = Returns {| res_content := JStr (lit "Hi");
                  res_threadId := Samples.id_of "thread_" 2;
                  res_run := Samples.run_1 |}
  /\ Samples.id_of "thread_" 2 <> [].
Proof.
  split; [exact cloud_thread_ids|].
  split; [vm_compute; reflexivity|].
  destruct (@run_returns_thread_id JSON.parse nat Samples.Cloud
              Samples.cloud_list Samples.cloud_create Samples.cloud_thread
              Samples.cloud_post Samples.production 60000%Z cloud_thread_ids) as [H _].
  destruct (H (lit "hi") Samples.no_options (fresh Samples.empty_cloud 0%nat)
              (fst (Samples.cloud_run (lit "hi") Samples.no_options
                      (fresh Samples.empty_cloud 0%nat)))
              {| res_content := JStr (lit "Hi");
                 res_threadId := Samples.id_of "thread_" 2;
                 res_run := Samples.run_1 |}) as [Hne _].
  - vm_compute. reflexivity.
  - exact Hne.
Defined.

End ClientFacts.

(* ===================================================================== *)
(** * Further properties *)
(* ===================================================================== *)

(** ** More on the aggregator *)

Module AggregatorMore.
Import JS Effects ApiClient ThreadsResource Stream StreamMore.
Import LineFacts LoopFacts LineStepFacts StreamFacts AggregatorFacts.


Section Captures.
Variable JSON_parse : jsstring -> option JSValue.
Variable O : Type.

Local Abbreviation process_line := (@process_line JSON_parse O).
Local Abbreviation process_lines := (@process_lines JSON_parse O).
Local Abbreviation frame := (frame JSON_parse).
Local Abbreviation frames := (frames JSON_parse).


(** With an observer that throws on every call nothing is ever classified,
    and a capture that is a primitive stays what it is. *)
Lemma deaf_line (f : StreamEventCallback O) st line :
  always_throws f ->
  is_primitive (finalContent st) = true ->
  is_primitive (runDetails st) = true ->
  finalContent (process_line (Some f) st line) = finalContent st
  /\ runDetails (process_line (Some f) st line) = runDetails st.
Proof.
  intros Hf Hc Hr. destruct (frame line) as [ev|] eqn:F.
  - destruct (process_line_captures JSON_parse (Some f) st _ F) as [-> ->].
    cbv zeta. rewrite call_onEvent_completion. cbn [observer push_event].
    destruct (Hf (observer st) ev) as (o' & t & e & ->). cbn [snd].
    split; [now apply call_onEvent_content_primitive
           |now apply call_onEvent_run_primitive].
  - destruct (process_line_skips JSON_parse (Some f) st _ F)
      as (_ & _ & _ & -> & ->). now split.
Qed.

Lemma deaf_lines (f : StreamEventCallback O) lines : forall st,
  always_throws f ->
  is_primitive (finalContent st) = true ->
  is_primitive (runDetails st) = true ->
  finalContent (process_lines (Some f) st lines) = finalContent st
  /\ runDetails (process_lines (Some f) st lines) = runDetails st.
Proof.
  induction lines as [|l ls IH]; intros st Hf Hc Hr; [now split|].
  cbn [ThreadsResource.process_lines fold_left].
  fold (process_lines (Some f) (process_line (Some f) st l) ls).
  destruct (deaf_line st l Hf Hc Hr) as [Hc' Hr'].
  destruct (IH (process_line (Some f) st l) Hf) as [-> ->];
    rewrite ?Hc', ?Hr'; auto.
Qed.

End Captures.



(** X2. An observer that throws on every call empties the result: a stream
    read to its close still returns, with an object in [events] for every
    event (the event itself when the observer has only read), but [content]
    is the empty string and [run] is [undefined], whatever the stream
    carried. *)
Theorem always_throwing_observer_empties_the_result
    (JSON_parse : jsstring -> option JSValue) (O : Type)
    (f : StreamEventCallback O) (o : O) (r : Response) (b : Body) :
  always_throws f ->
  body r = Some b -> ending b = Closed ->
  exists evs,
    outcome (consume JSON_parse (Some f) o r)
    = Returns {| content := JStr []; run := JUndefined; events := evs |}
    /\ List.length evs = List.length (stream_events JSON_parse (chunks b))
    /\ (reads_only (Some f) -> evs = stream_events JSON_parse (chunks b)).
Proof.
  intros Hf Hb He.
  rewrite (consume_closed JSON_parse (Some f) o _ Hb He). cbv zeta.
  cbn [outcome].
  destruct (@deaf_lines JSON_parse O f
              (complete_lines (decoded_text (List.concat (chunks b))))
              (start o) Hf eq_refl eq_refl) as [-> ->].
  eexists. split; [reflexivity|]. split.
  - now rewrite process_lines_length.
  - intros Hr. now rewrite process_lines_events.
Qed.

Lemma always_throwing_observer_empties_the_result_witness :
  always_throws Samples.throwing
  /\ outcome (consume JSON.parse (Some Samples.throwing) 0%nat
               (Samples.streaming [Samples.hello] Closed))
     = Returns {| content := JStr []; run := JUndefined;
                  events := [Samples.ev_started; Samples.ev_item;
                             Samples.ev_response; Samples.ev_completed] |}.
Proof.
  assert (H : always_throws Samples.throwing).
  { intros n ev. now exists (Datatypes.S n), untouched,
      (JsError (lit "Error") (JStr (lit "observer"))). }
  split; [exact H|].
  destruct (@always_throwing_observer_empties_the_result JSON.parse nat
              Samples.throwing 0%nat
              (Samples.streaming [Samples.hello] Closed)
              {| chunks := [Samples.hello]; ending := Closed |}
              H eq_refl eq_refl) as (evs & Hout & _ & Hevs).
  rewrite Hout, (Hevs throwing_reads_only). vm_compute. reflexivity.
Defined.

(** Lines that do not start with [data: ] leave no trace. *)
Lemma process_lines_data_only
    (JSON_parse : jsstring -> option JSValue) (O : Type)
    (onEvent : option (StreamEventCallback O)) lines : forall st,
  process_lines JSON_parse onEvent st lines
  = process_lines JSON_parse onEvent st (filter is_data_line lines).
Proof.
  induction lines as [|l ls IH]; intros st; [reflexivity|].
  cbn [filter]. destruct (is_data_line l) eqn:E.
  - cbn [ThreadsResource.process_lines fold_left]. apply IH.
  - cbn [ThreadsResource.process_lines fold_left].
    unfold process_line at 2. unfold is_data_line in E. rewrite E. apply IH.
Qed.

(** X3. Only the lines that start with [data: ] count. Comments, blank
    keep-alive lines, [event:] and [id:] fields, and [data:] lines without
    the space after the colon change nothing at all: two bodies whose
    complete lines agree once every other line is taken out, and that end
    the same way, give the same run (result, warnings, observer calls). *)
Theorem other_lines_are_invisible
    (JSON_parse : jsstring -> option JSValue) (O : Type)
    (onEvent : option (StreamEventCallback O)) (o : O)
    (r1 r2 : Response) (b1 b2 : Body) :
  body r1 = Some b1 -> body r2 = Some b2 ->
  ending b1 = ending b2 ->
  filter is_data_line
    (complete_lines (decoded_text (List.concat (chunks b1))))
  = filter is_data_line
      (complete_lines (decoded_text (List.concat (chunks b2)))) ->
  consume JSON_parse onEvent o r1 = consume JSON_parse onEvent o r2.
Proof.
  intros H1 H2 He Hl. unfold consume. rewrite H1, H2, <- He.
  rewrite !read_all_enter.
  rewrite (process_lines_data_only JSON_parse onEvent
             (complete_lines (decoded_text (List.concat (chunks b1))))).
  rewrite (process_lines_data_only JSON_parse onEvent
             (complete_lines (decoded_text (List.concat (chunks b2))))).
  now rewrite Hl.
Qed.

Lemma other_lines_are_invisible_witness :
  filter is_data_line
    (complete_lines (decoded_text (List.concat [MoreSamples.noisy])))
  = filter is_data_line
      (complete_lines (decoded_text (List.concat [MoreSamples.quiet])))
  /\ consume JSON.parse (Some Samples.counting) 0%nat
       (Samples.streaming [MoreSamples.noisy] Closed)
     = consume JSON.parse (Some Samples.counting) 0%nat
         (Samples.streaming [MoreSamples.quiet] Closed).
Proof.
  split; [vm_compute; reflexivity|].
  apply (@other_lines_are_invisible JSON.parse nat (Some Samples.counting)
           0%nat
           (Samples.streaming [MoreSamples.noisy] Closed)
           (Samples.streaming [MoreSamples.quiet] Closed)
           {| chunks := [MoreSamples.noisy]; ending := Closed |}
           {| chunks := [MoreSamples.quiet]; ending := Closed |});
    [reflexivity|reflexivity|reflexivity|vm_compute; reflexivity].
Defined.

Lemma split_nl_closed x : ~ In NL x -> split_nl (x ++ [NL]) = [x; []].
Proof.
  induction x as [|c x IH]; intros H; [reflexivity|].
  cbn [app split_nl]. destruct (N.eqb c NL) eqn:E.
  - apply N.eqb_eq in E. exfalso. apply H. now left.
  - rewrite IH; [reflexivity|]. intros Hin. apply H. now right.
Qed.

Lemma last_in (A : Type) (l : list A) (d : A) : l <> [] -> In (last l d) l.
Proof.
  intros Hne. destruct (exists_last Hne) as (l0 & x & ->).
  rewrite last_last. apply in_or_app. right. now left.
Qed.

Lemma last_split_nl_clean s : ~ In NL (last (split_nl s) []).
Proof.
  pose proof (split_nl_pieces s) as HF. rewrite Forall_forall in HF.
  apply HF. apply last_in, split_nl_nonempty.
Qed.

(** Text that ends with a line feed, with more text after it that has none:
    the complete lines are those of the first part. *)
Lemma complete_lines_tail t u :
  ~ In NL u ->
  complete_lines ((t ++ [NL]) ++ u) = complete_lines (t ++ [NL]).
Proof.
  intros Hu. unfold complete_lines.
  assert (Ht : split_nl (t ++ [NL])
               = removelast (split_nl t) ++ [last (split_nl t) []; []]).
  { rewrite split_nl_app.
    now rewrite (split_nl_closed _ (last_split_nl_clean t)). }
  rewrite (split_nl_app (t ++ [NL]) u), Ht.
  rewrite !last_app_nonempty by discriminate. cbn [last app].
  rewrite (split_nl_single _ Hu).
  apply removelast_last.
Qed.

(** X4. A last line that its line feed never follows is dropped, frame or
    not: when the stream ends, what came after the last line feed has not
    been parsed and is not in the result. A body whose text is that of
    another, which ends with a line feed, followed by text without a line
    feed, gives the same run as that other body. *)
Theorem unterminated_last_line_is_dropped
    (JSON_parse : jsstring -> option JSValue) (O : Type)
    (onEvent : option (StreamEventCallback O)) (o : O)
    (r1 r2 : Response) (b1 b2 : Body) (t u : jsstring) :
  body r1 = Some b1 -> body r2 = Some b2 ->
  ending b1 = ending b2 ->
  decoded_text (List.concat (chunks b1)) = t ++ [NL] ->
  decoded_text (List.concat (chunks b2)) = (t ++ [NL]) ++ u ->
  ~ In NL u ->
  consume JSON_parse onEvent o r1 = consume JSON_parse onEvent o r2.
Proof.
  intros H1 H2 He Ht Hu Hnl. unfold consume. rewrite H1, H2, <- He.
  rewrite !read_all_enter, Ht, Hu.
  now rewrite (complete_lines_tail t _ Hnl).
Qed.

Lemma unterminated_last_line_is_dropped_witness :
  decoded_text (List.concat [MoreSamples.cut_short])
  = (Samples.text "data: {'type':'response.started'}" ++ [NL])
    ++ Samples.text "data: {'type':'stream.completed','run':{'id':'a'}}"
  /\ outcome (consume JSON.parse (Some Samples.counting) 0%nat
               (Samples.streaming [MoreSamples.cut_short] Closed))
     = Returns {| content := JStr []; run := JUndefined;
                  events := [Samples.ev_started] |}.
Proof.
  split; [vm_compute; reflexivity|].
  rewrite <- (@unterminated_last_line_is_dropped JSON.parse nat
                (Some Samples.counting) 0%nat
                (Samples.streaming [MoreSamples.first_frame_only] Closed)
                (Samples.streaming [MoreSamples.cut_short] Closed)
                {| chunks := [MoreSamples.first_frame_only];
                   ending := Closed |}
                {| chunks := [MoreSamples.cut_short]; ending := Closed |}
                (Samples.text "data: {'type':'response.started'}")
                (Samples.text
                   "data: {'type':'stream.completed','run':{'id':'a'}}")).
  - vm_compute. reflexivity.
  - reflexivity.
  - reflexivity.
  - reflexivity.
  - vm_compute. reflexivity.
  - vm_compute. reflexivity.
  - vm_compute. intros H.
    repeat (destruct H as [H|H]; [discriminate H|]). exact H.
Defined.

(** Splitting loses nothing: the closed lines and the pending piece make up
    the text again. *)
Lemma split_nl_rejoin s :
  closed_lines (removelast (split_nl s)) ++ last (split_nl s) [] = s.
Proof.
  induction s as [|c s IH]; [reflexivity|].
  cbn [split_nl]. pose proof (split_nl_nonempty s) as Hne.
  destruct (N.eqb c NL) eqn:E.
  - apply N.eqb_eq in E. subst c.
    destruct (split_nl s) as [|l ls]; [contradiction|].
    cbn [removelast last closed_lines app] in *. now rewrite IH.
  - destruct (split_nl s) as [|l ls]; [contradiction|].
    destruct ls as [|l' ls'].
    + cbn [removelast last closed_lines app] in *. now rewrite IH.
    + cbn [removelast last closed_lines app] in *. now rewrite IH.
Qed.

(** X5. The rolling buffer loses and repeats nothing. After any number of
    chunks, the lines handed to the line loop so far, each with its line
    feed, followed by what the buffer holds, are exactly the text decoded
    so far; the buffer never holds a line feed, and the lines handed over
    are the ones the line loop has processed. *)
Theorem buffer_keeps_the_rest
    (JSON_parse : jsstring -> option JSValue) (O : Type)
    (onEvent : option (StreamEventCallback O)) (o : O)
    (cs : list (list byte)) :
  closed_lines (complete_lines (decoded_text (List.concat cs)))
  ++ buffer (read_all JSON_parse onEvent (enter o) cs)
  = decoded_text (List.concat cs)
  /\ ~ In NL (buffer (read_all JSON_parse onEvent (enter o) cs))
  /\ vars (read_all JSON_parse onEvent (enter o) cs)
     = process_lines JSON_parse onEvent (start o)
         (complete_lines (decoded_text (List.concat cs))).
Proof.
  assert (Hb : buffer (read_all JSON_parse onEvent (enter o) cs)
               = last (split_nl (decoded_text (List.concat cs))) []).
  { rewrite read_all_spec by reflexivity. unfold decoded_text.
    cbn [enter decoder buffer app].
    now destruct (TextDecoder.decode TextDecoder.init (List.concat cs)). }
  rewrite Hb. split; [apply split_nl_rejoin|].
  split; [apply last_split_nl_clean|apply read_all_enter].
Qed.

(** X6. [reader.releaseLock()] has run exactly when a reader was obtained
    and the loop came to an end: the request returned a response that has a
    body, and the body closed or failed. In particular every call that
    returns has released the reader; a failure of the request or a missing
    body leaves nothing to release; a stalled body is never released. *)
Theorem released_exactly_when_the_loop_ended
    (JSON_parse : jsstring -> option JSValue) (O : Type)
    (onEvent : option (StreamEventCallback O)) (o : O) (url : URL)
    (this_timeout : Z) (timeout : option Z) (net : Fetch) :
  (released (sendMessage JSON_parse url this_timeout onEvent timeout o net)
   = true
   <-> exists r b,
         request url this_timeout (Some (timeout_or_default timeout)) true net
         = Returns (StreamReply r)
         /\ body r = Some b /\ ending b <> Stalled)
  /\ (forall res,
        outcome (sendMessage JSON_parse url this_timeout onEvent timeout o net)
        = Returns res ->
        released (sendMessage JSON_parse url this_timeout onEvent timeout o
                    net)
        = true).
Proof.
  unfold sendMessage.
  destruct (request url this_timeout (Some (timeout_or_default timeout)) true
              net)
    as [[r|v]|e|] eqn:Hreq.
  - unfold consume. destruct (body r) as [b|] eqn:Hb.
    + destruct (ending b) as [|e|] eqn:He; cbn [released outcome].
      * split; [|reflexivity]. split; [|reflexivity].
        intros _. exists r, b. repeat split; try assumption.
        rewrite He. discriminate.
      * split; [|reflexivity]. split; [|reflexivity].
        intros _. exists r, b. repeat split; try assumption.
        rewrite He. discriminate.
      * split; [|discriminate]. split; [discriminate|].
        intros (r' & b' & Hr & Hb' & Hne). inversion Hr; subst r'.
        rewrite Hb in Hb'. inversion Hb'; subst b'. now rewrite He in Hne.
    + cbn [released outcome]. split; [|discriminate].
      split; [discriminate|].
      intros (r' & b' & Hr & Hb' & _). inversion Hr; subst r'.
      rewrite Hb in Hb'. discriminate.
  - cbn [released outcome]. split; [|discriminate].
    split; [discriminate|]. intros (r' & b' & Hr & _). discriminate.
  - cbn [released outcome]. split; [|discriminate].
    split; [discriminate|]. intros (r' & b' & Hr & _). discriminate.
  - cbn [released outcome]. split; [|discriminate].
    split; [discriminate|]. intros (r' & b' & Hr & _). discriminate.
Qed.

(** X7. When the server answers the streaming request with a status
    outside 200-299 before the timer fires, nothing of the stream is read:
    no event is logged, the observer is not called, no reader is obtained.
    Once the body of the error response has been read, [sendMessage] throws
    an [ApiClientError]; when that body never comes to its end, the call
    stays pending, for the timer was cleared when the headers came. *)
Theorem error_status_reads_nothing
    (JSON_parse : jsstring -> option JSValue) (O : Type)
    (onEvent : option (StreamEventCallback O)) (o : O)
    (this_timeout : Z) (timeout : option Z) (t : Z) (r : Response) :
  (t < timer_delay (timeout_or_default timeout))%Z ->
  ok r = false ->
  (json r <> None ->
   exists e,
     sendMessage JSON_parse Built this_timeout onEvent timeout o
       (Resolves t r)
     = {| outcome := Throws e; released := false; at_end := start o |}
     /\ uniform e = true)
  /\ (json r = None ->
      sendMessage JSON_parse Built this_timeout onEvent timeout o
        (Resolves t r)
      = {| outcome := Pending; released := false; at_end := start o |}).
Proof.
  intros Ht Hok. apply Z.ltb_lt in Ht.
  unfold sendMessage, request, await_fetch, on_response, throw_parseError.
  rewrite Ht, Hok. cbn [negb]. split.
  - intros Hj. destruct (parseError r) as [e|e|] eqn:E.
    + eexists. split; [reflexivity|].
      pose proof (TransportFacts.parseError_uniform _ E). now destruct e.
    + eexists. split; [reflexivity|].
      destruct (TransportFacts.parseError_string _ E) as [-> | ->];
        reflexivity.
    + exfalso. unfold parseError in E.
      destruct (json r) as [j|]; [|now elim Hj].
      destruct (get _ (lit "message")); [|discriminate].
      destruct (get _ (lit "error")); [|discriminate].
      destruct (get _ (lit "code")); [|discriminate].
      destruct (get _ (lit "details")); [|discriminate].
      destruct (new_ApiClientError _ _ _ _); discriminate.
  - intros Hj. unfold parseError. now rewrite Hj.
Qed.

Lemma error_status_reads_nothing_witness :
  (120 < timer_delay (timeout_or_default None))%Z
  /\ ok MoreSamples.not_found = false
  /\ sendMessage JSON.parse Built 60000 (Some Samples.counting) None 0%nat
       (Resolves 120 MoreSamples.not_found)
     = {| outcome := Throws (ApiClientError (JStr (lit "No such thread")) 404
                               (JStr (lit "THREAD_NOT_FOUND")) JUndefined);
          released := false; at_end := start 0%nat |}.
Proof.
  split; [reflexivity|]. split; [reflexivity|].
  destruct (@error_status_reads_nothing JSON.parse nat
              (Some Samples.counting) 0%nat 60000%Z None 120%Z
              MoreSamples.not_found eq_refl eq_refl) as (H & _).
  destruct H as (e & He & _); [discriminate|].
  vm_compute. reflexivity.
Defined.

(** X8. A [stream.error] event on which the observer, if any, returns,
    the discriminator being read after that call: the event is logged and
    delivered like any other, nothing is captured, the loop goes on, and the
    only trace of the error is the line written to [console.warn] (the
    payload parsed, so it is not blank). The line leaves the locals as the
    call of the observer left them, with that warning added; when the call
    only read, these are the old log with the event pushed and the old
    captures. *)
Theorem stream_error_event_is_only_warned
    (JSON_parse : jsstring -> option JSValue) (O : Type)
    (onEvent : option (StreamEventCallback O)) (st : locals O)
    (line : jsstring) (ev : JSValue) :
  frame JSON_parse line = Some ev ->
  type_is "stream.error"
    (current ev (fst (call_onEvent onEvent ev (push_event ev st)))) = true ->
  returns_on onEvent (observer st) ev ->
  nonempty (trim (payload line)) = true ->
  process_line JSON_parse onEvent st line
  = warn line (fst (call_onEvent onEvent ev (push_event ev st)))
  /\ delivered (process_line JSON_parse onEvent st line)
     = delivered st ++ match onEvent with Some _ => [ev] | None => [] end
  /\ warnings (process_line JSON_parse onEvent st line)
     = warnings st ++ [line]
  /\ (only_reads_on onEvent (observer st) ev ->
      type_is "stream.error" ev = true
      /\ l_events (process_line JSON_parse onEvent st line)
         = l_events st ++ [ev]
      /\ finalContent (process_line JSON_parse onEvent st line)
         = finalContent st
      /\ runDetails (process_line JSON_parse onEvent st line)
         = runDetails st).
Proof.
  intros F Hse Hret Hnb.
  set (st2 := fst (call_onEvent onEvent ev (push_event ev st))) in *.
  assert (Hrc : type_is "response.completed" (current ev st2) = false).
  { destruct (type_is "response.completed" (current ev st2)) eqn:E;
      [|reflexivity].
    pose proof (type_is_exclusive _ _ _ E Hse) as H. discriminate H. }
  assert (Hsc : type_is "stream.completed" (current ev st2) = false).
  { destruct (type_is "stream.completed" (current ev st2)) eqn:E;
      [|reflexivity].
    pose proof (type_is_exclusive _ _ _ E Hse) as H. discriminate H. }
  assert (Hnormal : snd (call_onEvent onEvent ev (push_event ev st)) = Normal).
  { rewrite call_onEvent_completion. unfold returns_on in Hret.
    now destruct onEvent. }
  assert (Hstep : process_line JSON_parse onEvent st line = warn line st2).
  { rewrite (process_line_frame _ _ st _ F). unfold st2 in *.
    destruct (call_onEvent onEvent ev (push_event ev st)) as [s2 c].
    cbn [fst snd] in *. subst c.
    rewrite classify_cases, Hrc, Hsc, Hse. unfold catch_block.
    unfold payload in Hnb. now rewrite Hnb. }
  split; [exact Hstep|].
  split; [now rewrite process_line_delivered, F|].
  split.
  { rewrite Hstep. cbn [warn warnings]. unfold st2.
    now rewrite call_onEvent_warnings. }
  intros Halone. rewrite Hstep. cbn [warn l_events finalContent runDetails].
  destruct (call_onEvent_alone onEvent ev (push_event ev st) Halone)
    as (Hl & Hc & Hr).
  unfold st2 in *. rewrite current_alone in Hse by exact Halone.
  now rewrite Hl, Hc, Hr.
Qed.

Lemma stream_error_event_is_only_warned_witness :
  frame JSON.parse
    (Samples.text "data: {'type':'stream.error','error':'E','message':'boom'}")
  = Some Samples.ev_error
  /\ warnings
       (process_line JSON.parse (Some Samples.counting) (start 0%nat)
          (Samples.text
             "data: {'type':'stream.error','error':'E','message':'boom'}"))
     = [Samples.text
          "data: {'type':'stream.error','error':'E','message':'boom'}"].
Proof.
  split; [vm_compute; reflexivity|].
  destruct (@stream_error_event_is_only_warned JSON.parse nat
              (Some Samples.counting) (start 0%nat)
              (Samples.text
                 "data: {'type':'stream.error','error':'E','message':'boom'}")
              Samples.ev_error) as (_ & _ & H & _).
  - vm_compute. reflexivity.
  - vm_compute. reflexivity.
  - reflexivity.
  - vm_compute. reflexivity.
  - exact H.
Defined.

End AggregatorMore.

(** ** More on the transport *)

Module TransportMore.
Import JS Effects ApiClient ApiClientInit StreamMore LineFacts.
Local Open Scope Z_scope.

Lemma jsstring_eqb_neq a b : a <> b -> jsstring_eqb a b = false.
Proof.
  intros H. destruct (jsstring_eqb a b) eqn:E; [|reflexivity].
  apply jsstring_eqb_eq in E. contradiction.
Qed.

(** *** Construction *)

Lemma strip_trailing_slash_one u : strip_trailing_slash (u ++ [47%N]) = u.
Proof.
  unfold strip_trailing_slash. rewrite rev_app_distr. cbn [rev app].
  apply rev_involutive.
Qed.

Lemma strip_trailing_slash_none u :
  last u 0%N <> 47%N -> strip_trailing_slash u = u.
Proof.
  unfold strip_trailing_slash. intros H.
  destruct (rev u) as [|x r] eqn:E; [reflexivity|].
  assert (Hu : u = rev r ++ [x]).
  { rewrite <- (rev_involutive u), E. reflexivity. }
  rewrite Hu, last_last in H.
  destruct x as [|p]; [reflexivity|].
  repeat (destruct p as [p|p|]; try reflexivity).
  now elim H.
Qed.

(** X9. [new ApiClient(config)] throws exactly when the API key is the
    empty string, and then a bare [Error]. Otherwise the key is kept; a
    [baseUrl] that is absent or empty gives the production host, one slash
    at the end of a given [baseUrl] is removed and a URL without one is kept
    as it is; the timeout is the configured one whenever one is given, zero
    included, and 60000 only when none is; [debug] is off by default. *)
Theorem construction_of_the_transport (config : ApiClientConfig) :
  (new_ApiClient config = inr api_key_required <-> cfg_apiKey config = [])
  /\ (forall e, new_ApiClient config = inr e ->
        e = api_key_required /\ uniform e = false)
  /\ (forall this, new_ApiClient config = inl this ->
        apiKey this = cfg_apiKey config /\ apiKey this <> []
        /\ (forall t, cfg_timeout config = Some t -> timeout this = t)
        /\ (cfg_timeout config = None -> timeout this = 60000)
        /\ debug this = match cfg_debug config with
                        | Some b => b
                        | None => false
                        end
        /\ (ComputerAgentsClient.given (cfg_baseUrl config) = None ->
            baseUrl this = DEFAULT_BASE_URL)
        /\ (forall u, cfg_baseUrl config = Some (u ++ [47%N]) ->
              baseUrl this = u)
        /\ (forall u, cfg_baseUrl config = Some u -> u <> [] ->
              last u 0%N <> 47%N -> baseUrl this = u)).
Proof.
  unfold new_ApiClient.
  destruct (cfg_apiKey config) as [|c k] eqn:Hk; cbn [nonempty].
  - split; [split; reflexivity|]. split; [|discriminate].
    intros e H. inversion H. now split.
  - split; [split; discriminate|]. split; [discriminate|].
    intros this H. inversion H; subst this; clear H.
    cbn [apiKey timeout debug baseUrl].
    split; [reflexivity|]. split; [discriminate|].
    split; [now intros t ->|]. split; [now intros ->|].
    split; [reflexivity|]. split; [now intros ->|]. split.
    + intros u ->. unfold ComputerAgentsClient.given.
      destruct (u ++ [47%N])%list eqn:E.
      * now destruct u.
      * cbn [nonempty]. rewrite <- E. apply strip_trailing_slash_one.
    + intros u -> Hne Hl. unfold ComputerAgentsClient.given.
      destruct u; [contradiction|]. cbn [nonempty].
      now apply strip_trailing_slash_none.
Qed.

(** *** Headers *)

Lemma header_set_same k v h : header k (set_header k v h) = Some v.
Proof.
  induction h as [|[k' v'] h IH]; cbn [set_header header].
  - now rewrite jsstring_eqb_refl.
  - destruct (jsstring_eqb k k') eqn:E; cbn [header]; rewrite E;
      [reflexivity|exact IH].
Qed.

Lemma header_set_other k k' v h :
  k <> k' -> header k (set_header k' v h) = header k h.
Proof.
  intros Hne. induction h as [|[k0 v0] h IH]; cbn [set_header header].
  - now rewrite (jsstring_eqb_neq Hne).
  - destruct (jsstring_eqb k' k0) eqn:E; cbn [header]; [|now rewrite IH].
    apply jsstring_eqb_eq in E. subst k0.
    now rewrite (jsstring_eqb_neq Hne).
Qed.

Lemma header_absent k (h : Headers) :
  ~ In k (List.map fst h) -> header k h = None.
Proof.
  induction h as [|[k' v'] h IH]; intros H; [reflexivity|].
  cbn [header]. rewrite jsstring_eqb_neq.
  - apply IH. intros Hin. apply H. now right.
  - intros ->. apply H. now left.
Qed.

(** Spreading an object over another: its properties win. *)
Lemma header_spread k src : forall h,
  NoDup (List.map fst src) ->
  header k (spread src h)
  = match header k src with Some v => Some v | None => header k h end.
Proof.
  induction src as [|[k1 v1] src IH]; intros h Hnd; [reflexivity|].
  cbn [List.map fst] in Hnd. inversion Hnd as [|? ? Hnotin Hnd']; subst.
  unfold spread in *. cbn [fold_left fst snd header].
  rewrite IH by exact Hnd'.
  destruct (jsstring_eqb k k1) eqn:E.
  - apply jsstring_eqb_eq in E. subst k1.
    rewrite (header_absent _ _ Hnotin). apply header_set_same.
  - destruct (header k src); [reflexivity|].
    apply header_set_other. intros ->.
    now rewrite jsstring_eqb_refl in E.
Qed.

Lemma theirs_unique options :
  unique_keys (req_headers options) -> NoDup (List.map fst (theirs options)).
Proof.
  unfold unique_keys, theirs. destruct (req_headers options); [auto|].
  intros _. constructor.
Qed.

(** X10. The headers of a request. [Authorization] is [Bearer <apiKey>]
    unless the caller's own headers hold an [Authorization], which then
    replaces it; a streamed request always asks for [text/event-stream],
    whatever [Accept] the caller set, and a request that is not streamed
    has the caller's [Accept] or none. *)
Theorem authorization_and_accept (this_apiKey : jsstring)
    (options : RequestOptions) :
  unique_keys (req_headers options) ->
  header (lit "Authorization") (request_headers this_apiKey options)
  = Some (match header (lit "Authorization") (theirs options) with
          | Some v => v
          | None => (lit "Bearer " ++ this_apiKey)%list
          end)
  /\ (req_stream options = true ->
      header (lit "Accept") (request_headers this_apiKey options)
      = Some (lit "text/event-stream"))
  /\ (req_stream options = false ->
      header (lit "Accept") (request_headers this_apiKey options)
      = header (lit "Accept") (theirs options)).
Proof.
  intros Hu. apply theirs_unique in Hu.
  unfold request_headers.
  set (h0 := spread (theirs options)
               [(lit "Authorization", (lit "Bearer " ++ this_apiKey)%list)]).
  assert (Hauth : header (lit "Authorization") h0
                  = Some (match header (lit "Authorization") (theirs options)
                          with
                          | Some v => v
                          | None => (lit "Bearer " ++ this_apiKey)%list
                          end)).
  { unfold h0. rewrite header_spread by exact Hu.
    now destruct (header (lit "Authorization") (theirs options)). }
  assert (Hacc : header (lit "Accept") h0
                 = header (lit "Accept") (theirs options)).
  { unfold h0. rewrite header_spread by exact Hu.
    now destruct (header (lit "Accept") (theirs options)). }
  set (h1 := if truthy (req_body options) && _ then _ else h0).
  assert (H1a : header (lit "Authorization") h1
                = header (lit "Authorization") h0).
  { unfold h1. destruct (truthy (req_body options) && _); [|reflexivity].
    apply header_set_other. discriminate. }
  assert (H1b : header (lit "Accept") h1 = header (lit "Accept") h0).
  { unfold h1. destruct (truthy (req_body options) && _); [|reflexivity].
    apply header_set_other. discriminate. }
  split.
  - destruct (req_stream options).
    + rewrite header_set_other by discriminate. now rewrite H1a.
    + now rewrite H1a.
  - split; intros ->.
    + apply header_set_same.
    + now rewrite H1b.
Qed.

Lemma authorization_and_accept_witness :
  unique_keys (req_headers RequestSamples.with_own_headers)
  /\ header (lit "Authorization")
       (request_headers (lit "k1") RequestSamples.with_own_headers)
     = Some (lit "Token t0")
  /\ header (lit "Accept")
       (request_headers (lit "k1") RequestSamples.with_own_headers)
     = Some (lit "text/event-stream").
Proof.
  assert (Hu : unique_keys (req_headers RequestSamples.with_own_headers)).
  { cbn. repeat constructor; cbn; intros H;
      repeat (destruct H as [H|H]; [discriminate H|]); exact H. }
  split; [exact Hu|].
  destruct (authorization_and_accept (lit "k1")
              RequestSamples.with_own_headers Hu) as (Ha & Hs & _).
  split; [rewrite Ha; reflexivity|exact (Hs eq_refl)].
Defined.

(** X11. The [Content-Type] of a request. A body that is sent gets
    [application/json] unless the caller's headers hold a non-empty
    [Content-Type] under exactly that name; the caller's non-empty
    [Content-Type] is always kept; a request without a body, or with a falsy
    one ([0], [''], [false], [null]), which [request] does not send, gets no
    [Content-Type] of its own. *)
Theorem content_type_follows_the_body (this_apiKey : jsstring)
    (options : RequestOptions) :
  unique_keys (req_headers options) ->
  (sends_body options = true ->
   ComputerAgentsClient.given (header (lit "Content-Type") (theirs options))
   = None ->
   header (lit "Content-Type") (request_headers this_apiKey options)
   = Some (lit "application/json"))
  /\ (forall v,
        ComputerAgentsClient.given
          (header (lit "Content-Type") (theirs options)) = Some v ->
        header (lit "Content-Type") (request_headers this_apiKey options)
        = Some v)
  /\ (sends_body options = false ->
      header (lit "Content-Type") (request_headers this_apiKey options)
      = header (lit "Content-Type") (theirs options)).
Proof.
  intros Hu. apply theirs_unique in Hu.
  unfold request_headers, sends_body.
  set (h0 := spread (theirs options)
               [(lit "Authorization", (lit "Bearer " ++ this_apiKey)%list)]).
  assert (H0 : header (lit "Content-Type") h0
               = header (lit "Content-Type") (theirs options)).
  { unfold h0. rewrite header_spread by exact Hu.
    now destruct (header (lit "Content-Type") (theirs options)). }
  assert (Hacc : forall h,
            header (lit "Content-Type")
              (if req_stream options
               then set_header (lit "Accept") (lit "text/event-stream") h
               else h)
            = header (lit "Content-Type") h).
  { intros h. destruct (req_stream options); [|reflexivity].
    apply header_set_other. discriminate. }
  rewrite Hacc. split; [|split].
  - intros -> ->. cbn [andb negb]. apply header_set_same.
  - intros v Hv. rewrite Hv. rewrite andb_false_r.
    rewrite H0. apply ClientFacts.given_nonempty in Hv. now destruct Hv.
  - intros ->. cbn [andb]. exact H0.
Qed.

Lemma content_type_follows_the_body_witness :
  unique_keys (req_headers RequestSamples.with_own_headers)
  /\ sends_body RequestSamples.with_own_headers = true
  /\ header (lit "Content-Type")
       (request_headers (lit "k1") RequestSamples.with_own_headers)
     = Some (lit "application/json")
  /\ header (lit "content-type")
       (request_headers (lit "k1") RequestSamples.with_own_headers)
     = Some (lit "text/plain").
Proof.
  assert (Hu : unique_keys (req_headers RequestSamples.with_own_headers)).
  { cbn. repeat constructor; cbn; intros H;
      repeat (destruct H as [H|H]; [discriminate H|]); exact H. }
  split; [exact Hu|]. split; [reflexivity|].
  destruct (content_type_follows_the_body (lit "k1")
              RequestSamples.with_own_headers Hu) as (Hb & _ & _).
  split; [exact (Hb eq_refl eq_refl)|vm_compute; reflexivity].
Defined.

(** *** Query parameters *)

Lemma named_without_same name l : named name (without name l) = [].
Proof.
  unfold named, without. induction l as [|[n v] l IH]; [reflexivity|].
  cbn [filter fst]. destruct (jsstring_eqb name n) eqn:E; cbn [negb filter fst];
    [exact IH|]. now rewrite E.
Qed.

Lemma named_without_other k name l :
  k <> name -> named k (without name l) = named k l.
Proof.
  intros Hne. unfold named, without.
  induction l as [|[n v] l IH]; [reflexivity|].
  cbn [filter fst]. destruct (jsstring_eqb name n) eqn:E; cbn [negb filter fst].
  - apply jsstring_eqb_eq in E. subst n.
    now rewrite (jsstring_eqb_neq Hne).
  - now rewrite IH.
Qed.

Lemma named_set_same name value l :
  named name (searchParams_set name value l) = [(name, value)].
Proof.
  induction l as [|[n v] l IH]; cbn [searchParams_set].
  - unfold named. cbn. now rewrite jsstring_eqb_refl.
  - destruct (jsstring_eqb name n) eqn:E.
    + unfold named. cbn [filter fst]. rewrite E.
      fold (named name (without name l)). rewrite named_without_same.
      apply jsstring_eqb_eq in E. now subst n.
    + unfold named in *. cbn [filter fst]. now rewrite E.
Qed.

Lemma named_set_other k name value l :
  k <> name -> named k (searchParams_set name value l) = named k l.
Proof.
  intros Hne. induction l as [|[n v] l IH]; cbn [searchParams_set].
  - unfold named. cbn. now rewrite (jsstring_eqb_neq Hne).
  - destruct (jsstring_eqb name n) eqn:E.
    + apply jsstring_eqb_eq in E. subst n. unfold named. cbn [filter fst].
      rewrite (jsstring_eqb_neq Hne).
      fold (named k (without name l)). fold (named k l).
      now apply named_without_other.
    + unfold named in *. cbn [filter fst]. now rewrite IH.
Qed.

Lemma get_named name l :
  searchParams_get name l
  = match named name l with (_, v) :: _ => Some v | [] => None end.
Proof.
  unfold named. induction l as [|[n v] l IH]; [reflexivity|].
  cbn [searchParams_get filter fst]. now destruct (jsstring_eqb name n).
Qed.

(** The entries that a name does not occur in with a defined value leave the
    pairs of that name alone. *)
Lemma named_add_query k entries : forall l,
  (forall v, In (k, v) entries -> v = QUndefined) ->
  named k (add_query entries l) = named k l.
Proof.
  induction entries as [|[k1 v1] es IH]; intros l H; [reflexivity|].
  unfold add_query in *. cbn [fold_left fst snd].
  rewrite IH by (intros v Hin; apply H; now right).
  destruct v1; try reflexivity;
    (apply named_set_other; intros ->;
     specialize (H _ (or_introl eq_refl)); discriminate).
Qed.

(** X12. The query object of a request. Every entry with a defined value
    (a string, a boolean, or a number of any kind, [NaN] and the infinite
    ones included) ends up in the URL's search parameters exactly once, as
    [String(value)], replacing every pair of that name that the path brought
    along; an entry whose value is [undefined] is skipped; the pairs of the
    path under names that the query does not define stay as they were. *)
Theorem query_entries_are_set_once
    (entries : list (jsstring * QueryValue)) (of_path : URLSearchParams) :
  NoDup (List.map fst entries) ->
  (forall k v,
     In (k, v) entries -> v <> QUndefined ->
     named k (add_query entries of_path) = [(k, String_of v)]
     /\ searchParams_get k (add_query entries of_path) = Some (String_of v))
  /\ (forall k,
        (forall v, In (k, v) entries -> v = QUndefined) ->
        named k (add_query entries of_path) = named k of_path
        /\ searchParams_get k (add_query entries of_path)
           = searchParams_get k of_path).
Proof.
  intros Hnd. split.
  - revert of_path. induction entries as [|[k1 v1] es IH]; intros l k v Hin Hv;
      [destruct Hin|].
    cbn [List.map fst] in Hnd. inversion Hnd as [|? ? Hnotin Hnd']; subst.
    assert (Hgoal : named k (add_query ((k1, v1) :: es) l)
                    = [(k, String_of v)]).
    { destruct Hin as [Heq|Hin].
      - inversion Heq; subst k1 v1. unfold add_query. cbn [fold_left fst snd].
        fold (add_query es
                (match v with
                 | QUndefined => l
                 | _ => searchParams_set k (String_of v) l
                 end)).
        rewrite named_add_query.
        + destruct v; try apply named_set_same. contradiction.
        + intros v' Hin'. exfalso. apply Hnotin.
          apply (in_map fst) in Hin'. exact Hin'.
      - unfold add_query. cbn [fold_left fst snd].
        apply (IH Hnd' _ k v Hin Hv). }
    split; [exact Hgoal|]. now rewrite get_named, Hgoal.
  - intros k H. pose proof (named_add_query k entries of_path H) as Hn.
    split; [exact Hn|]. now rewrite !get_named, Hn.
Qed.

Lemma query_entries_are_set_once_witness :
  NoDup (List.map fst RequestSamples.list_query)
  /\ add_query RequestSamples.list_query RequestSamples.path_query
     = [(lit "limit", lit "10"); (lit "cursor", lit "abc");
        (lit "environmentId", lit "env_1"); (lit "active", lit "true")]
  /\ searchParams_get (lit "limit")
       (add_query RequestSamples.list_query RequestSamples.path_query)
     = Some (lit "10")
  /\ String_of (QNumber {| mant := 1; exp10 := 21 |}) = lit "1e+21"
  /\ String_of (QNumber {| mant := 25; exp10 := -1 |}) = lit "2.5".
Proof.
  assert (Hnd : NoDup (List.map fst RequestSamples.list_query)).
  { cbn. repeat constructor; cbn; intros H;
      repeat (destruct H as [H|H]; [discriminate H|]); exact H. }
  split; [exact Hnd|]. split; [vm_compute; reflexivity|].
  destruct (@query_entries_are_set_once RequestSamples.list_query
              RequestSamples.path_query Hnd) as [Hset _].
  destruct (Hset (lit "limit") (QNumber {| mant := 10; exp10 := 0 |}))
    as [_ Hget].
  - now left.
  - discriminate.
  - split; [exact Hget|]. split; vm_compute; reflexivity.
Defined.

(** *** What [request] throws and returns *)

Lemma on_catch_platform delay e :
  platform_error e = true ->
  (status_of (on_catch delay e) = Some 408
   /\ code_of (on_catch delay e) = Some (JStr (lit "TIMEOUT")))
  \/ (status_of (on_catch delay e) = Some 500
      /\ code_of (on_catch delay e) = Some (JStr (lit "NETWORK_ERROR"))).
Proof.
  unfold platform_error. destruct e as [m s c d|name m|v].
  - discriminate.
  - intros Hm. unfold on_catch.
    destruct (jsstring_eqb name (lit "AbortError")); [left; now split|].
    right. unfold throw_ApiClientError, new_ApiClientError.
    rewrite (TransportFacts.message_from_string _ Hm). now split.
  - intros _. right. now split.
Qed.

Lemma parseError_status r e :
  parseError r = Returns e ->
  uniform e = true /\ status_of e = Some (status r).
Proof.
  unfold parseError. destruct (json r) as [j|]; [|discriminate].
  destruct (get _ (lit "message")); [|discriminate].
  destruct (get _ (lit "error")); [|discriminate].
  destruct (get _ (lit "code")); [|discriminate].
  destruct (get _ (lit "details")); [|discriminate].
  unfold new_ApiClientError. destruct (message_from _); [|discriminate].
  intros H. inversion H. now split.
Qed.

(** X13. What [request] throws, in either mode, when the failures of the
    network are the platform's. When the URL cannot be built it is the
    TypeError of [new URL], bare: the URL is built before the [try] block.
    Otherwise it is always an [ApiClientError], and one of three kinds: 408
    [TIMEOUT]; 500 [NETWORK_ERROR]; or, for a response outside 200-299, the
    status of that response. *)
Theorem request_errors_are_of_three_kinds
    (url : URL) (this_timeout : Z) (timeout : option Z) (stream : bool)
    (net : Fetch) (e : JSError) :
  platform_net net = true ->
  request url this_timeout timeout stream net = Throws e ->
  (url = Invalid /\ e = invalid_url /\ uniform e = false)
  \/ (url = Built
      /\ uniform e = true
      /\ ((status_of e = Some 408 /\ code_of e = Some (JStr (lit "TIMEOUT")))
          \/ (status_of e = Some 500
              /\ code_of e = Some (JStr (lit "NETWORK_ERROR")))
          \/ (exists t r, net = Resolves t r /\ ok r = false
                          /\ status_of e = Some (status r)))).
Proof.
  intros Hp Hreq. destruct url.
  2:{ left. inversion Hreq. now repeat split. }
  right. split; [reflexivity|].
  split; [exact (TransportFacts.request_throws_uniform _ _ _ _ Hp Hreq)|].
  unfold request in Hreq.
  set (delay := match timeout with Some t => t | None => this_timeout end)
    in *.
  assert (Habort : platform_error abort_error = true) by reflexivity.
  assert (Hkind : forall e0, platform_error e0 = true ->
            Throws (A := Reply) (on_catch delay e0) = Throws e ->
            (status_of e = Some 408
             /\ code_of e = Some (JStr (lit "TIMEOUT")))
            \/ (status_of e = Some 500
                /\ code_of e = Some (JStr (lit "NETWORK_ERROR")))
            \/ (exists t r, net = Resolves t r /\ ok r = false
                            /\ status_of e = Some (status r))).
  { intros e0 He0 H. inversion H; subst e.
    destruct (on_catch_platform delay e0 He0) as [H1|H1]; auto. }
  unfold await_fetch in Hreq. destruct net as [t r|t e0|].
  - destruct (t <? timer_delay delay); [|now apply (Hkind abort_error)].
    unfold on_response in Hreq. cbn [platform_net] in Hp.
    destruct (ok r) eqn:Hok; cbn [negb] in Hreq.
    + destruct stream; [discriminate|].
      destruct (status r =? 204); [discriminate|].
      destruct (json r) as [[v|e0]|]; try discriminate.
      now apply (Hkind e0).
    + assert (Hcases : match throw_parseError r with
                       | Returns reply => Returns reply
                       | Throws e1 => Throws (on_catch delay e1)
                       | Pending => Pending
                       end = Throws e).
      { destruct stream; exact Hreq. }
      unfold throw_parseError in Hcases.
      destruct (parseError r) as [e1|e1|] eqn:Hpe; [| |discriminate].
      * destruct (parseError_status _ Hpe) as [Hu Hs].
        destruct e1 as [m s c d| |]; try discriminate.
        cbn [on_catch] in Hcases. inversion Hcases; subst e.
        right. right. exists t, r. repeat split; assumption.
      * destruct (TransportFacts.parseError_string _ Hpe) as [-> | ->];
          [now apply (Hkind type_error)|now apply (Hkind cannot_convert)].
  - cbn [platform_net] in Hp.
    destruct (t <? timer_delay delay);
      [now apply (Hkind e0)|now apply (Hkind abort_error)].
  - now apply (Hkind abort_error).
Qed.

Lemma request_errors_are_of_three_kinds_witness :
  platform_net (Resolves 120 MoreSamples.not_found) = true
  /\ request Built 60000 None false (Resolves 120 MoreSamples.not_found)
     = Throws (ApiClientError (JStr (lit "No such thread")) 404
                 (JStr (lit "THREAD_NOT_FOUND")) JUndefined)
  /\ uniform (ApiClientError (JStr (lit "No such thread")) 404
                (JStr (lit "THREAD_NOT_FOUND")) JUndefined) = true.
Proof.
  split; [reflexivity|]. split; [vm_compute; reflexivity|].
  destruct (@request_errors_are_of_three_kinds Built 60000 None false
              (Resolves 120 MoreSamples.not_found)
              (ApiClientError (JStr (lit "No such thread")) 404
                 (JStr (lit "THREAD_NOT_FOUND")) JUndefined))
    as [(H & _)|(_ & H & _)].
  - reflexivity.
  - vm_compute. reflexivity.
  - discriminate H.
  - exact H.
Defined.

(** X14. A buffered request answered in time with a status in 200-299.
    With 204 it returns [undefined] and the body is not read; otherwise it
    returns the parsed JSON body as it is; when that body is not JSON, the
    success is reported as a 500 [NETWORK_ERROR] carrying the parser's
    message, as the constructor of [Error] takes it (a message that has no
    string form makes that constructor throw its TypeError instead); and
    when reading the body never settles, the request stays pending. *)
Theorem buffered_success
    (this_timeout : Z) (timeout : option Z) (t : Z) (r : Response) :
  t < delay_of this_timeout timeout ->
  ok r = true ->
  (status r = 204 ->
   request Built this_timeout timeout false (Resolves t r)
   = Returns (DataReply JUndefined))
  /\ (status r <> 204 ->
      forall v, json r = Some (inl v) ->
        request Built this_timeout timeout false (Resolves t r)
        = Returns (DataReply v))
  /\ (status r <> 204 ->
      forall name m s, json r = Some (inr (JsError name m)) ->
        name <> lit "AbortError" ->
        message_from m = Some s ->
        request Built this_timeout timeout false (Resolves t r)
        = Throws (ApiClientError (JStr s) 500 (JStr (lit "NETWORK_ERROR"))
                    JUndefined))
  /\ (status r <> 204 ->
      forall name m, json r = Some (inr (JsError name m)) ->
        name <> lit "AbortError" ->
        message_from m = None ->
        request Built this_timeout timeout false (Resolves t r)
        = Throws cannot_convert)
  /\ (status r <> 204 -> json r = None ->
      request Built this_timeout timeout false (Resolves t r) = Pending).
Proof.
  unfold delay_of. intros Ht Hok. apply Z.ltb_lt in Ht.
  unfold request, await_fetch, on_response. rewrite Ht, Hok. cbn [negb].
  split; [|split; [|split; [|split]]].
  - intros ->. reflexivity.
  - intros Hs v ->. apply Z.eqb_neq in Hs. now rewrite Hs.
  - intros Hs name m s -> Hn Hm. apply Z.eqb_neq in Hs. rewrite Hs.
    unfold on_catch. rewrite (jsstring_eqb_neq Hn).
    unfold throw_ApiClientError, new_ApiClientError. now rewrite Hm.
  - intros Hs name m -> Hn Hm. apply Z.eqb_neq in Hs. rewrite Hs.
    unfold on_catch. rewrite (jsstring_eqb_neq Hn).
    unfold throw_ApiClientError, new_ApiClientError. now rewrite Hm.
  - intros Hs ->. apply Z.eqb_neq in Hs. now rewrite Hs.
Qed.

Lemma buffered_success_witness :
  120 < delay_of 60000 None
  /\ ok MoreSamples.no_content = true
  /\ request Built 60000 None false (Resolves 120 MoreSamples.no_content)
     = Returns (DataReply JUndefined).
Proof.
  split; [reflexivity|]. split; [reflexivity|].
  destruct (@buffered_success 60000 None 120 MoreSamples.no_content
              eq_refl eq_refl) as (H & _).
  exact (H eq_refl).
Defined.

(** X15. The error of a response outside 200-299 that arrives in time, in
    either mode. A JSON object as body gives an [ApiClientError] with the
    status of the response and the body's [code] and [details]; its
    message is the body's [message] or, when that is missing or empty, its
    [error], as the constructor of [Error] takes it: a string as it is, the
    empty string when both are missing, anything else converted to a
    string. When that conversion throws, and when the body is JSON [null],
    the status is lost: the failure surfaces as a 500 [NETWORK_ERROR]. A
    JSON body that is a boolean, a number, a string or an array has none of
    the four properties: the message is empty. A body that is not JSON
    gives the message [HTTP <status>] with the status and no code. A body
    that never comes to its end leaves the request pending. *)
Theorem error_of_a_failed_response
    (this_timeout : Z) (timeout : option Z) (stream : bool) (t : Z)
    (r : Response) :
  t < delay_of this_timeout timeout ->
  ok r = false ->
  (forall fs s, json r = Some (inl (JObj fs)) ->
     message_from (or_else (lookup (lit "message") fs)
                           (lookup (lit "error") fs)) = Some s ->
     request Built this_timeout timeout stream (Resolves t r)
     = Throws (ApiClientError (JStr s) (status r) (lookup (lit "code") fs)
                 (lookup (lit "details") fs)))
  /\ (forall fs s, json r = Some (inl (JObj fs)) ->
        truthy (lookup (lit "message") fs) = true ->
        lookup (lit "message") fs = JStr s ->
        request Built this_timeout timeout stream (Resolves t r)
        = Throws (ApiClientError (JStr s) (status r) (lookup (lit "code") fs)
                    (lookup (lit "details") fs)))
  /\ (forall fs, json r = Some (inl (JObj fs)) ->
        lookup (lit "message") fs = JUndefined ->
        lookup (lit "error") fs = JUndefined ->
        request Built this_timeout timeout stream (Resolves t r)
        = Throws (ApiClientError (JStr []) (status r)
                    (lookup (lit "code") fs) (lookup (lit "details") fs)))
  /\ (forall fs, json r = Some (inl (JObj fs)) ->
        message_from (or_else (lookup (lit "message") fs)
                              (lookup (lit "error") fs)) = None ->
        request Built this_timeout timeout stream (Resolves t r)
        = Throws (ApiClientError
                    (JStr (lit "Cannot convert object to primitive value"))
                    500 (JStr (lit "NETWORK_ERROR")) JUndefined))
  /\ (forall e0, json r = Some (inr e0) ->
        request Built this_timeout timeout stream (Resolves t r)
        = Throws (ApiClientError
                    (JStr (lit "HTTP " ++ number_to_string (status r)))
                    (status r) JUndefined JUndefined))
  /\ (json r = Some (inl JNull) ->
      exists m,
        request Built this_timeout timeout stream (Resolves t r)
        = Throws (ApiClientError m 500 (JStr (lit "NETWORK_ERROR"))
                    JUndefined))
  /\ (forall v, json r = Some (inl v) ->
        match v with JBool _ | JNum _ | JStr _ | JArr _ => True | _ => False
        end ->
        request Built this_timeout timeout stream (Resolves t r)
        = Throws (ApiClientError (JStr []) (status r) JUndefined JUndefined))
  /\ (json r = None ->
      request Built this_timeout timeout stream (Resolves t r) = Pending).
Proof.
  unfold delay_of. intros Ht Hok. apply Z.ltb_lt in Ht.
  assert (Hobj : forall fs s, json r = Some (inl (JObj fs)) ->
            message_from (or_else (lookup (lit "message") fs)
                                  (lookup (lit "error") fs)) = Some s ->
            request Built this_timeout timeout stream (Resolves t r)
            = Throws (ApiClientError (JStr s) (status r)
                        (lookup (lit "code") fs) (lookup (lit "details") fs))).
  { intros fs s Hj Hm.
    unfold request, await_fetch, on_response, throw_parseError, parseError.
    rewrite Ht, Hok, Hj. cbn [negb get].
    unfold new_ApiClientError. rewrite Hm. now destruct stream. }
  split; [exact Hobj|].
  split.
  { intros fs s Hj Htr Hm. apply Hobj; [exact Hj|].
    unfold or_else. rewrite Htr, Hm. reflexivity. }
  split.
  { intros fs Hj Hm He. apply Hobj; [exact Hj|].
    unfold or_else. rewrite Hm, He. reflexivity. }
  unfold request, await_fetch, on_response, throw_parseError, parseError.
  rewrite Ht, Hok. cbn [negb].
  split; [|split; [|split; [|split]]].
  - intros fs Hj Hm. rewrite Hj. cbn [get].
    unfold new_ApiClientError. rewrite Hm. now destruct stream.
  - intros e0 Hj. rewrite Hj. destruct stream; reflexivity.
  - intros Hj. rewrite Hj. cbn [get].
    eexists. destruct stream; reflexivity.
  - intros v Hj Hv. rewrite Hj.
    destruct v; try contradiction; destruct stream; reflexivity.
  - intros Hj. rewrite Hj. now destruct stream.
Qed.

Lemma error_of_a_failed_response_witness :
  120 < delay_of 60000 None
  /\ ok MoreSamples.bad_gateway = false
  /\ request Built 60000 None true (Resolves 120 MoreSamples.bad_gateway)
     = Throws (ApiClientError (JStr (lit "HTTP 502")) 502 JUndefined
                 JUndefined).
Proof.
  split; [reflexivity|]. split; [reflexivity|].
  destruct (@error_of_a_failed_response 60000 None true 120
              MoreSamples.bad_gateway eq_refl eq_refl)
    as (_ & _ & _ & _ & H & _).
  exact (H _ eq_refl).
Defined.

End TransportMore.

(** ** The resource wrappers *)

Module ResourcesMore.
Import JS Effects ApiClient StreamMore Resources.
Local Open Scope Z_scope.

Lemma buffered_in_time this_timeout t r :
  t < delay_of this_timeout None -> ok r = true ->
  buffered Built this_timeout (Resolves t r)
  = if status r =? 204 then Returns (DataReply JUndefined)
    else match json r with
         | Some (inl v) => Returns (DataReply v)
         | Some (inr e) => Throws (on_catch this_timeout e)
         | None => Pending
         end.
Proof.
  unfold delay_of. intros Ht Hok. apply Z.ltb_lt in Ht.
  unfold buffered, request, await_fetch, on_response.
  rewrite Ht, Hok. cbn [negb].
  destruct (status r =? 204); [reflexivity|]. now destruct (json r) as [[?|?]|].
Qed.

(** X16. The wrappers of the resource layer that hand back one property of
    the reply ([threads.create/get/update/copy/resume], [threads.getLogs],
    [environments.create/get/update/list], [projects.get]), on a reply that
    arrives in time with a status in 200-299. A JSON object gives its
    property, [undefined] when it has none, and no error; a 204, or a body
    that is JSON [null], makes the wrapper throw a TypeError that is not an
    [ApiClientError]. Whatever [request] throws or leaves pending passes
    through unchanged, the bare TypeError of a URL that cannot be built
    included. [threads.delete] and [threads.cancel] return on a 204;
    [threads.list] and [threads.getMessages] hand back [data], [has_more]
    and [total_count] as [data], [hasMore] and [total]. The wrappers are
    [property] at their key. *)
Theorem wrappers_read_one_property
    (this_timeout : Z) (k : jsstring) (t : Z) (r : Response) :
  t < delay_of this_timeout None -> ok r = true ->
  (status r <> 204 ->
   forall fs, json r = Some (inl (JObj fs)) ->
     property k (buffered Built this_timeout (Resolves t r))
     = Returns (lookup k fs))
  /\ (status r = 204 \/ json r = Some (inl JNull) ->
      property k (buffered Built this_timeout (Resolves t r))
      = Throws type_error
      /\ uniform type_error = false)
  /\ (forall url net e,
        buffered url this_timeout net = Throws e ->
        property k (buffered url this_timeout net) = Throws e)
  /\ (forall url net,
        buffered url this_timeout net = Pending ->
        property k (buffered url this_timeout net) = Pending)
  /\ (forall net,
        property k (buffered Invalid this_timeout net) = Throws invalid_url
        /\ uniform invalid_url = false)
  /\ (status r = 204 ->
      threads_void Built this_timeout (Resolves t r) = Returns tt)
  /\ (status r <> 204 ->
      forall fs, json r = Some (inl (JObj fs)) ->
        threads_page Built this_timeout (Resolves t r)
        = Returns (JObj [(lit "data", lookup (lit "data") fs);
                         (lit "hasMore", lookup (lit "has_more") fs);
                         (lit "total", lookup (lit "total_count") fs)])).
Proof.
  intros Ht Hok. pose proof (@buffered_in_time this_timeout t r Ht Hok) as Hb.
  split; [|split; [|split; [|split; [|split; [|split]]]]].
  - intros Hs fs Hj. rewrite Hb. apply Z.eqb_neq in Hs.
    rewrite Hs, Hj. reflexivity.
  - intros H. split; [|reflexivity]. rewrite Hb.
    destruct (status r =? 204) eqn:E; [reflexivity|].
    destruct H as [H|H]; [apply Z.eqb_neq in E; contradiction|].
    rewrite H. reflexivity.
  - intros url net e He. now rewrite He.
  - intros url net He. now rewrite He.
  - intros net. split; reflexivity.
  - intros Hs. unfold threads_void. rewrite Hb.
    apply Z.eqb_eq in Hs. now rewrite Hs.
  - intros Hs fs Hj. unfold threads_page. rewrite Hb.
    apply Z.eqb_neq in Hs. rewrite Hs, Hj. reflexivity.
Qed.

Lemma wrappers_read_one_property_witness :
  120 < delay_of 60000 None
  /\ ok MoreSamples.no_content = true
  /\ threads_thread Built 60000 (Resolves 120 MoreSamples.no_content)
     = Throws type_error
  /\ threads_thread Built 60000
       (Resolves 120
          (MoreSamples.answering
             (JObj [(lit "thread",
                     JObj [(lit "id", JStr (lit "thread_1"))])])))
     = Returns (JObj [(lit "id", JStr (lit "thread_1"))]).
Proof.
  split; [reflexivity|]. split; [reflexivity|].
  destruct (@wrappers_read_one_property 60000 (lit "thread") 120
              MoreSamples.no_content eq_refl eq_refl)
    as (_ & H & _).
  split; [exact (proj1 (H (or_introl eq_refl)))|].
  vm_compute. reflexivity.
Defined.

End ResourcesMore.

(** ** More on the orchestrator *)

Module ClientMore.
Import JS Effects ApiClient ComputerAgentsClient ClientSetup ClientFacts.

(** X17. [new ComputerAgentsClient(config)] takes its key from
    [config.apiKey], else from [COMPUTER_AGENTS_API_KEY], else from
    [TESTBASE_API_KEY], an empty string counting as absent. It throws
    exactly when all three are absent, and then its own bare [Error]: the
    key it hands to [new ApiClient] is never empty, so the check of that
    constructor never fires, and the timeout and [debug] flag of the
    transport are those of [config]. *)
Theorem construction_of_the_client
    (config : ComputerAgentsClientConfig) (env : ProcessEnv) :
  (new_ComputerAgentsClient config env = inr client_key_required
   <-> given (cc_apiKey config) = None
       /\ given (COMPUTER_AGENTS_API_KEY env) = None
       /\ given (TESTBASE_API_KEY env) = None)
  /\ (forall e, new_ComputerAgentsClient config env = inr e ->
        e = client_key_required /\ uniform e = false)
  /\ (forall this, new_ComputerAgentsClient config env = inl this ->
        ApiClientInit.apiKey this <> []
        /\ (forall k, given (cc_apiKey config) = Some k ->
              ApiClientInit.apiKey this = k)
        /\ (given (cc_apiKey config) = None ->
            forall k, given (COMPUTER_AGENTS_API_KEY env) = Some k ->
              ApiClientInit.apiKey this = k)
        /\ (given (cc_apiKey config) = None ->
            given (COMPUTER_AGENTS_API_KEY env) = None ->
            forall k, given (TESTBASE_API_KEY env) = Some k ->
              ApiClientInit.apiKey this = k)
        /\ ApiClientInit.timeout this = config_timeout (cc_timeout config)
        /\ ApiClientInit.debug this
           = match cc_debug config with Some b => b | None => false end).
Proof.
  unfold new_ComputerAgentsClient.
  assert (Hnew : forall k, resolve_apiKey config env = Some k ->
            k <> []
            /\ ApiClientInit.new_ApiClient
                 {| ApiClientInit.cfg_apiKey := k;
                    ApiClientInit.cfg_baseUrl := cc_baseUrl config;
                    ApiClientInit.cfg_timeout := cc_timeout config;
                    ApiClientInit.cfg_debug := cc_debug config |}
               = inl {| ApiClientInit.apiKey := k;
                        ApiClientInit.baseUrl :=
                          ApiClientInit.strip_trailing_slash
                            (match given (cc_baseUrl config) with
                             | Some u => u
                             | None => ApiClientInit.DEFAULT_BASE_URL
                             end);
                        ApiClientInit.timeout :=
                          config_timeout (cc_timeout config);
                        ApiClientInit.debug :=
                          match cc_debug config with
                          | Some b => b
                          | None => false
                          end |}).
  { intros k Hk.
    assert (Hne : k <> []).
    { unfold resolve_apiKey in Hk.
      destruct (given (cc_apiKey config)) eqn:E1.
      - inversion Hk; subst. now apply given_nonempty in E1.
      - destruct (given (COMPUTER_AGENTS_API_KEY env)) eqn:E2.
        + inversion Hk; subst. now apply given_nonempty in E2.
        + now apply given_nonempty in Hk. }
    split; [exact Hne|]. unfold ApiClientInit.new_ApiClient.
    cbn [ApiClientInit.cfg_apiKey ApiClientInit.cfg_baseUrl
         ApiClientInit.cfg_timeout ApiClientInit.cfg_debug].
    destruct k; [contradiction|reflexivity]. }
  destruct (resolve_apiKey config env) as [k|] eqn:Hk.
  - destruct (Hnew k eq_refl) as [Hne ->].
    split; [split; [discriminate|]|split; [discriminate|]].
    + intros (H1 & H2 & H3). unfold resolve_apiKey in Hk.
      rewrite H1, H2, H3 in Hk. discriminate.
    + intros this H. inversion H; subst this; clear H.
      cbn [ApiClientInit.apiKey ApiClientInit.timeout ApiClientInit.debug].
      unfold resolve_apiKey in Hk.
      split; [exact Hne|].
      split; [intros k' H1; rewrite H1 in Hk; congruence|].
      split; [intros H1 k' H2; rewrite H1, H2 in Hk; congruence|].
      split; [intros H1 H2 k' H3; rewrite H1, H2, H3 in Hk; congruence|].
      now split.
  - split; [split; [intros _|reflexivity]|split; [|discriminate]].
    + unfold resolve_apiKey in Hk.
      destruct (given (cc_apiKey config)); [discriminate|].
      destruct (given (COMPUTER_AGENTS_API_KEY env)); [discriminate|].
      now repeat split.
    + intros e H. inversion H. now split.
Qed.

Section Orchestrator.
Variable JSON_parse : jsstring -> option JSValue.
Variable O : Type.
Variable S : Type.
Variable environments_list : S -> S * Outcome (list Environment).
Variable environments_create :
  CreateEnvironmentParams -> S -> S * Outcome Environment.
Variable threads_create : CreateThreadParams -> S -> S * Outcome Thread.
Variable messages_post : jsstring -> jsstring -> JSValue -> S -> S * Fetch.
Variable new_URL : jsstring -> URL.

Local Abbreviation resolve_environmentId :=
  (@resolve_environmentId O S environments_list environments_create).
Local Abbreviation resolve_threadId :=
  (@resolve_threadId O S threads_create).
Local Abbreviation threads_sendMessage :=
  (@threads_sendMessage JSON_parse O S messages_post new_URL).
Local Abbreviation run :=
  (@run JSON_parse O S environments_list environments_create threads_create
     messages_post new_URL).

(** X18. The deadline of a streamed message is [options.timeout], or
    600000 ms when that is absent, as [setTimeout] takes it: 1 ms when it is
    below 1 or above 2 ^ 31 - 1. The timeout the client was configured with
    plays no part. A fetch that has not settled by then gives the 408
    [TIMEOUT] error, whose message names the timeout that was asked for;
    nothing is read and nothing released. Once the headers of a response in
    200-299 have come before that, the deadline is gone: from there the call
    is the read loop on the body, however long that takes. *)
Theorem deadline_of_a_streamed_message
    (this_timeout : Z)
    (onEvent : option (ThreadsResource.StreamEventCallback O)) (o : O)
    (timeout : option Z) (net : Fetch) :
  (match net with
   | Resolves t _ | Rejects t _ =>
       (timer_delay (ThreadsResource.timeout_or_default timeout) <= t)%Z
   | Never => True
   end ->
   ThreadsResource.sendMessage JSON_parse Built this_timeout onEvent timeout
     o net
   = {| ThreadsResource.outcome :=
          Throws (ApiClientError
                    (JStr (lit "Request timeout after "
                           ++ number_to_string
                                (ThreadsResource.timeout_or_default timeout)
                           ++ lit "ms"))
                    408 (JStr (lit "TIMEOUT")) JUndefined);
        ThreadsResource.released := false;
        ThreadsResource.at_end := ThreadsResource.start o |})
  /\ (forall t r,
        net = Resolves t r ->
        (t < timer_delay (ThreadsResource.timeout_or_default timeout))%Z ->
        ok r = true ->
        ThreadsResource.sendMessage JSON_parse Built this_timeout onEvent
          timeout o net
        = ThreadsResource.consume JSON_parse onEvent o r)
  /\ (timer_delay (ThreadsResource.timeout_or_default timeout) = 1%Z
      <-> exists d, timeout = Some d /\ (d <= 1 \/ TIMEOUT_MAX < d)%Z)
  /\ (forall d, timeout = Some d -> (1 <= d <= TIMEOUT_MAX)%Z ->
        timer_delay (ThreadsResource.timeout_or_default timeout) = d).
Proof.
  split; [|split; [|split]].
  - intros H. unfold ThreadsResource.sendMessage.
    now rewrite (TransportFacts.request_times_out this_timeout _ true net H).
  - intros t r -> Ht Hok. apply Z.ltb_lt in Ht.
    unfold ThreadsResource.sendMessage, request, await_fetch, on_response.
    now rewrite Ht, Hok.
  - unfold timer_delay, ThreadsResource.timeout_or_default, TIMEOUT_MAX.
    destruct timeout as [d|].
    + split.
      * intros H. exists d. split; [reflexivity|].
        destruct (d <? 1)%Z eqn:E1; [apply Z.ltb_lt in E1; lia|].
        destruct (2147483647 <? d)%Z eqn:E2; [apply Z.ltb_lt in E2; lia|].
        cbn in H. lia.
      * intros (d' & Hd & Hor). inversion Hd; subst d'.
        destruct (d <? 1)%Z eqn:E1; [reflexivity|].
        destruct (2147483647 <? d)%Z eqn:E2; [reflexivity|].
        apply Z.ltb_ge in E1, E2. cbn. lia.
    + split; [cbn; discriminate|]. intros (d & Hd & _). discriminate.
  - intros d -> [H1 H2]. unfold timer_delay, TIMEOUT_MAX in *.
    cbn [ThreadsResource.timeout_or_default].
    destruct (d <? 1)%Z eqn:E1; [apply Z.ltb_lt in E1; lia|].
    destruct (2147483647 <? d)%Z eqn:E2; [apply Z.ltb_lt in E2; lia|].
    reflexivity.
Qed.

(** Creating the thread and sending the message leave the cache alone. *)
Lemma resolve_threadId_keeps environmentId options w :
  _defaultEnvironmentId (fst (resolve_threadId environmentId options w))
  = _defaultEnvironmentId w
  /\ seen (fst (resolve_threadId environmentId options w)) = seen w
  /\ watcher (fst (resolve_threadId environmentId options w)) = watcher w
  /\ console (fst (resolve_threadId environmentId options w)) = console w.
Proof.
  unfold ComputerAgentsClient.resolve_threadId.
  destruct (given (opt_threadId options)); [now repeat split|].
  unfold bind, call, ret.
  now destruct (threads_create _ (service w)) as [s2 [th|e|]].
Qed.

Lemma threads_sendMessage_keeps tt threadId task cfg onEvent timeout w :
  _defaultEnvironmentId
    (fst (threads_sendMessage tt threadId task cfg onEvent timeout w))
  = _defaultEnvironmentId w.
Proof.
  unfold ComputerAgentsClient.threads_sendMessage.
  destruct (new_URL _); [|reflexivity].
  now destruct (messages_post threadId task cfg (service w)).
Qed.

(** Resolving the environment touches neither the observer nor the console,
    and writes the cache only when it returns. *)
Lemma resolve_environmentId_keeps options w :
  seen (fst (resolve_environmentId options w)) = seen w
  /\ watcher (fst (resolve_environmentId options w)) = watcher w
  /\ console (fst (resolve_environmentId options w)) = console w
  /\ ((forall id, snd (resolve_environmentId options w) <> Returns id) ->
      _defaultEnvironmentId (fst (resolve_environmentId options w))
      = _defaultEnvironmentId w).
Proof.
  unfold ComputerAgentsClient.resolve_environmentId.
  destruct (given (opt_environmentId options)); [now repeat split|].
  unfold _ensureDefaultEnvironment.
  destruct (given (_defaultEnvironmentId w)); [now repeat split|].
  unfold resolve_default, bind, call, set_default, ret.
  destruct (environments_list (service w)) as [s1 [envs|e|]];
    try (now repeat split).
  destruct (find_default envs) as [env|].
  - cbn. repeat split. intros H. now elim (H (env_id env)).
  - cbn [service journal].
    destruct (environments_create default_params s1) as [s2 [env|e|]];
      cbn; try (now repeat split).
    repeat split. intros H. now elim (H (env_id env)).
Qed.

(** X19. [run] resolves the environment before it looks at the thread. A
    call that brings a [threadId] but no [environmentId], on a client whose
    cache is empty, still lists the environments, and creates the default
    one when the list flags none, although no thread is created and the
    environment is not used. *)
Theorem thread_given_environment_still_resolved
    (this_timeout : Z) (task : jsstring) (options : RunOptions O)
    (w : World O S) (t : jsstring) :
  given (opt_threadId options) = Some t ->
  given (opt_environmentId options) = None ->
  given (_defaultEnvironmentId w) = None ->
  (exists tail,
     journal (fst (run this_timeout task options w))
     = journal w ++ ListEnvironments :: tail)
  /\ filter is_create_thread (journal (fst (run this_timeout task options w)))
     = filter is_create_thread (journal w)
  /\ (forall s1 envs s2 env,
        environments_list (service w) = (s1, Returns envs) ->
        find_default envs = None ->
        environments_create default_params s1 = (s2, Returns env) ->
        journal (fst (run this_timeout task options w))
        = journal w ++ [ListEnvironments; CreateEnvironment default_params;
                        PostMessage t task (opt_agentConfig options)]
        /\ _defaultEnvironmentId (fst (run this_timeout task options w))
           = Some (env_id env)).
Proof.
  intros Ht He Hc.
  assert (Hthread : forall id w1,
            resolve_threadId id options w1 = (w1, Returns t)).
  { intros id w1. unfold ComputerAgentsClient.resolve_threadId.
    now rewrite Ht. }
  assert (Hres : resolve_environmentId options w
                 = resolve_default environments_list environments_create w).
  { unfold ComputerAgentsClient.resolve_environmentId,
      _ensureDefaultEnvironment. now rewrite He, Hc. }
  unfold ComputerAgentsClient.run, bind. rewrite Hres.
  unfold resolve_default, bind, call, set_default, ret.
  destruct (environments_list (service w)) as [s1 [envs|e|]] eqn:Hl.
  - destruct (find_default envs) as [env|] eqn:Hf.
    + cbn [service journal _defaultEnvironmentId watcher seen console].
      rewrite Hthread.
      match goal with
      | |- context [threads_sendMessage ?x1 ?x2 ?x3 ?x4 ?x5 ?x6 ?x7] =>
          pose proof (threads_sendMessage_journal JSON_parse messages_post new_URL
                        x1 x2 x3 x4 x5 x6 x7) as Hj;
          pose proof (threads_sendMessage_keeps x1 x2 x3 x4 x5 x6 x7) as Hk;
          destruct (threads_sendMessage x1 x2 x3 x4 x5 x6 x7)
            as [w3 [res|e0|]]
      end; cbn [fst journal _defaultEnvironmentId] in *;
        (split; [eexists; rewrite Hj, <- app_assoc; reflexivity|]);
        (split; [rewrite Hj, !filter_app; cbn; now rewrite !app_nil_r|]);
        intros s1' envs' s2 env' Hl' Hf'; inversion Hl'; subst;
        rewrite Hf in Hf'; discriminate.
    + cbn [service journal].
      destruct (environments_create default_params s1) as [s2 [env|e|]]
        eqn:Hcr.
      * cbn [service journal _defaultEnvironmentId watcher seen console].
        rewrite Hthread.
        match goal with
        | |- context [threads_sendMessage ?x1 ?x2 ?x3 ?x4 ?x5 ?x6 ?x7] =>
            pose proof (threads_sendMessage_journal JSON_parse messages_post new_URL
                          x1 x2 x3 x4 x5 x6 x7) as Hj;
            pose proof (threads_sendMessage_keeps x1 x2 x3 x4 x5 x6 x7) as Hk;
            destruct (threads_sendMessage x1 x2 x3 x4 x5 x6 x7)
              as [w3 [res|e0|]]
        end; cbn [fst journal _defaultEnvironmentId] in *;
          (split; [eexists; rewrite Hj, <- !app_assoc; reflexivity|]);
          (split; [rewrite Hj, !filter_app; cbn; now rewrite !app_nil_r|]);
          intros s1' envs' s2' env' Hl' Hf' Hcr'; inversion Hl'; subst;
          rewrite Hcr in Hcr'; inversion Hcr'; subst;
          (split; [rewrite Hj, <- !app_assoc; reflexivity|exact Hk]).
      * cbn [fst journal].
        split; [eexists; rewrite <- app_assoc; reflexivity|].
        split; [rewrite !filter_app; cbn; now rewrite !app_nil_r|].
        intros s1' envs' s2' env' Hl' Hf' Hcr'. inversion Hl'; subst.
        rewrite Hcr in Hcr'. discriminate.
      * cbn [fst journal].
        split; [eexists; rewrite <- app_assoc; reflexivity|].
        split; [rewrite !filter_app; cbn; now rewrite !app_nil_r|].
        intros s1' envs' s2' env' Hl' Hf' Hcr'. inversion Hl'; subst.
        rewrite Hcr in Hcr'. discriminate.
  - cbn [fst journal]. split; [now exists []|].
    split; [rewrite filter_app; cbn; now rewrite app_nil_r|].
    intros s1' envs' s2' env' Hl'. discriminate.
  - cbn [fst journal]. split; [now exists []|].
    split; [rewrite filter_app; cbn; now rewrite app_nil_r|].
    intros s1' envs' s2' env' Hl'. discriminate.
Qed.

(** X20. [run] adds no error handling. A failure of the environment
    resolution, of the thread creation or of the message is the outcome of
    [run], unchanged, and nothing after the failing step is called. When the
    resolution fails, the cache, the observer and the console are as
    before and only environment calls were made; when the thread creation
    fails, no message was posted and the environment that the resolution
    put in the cache stays there. *)
Theorem run_stops_at_the_first_failure
    (this_timeout : Z) (task : jsstring) (options : RunOptions O)
    (w : World O S) :
  (forall w1 e,
     resolve_environmentId options w = (w1, Throws e) ->
     run this_timeout task options w = (w1, Throws e)
     /\ _defaultEnvironmentId w1 = _defaultEnvironmentId w
     /\ seen w1 = seen w /\ watcher w1 = watcher w /\ console w1 = console w
     /\ exists j, journal w1 = journal w ++ j
                  /\ forallb is_environment_call j = true)
  /\ (forall w1 id w2 e,
        resolve_environmentId options w = (w1, Returns id) ->
        resolve_threadId id options w1 = (w2, Throws e) ->
        run this_timeout task options w = (w2, Throws e)
        /\ _defaultEnvironmentId w2 = _defaultEnvironmentId w1
        /\ seen w2 = seen w /\ watcher w2 = watcher w
        /\ journal w2
           = journal w1 ++ [CreateThread {| environmentId := id |}])
  /\ (forall w1 id w2 tid w3 e,
        resolve_environmentId options w = (w1, Returns id) ->
        resolve_threadId id options w1 = (w2, Returns tid) ->
        threads_sendMessage this_timeout tid task (opt_agentConfig options)
          (opt_onEvent options) (opt_timeout options) w2 = (w3, Throws e) ->
        run this_timeout task options w = (w3, Throws e)).
Proof.
  split; [|split].
  - intros w1 e Hres.
    split; [unfold ComputerAgentsClient.run, bind; now rewrite Hres|].
    destruct (resolve_environmentId_keeps options w) as (Hs & Hw & Hc & Hd).
    destruct (resolve_environmentId_journal environments_list
                environments_create options w) as (j & Hj & Hcases).
    rewrite Hres in *. cbn [fst snd] in *.
    split; [apply Hd; discriminate|].
    split; [exact Hs|]. split; [exact Hw|]. split; [exact Hc|].
    exists j. split; [exact Hj|].
    now destruct Hcases as [->|[->| ->]].
  - intros w1 id w2 e Hres Hthr.
    split; [unfold ComputerAgentsClient.run, bind; now rewrite Hres, Hthr|].
    destruct (resolve_environmentId_keeps options w) as (Hs & Hw & _ & _).
    destruct (resolve_threadId_keeps id options w1) as (Hd2 & Hs2 & Hw2 & _).
    pose proof (resolve_threadId_journal threads_create id options w1) as Hj.
    rewrite Hres in *. rewrite Hthr in *. cbn [fst] in *.
    split; [exact Hd2|].
    split; [now rewrite Hs2|]. split; [now rewrite Hw2|].
    rewrite Hj. unfold ComputerAgentsClient.resolve_threadId in Hthr.
    destruct (given (opt_threadId options)); [discriminate|reflexivity].
  - intros w1 id w2 tid w3 e Hres Hthr Hsend.
    unfold ComputerAgentsClient.run, bind. now rewrite Hres, Hthr, Hsend.
Qed.


End Orchestrator.

(** A timeout of 3000000000 ms is more than [setTimeout] takes: the timer
    fires after 1 ms, and a response whose headers come after 5 ms is not
    waited for. *)
Lemma deadline_of_a_streamed_message_witness :
  timer_delay (ThreadsResource.timeout_or_default (Some 3000000000%Z)) = 1%Z
  /\ ThreadsResource.outcome
       (ThreadsResource.sendMessage JSON.parse Built 60000
          (@None (ThreadsResource.StreamEventCallback unit))
          (Some 3000000000%Z) tt
          (Resolves 5 (Samples.streaming [Samples.hello] Closed)))
     = Throws (ApiClientError
                 (JStr (lit "Request timeout after 3000000000ms")) 408
                 (JStr (lit "TIMEOUT")) JUndefined).
Proof.
  split; [reflexivity|].
  destruct (@deadline_of_a_streamed_message JSON.parse unit 60000%Z None tt
              (Some 3000000000%Z)
              (Resolves 5 (Samples.streaming [Samples.hello] Closed)))
    as (H & _).
  rewrite H; [vm_compute; reflexivity|].
  vm_compute. discriminate.
Defined.

Lemma thread_given_environment_still_resolved_witness :
  given (opt_threadId ClientSamples.continuing) = Some (lit "thread_9")
  /\ given (opt_environmentId ClientSamples.continuing) = None
  /\ given (_defaultEnvironmentId (fresh Samples.empty_cloud 0%nat)) = None
  /\ journal (fst (Samples.cloud_run (lit "more") ClientSamples.continuing
                     (fresh Samples.empty_cloud 0%nat)))
     = [ListEnvironments; CreateEnvironment default_params;
        PostMessage (lit "thread_9") (lit "more") JUndefined].
Proof.
  repeat (split; [reflexivity|]).
  destruct (@thread_given_environment_still_resolved JSON.parse nat
              Samples.Cloud Samples.cloud_list Samples.cloud_create
              Samples.cloud_thread Samples.cloud_post Samples.production 60000%Z (lit "more")
              ClientSamples.continuing (fresh Samples.empty_cloud 0%nat)
              (lit "thread_9") eq_refl eq_refl eq_refl) as (_ & _ & H).
  destruct (H Samples.empty_cloud [] _ _ eq_refl eq_refl eq_refl) as [Hj _].
  exact Hj.
Defined.

Lemma run_stops_at_the_first_failure_witness :
  ClientSamples.no_threads {| environmentId := Samples.id_of "env_" 1 |}
    {| Samples.cloud_environments :=
         [{| env_id := Samples.id_of "env_" 1; env_name := lit "default";
             env_internetAccess := Some true; env_isDefault := Some true |}];
       Samples.cloud_next := 2 |}
  = ({| Samples.cloud_environments :=
          [{| env_id := Samples.id_of "env_" 1; env_name := lit "default";
              env_internetAccess := Some true; env_isDefault := Some true |}];
        Samples.cloud_next := 2 |},
     Throws (ApiClientError (JStr (lit "Thread quota exceeded")) 429
               (JStr (lit "QUOTA")) JUndefined))
  /\ snd (run JSON.parse Samples.cloud_list Samples.cloud_create
            ClientSamples.no_threads Samples.cloud_post Samples.production 60000
            (lit "hi") Samples.no_options (fresh Samples.empty_cloud 0%nat))
     = Throws (ApiClientError (JStr (lit "Thread quota exceeded")) 429
                 (JStr (lit "QUOTA")) JUndefined)
  /\ _defaultEnvironmentId
       (fst (run JSON.parse Samples.cloud_list Samples.cloud_create
               ClientSamples.no_threads Samples.cloud_post Samples.production 60000
               (lit "hi") Samples.no_options
               (fresh Samples.empty_cloud 0%nat)))
     = Some (Samples.id_of "env_" 1).
Proof.
  split; [reflexivity|].
  destruct (@run_stops_at_the_first_failure JSON.parse nat Samples.Cloud
              Samples.cloud_list Samples.cloud_create
              ClientSamples.no_threads Samples.cloud_post Samples.production 60000%Z (lit "hi")
              Samples.no_options (fresh Samples.empty_cloud 0%nat))
    as (_ & H & _).
  destruct (H _ (Samples.id_of "env_" 1) _ _ eq_refl eq_refl)
    as (Hrun & Hcache & _).
  rewrite Hrun. split; [reflexivity|]. cbn [fst]. rewrite Hcache.
  reflexivity.
Defined.



Section QuickSetup.
Variable O : Type.
Variable S : Type.
Variable Project : Type.
Variable projects_get : S -> S * Outcome Project.
Variable environments_list : S -> S * Outcome (list Environment).
Variable environments_create :
  CreateEnvironmentParams -> S -> S * Outcome Environment.

Local Abbreviation quickSetup :=
  (@quickSetup O S Project projects_get environments_list environments_create).

(** X22. [quickSetup] reads the project first and makes no environment call
    when that fails. It then lists the environments once: the first one
    flagged default is returned and nothing is created; when none is
    flagged, one is created with the default flag, with the given name, or
    [default] when the name is absent or empty, and with internet access on
    unless the option says [false]. It never writes the cache of the
    default environment, so a later [run] resolves it again. *)
Theorem quickSetup_finds_or_creates
    (options : QuickSetupOptions) (w : World O S) :
  _defaultEnvironmentId (fst (quickSetup options w)) = _defaultEnvironmentId w
  /\ (forall s0 e,
        projects_get (service w) = (s0, Throws e) ->
        snd (quickSetup options w) = Throws e
        /\ journal (fst (quickSetup options w)) = journal w)
  /\ (forall s0 p s1 envs,
        projects_get (service w) = (s0, Returns p) ->
        environments_list s0 = (s1, Returns envs) ->
        (forall env, find_default envs = Some env ->
           snd (quickSetup options w) = Returns (p, env)
           /\ journal (fst (quickSetup options w))
              = journal w ++ [ListEnvironments])
        /\ (find_default envs = None ->
            forall s2 env,
              environments_create (quickSetup_params options) s1
              = (s2, Returns env) ->
              snd (quickSetup options w) = Returns (p, env)
              /\ journal (fst (quickSetup options w))
                 = journal w
                   ++ [ListEnvironments;
                       CreateEnvironment (quickSetup_params options)]))
  /\ isDefault (quickSetup_params options) = true
  /\ (internetAccess (quickSetup_params options) = false
      <-> qs_internetAccess options = Some false)
  /\ (given (qs_environmentName options) = None ->
      name (quickSetup_params options) = lit "default")
  /\ (forall n, given (qs_environmentName options) = Some n ->
        name (quickSetup_params options) = n).
Proof.
  split; [|split; [|split]].
  - unfold ClientSetup.quickSetup, bind, perform, call, ret.
    destruct (projects_get (service w)) as [s0 [p|e|]]; try reflexivity.
    cbn [service].
    destruct (environments_list s0) as [s1 [envs|e|]]; try reflexivity.
    destruct (find_default envs) as [env|]; [reflexivity|].
    cbn [service].
    now destruct (environments_create (quickSetup_params options) s1)
      as [s2 [env|e|]].
  - intros s0 e Hp. unfold ClientSetup.quickSetup, bind, perform.
    rewrite Hp. now split.
  - intros s0 p s1 envs Hp Hl.
    unfold ClientSetup.quickSetup, bind, perform, call, ret.
    rewrite Hp. cbn [service]. rewrite Hl. split.
    + intros env Hf. rewrite Hf. now split.
    + intros Hf s2 env Hc. rewrite Hf. cbn [service]. rewrite Hc.
      cbn. split; [reflexivity|]. now rewrite <- app_assoc.
  - unfold quickSetup_params. cbn [isDefault internetAccess name].
    split; [reflexivity|]. split; [|split].
    + destruct (qs_internetAccess options) as [[|]|]; split; congruence.
    + now intros ->.
    + now intros n ->.
Qed.

End QuickSetup.

Lemma quickSetup_finds_or_creates_witness :
  snd (quickSetup ClientSamples.cloud_project Samples.cloud_list
         Samples.cloud_create ClientSamples.offline
         (fresh Samples.empty_cloud 0%nat))
  = Returns (lit "project_1",
             {| env_id := Samples.id_of "env_" 1; env_name := lit "default";
                env_internetAccess := Some false;
                env_isDefault := Some true |})
  /\ _defaultEnvironmentId
       (fst (quickSetup ClientSamples.cloud_project Samples.cloud_list
               Samples.cloud_create ClientSamples.offline
               (fresh Samples.empty_cloud 0%nat)))
     = None.
Proof.
  destruct (@quickSetup_finds_or_creates nat Samples.Cloud jsstring
              ClientSamples.cloud_project Samples.cloud_list
              Samples.cloud_create ClientSamples.offline
              (fresh Samples.empty_cloud 0%nat)) as (Hc & _ & H & _).
  destruct (H _ _ _ _ eq_refl eq_refl) as [_ Hnone].
  destruct (Hnone eq_refl _ _ eq_refl) as [Hr _].
  split; [exact Hr|exact Hc].
Defined.

End ClientMore.
